(** * sqlcup: column parser and statement formatter

    A shallow embedding of [cmd/sqlcup/main.go] (the current revision, with
    the [@] smart-column separator) and the properties its specification
    states about it.

    Go strings are byte sequences: they are modelled as [string] (a list of
    [ascii], one per byte).  The few functions of Go's [strings], [unicode]
    and [unicode/utf8] packages that the program calls are modelled first,
    from their documented behaviour; the separators the program passes to
    them are one-byte constants, so [Contains], [Split] and [Cut] take the
    separator as a byte.  The case tables of the [unicode] package (used for
    code points above U+007F only) are a parameter of the development.

    A call that can fail returns a [result]: [Ok], [Err] with the error value
    the Go code returns, or [Panic] for a run-time panic (index out of range,
    nil dereference). *)

From Stdlib Require Import String Ascii List ZArith Lia Bool Arith.
Import ListNotations.
Open Scope list_scope.
Open Scope string_scope.

(** The line feed, which Rocq's string literals cannot escape. *)
Definition LF : ascii := ascii_of_nat 10.
Definition nl : string := String LF "".

(* ------------------------------------------------------------------ *)
(** ** Results: a value, an error, or a panic *)

(** Go's [error] values as the program builds them: [errors.New] and
    [fmt.Errorf] with a leading [%w] verb. *)
Inductive error : Type :=
| errors_New (text : string)
| Errorf_w (wrapped : error) (rest : string).

Fixpoint error_text (e : error) : string :=
  match e with
  | errors_New t => t
  | Errorf_w w rest => error_text w ++ rest
  end.

Fixpoint error_eqb (a b : error) : bool :=
  match a, b with
  | errors_New x, errors_New y => String.eqb x y
  | Errorf_w u x, Errorf_w v y => error_eqb u v && String.eqb x y
  | _, _ => false
  end.

(** [errors.Is]: the target is the error itself or is found by unwrapping. *)
Fixpoint errors_Is (e target : error) : bool :=
  error_eqb e target ||
  match e with
  | errors_New _ => false
  | Errorf_w w _ => errors_Is w target
  end.

Inductive result (A : Type) : Type :=
| Ok (a : A)
| Err (e : error)
| Panic.
Arguments Ok {A} a.
Arguments Err {A} e.
Arguments Panic {A}.

Definition bind {A B : Type} (r : result A) (k : A -> result B) : result B :=
  match r with
  | Ok a => k a
  | Err e => Err e
  | Panic => Panic
  end.

Notation "x <- r ;; k" := (bind r (fun x => k))
  (at level 61, r at next level, right associativity).

(* ------------------------------------------------------------------ *)
(** ** Go's [unicode/utf8]: runes of a byte string *)

Module utf8.
Local Open Scope Z_scope.

Definition rune := Z.
Definition RuneError : rune := 65533.
Definition RuneSelf : Z := 128.
Definition MaxRune : rune := 1114111.

Definition byteZ (b : ascii) : Z := Z.of_N (N_of_ascii b).
Definition zbyte (z : Z) : ascii := ascii_of_N (Z.to_N z).

Definition between (lo x hi : Z) : bool := (lo <=? x) && (x <=? hi).

(** A continuation byte, 0x80..0xBF. *)
Definition cont (b : ascii) : bool := between 128 (byteZ b) 191.
Definition low6 (b : ascii) : Z := Z.land (byteZ b) 63.

(** The range accepted for the second byte, by lead byte (0xE0, 0xED, 0xF0
    and 0xF4 narrow it: no overlong forms, no surrogates, nothing above
    [MaxRune]). *)
Definition accept_lo (b0 : Z) : Z :=
  if (b0 =? 224) then 160 else if (b0 =? 240) then 144 else 128.
Definition accept_hi (b0 : Z) : Z :=
  if (b0 =? 237) then 159 else if (b0 =? 244) then 143 else 191.
Definition second (b0 : Z) (b1 : ascii) : bool :=
  between (accept_lo b0) (byteZ b1) (accept_hi b0).

(** [decode s]: the runes of [s] from left to right as [DecodeRuneInString]
    yields them, each with the bytes it was read from.  A byte that starts no
    valid encoding is read alone, as [RuneError]. *)
Fixpoint decode (s : string) : list (rune * string) :=
  match s with
  | EmptyString => []
  | String b0 t0 =>
    let n0 := byteZ b0 in
    let bad := (RuneError, String b0 "") :: decode t0 in
    if (n0 <? 128) then (n0, String b0 "") :: decode t0
    else if between 194 n0 223 then
      match t0 with
      | String b1 t1 =>
        if cont b1
        then (Z.lor (Z.shiftl (Z.land n0 31) 6) (low6 b1),
              String b0 (String b1 "")) :: decode t1
        else bad
      | _ => bad
      end
    else if between 224 n0 239 then
      match t0 with
      | String b1 (String b2 t2) =>
        if second n0 b1 && cont b2
        then (Z.lor (Z.shiftl (Z.land n0 15) 12)
                (Z.lor (Z.shiftl (low6 b1) 6) (low6 b2)),
              String b0 (String b1 (String b2 ""))) :: decode t2
        else bad
      | _ => bad
      end
    else if between 240 n0 244 then
      match t0 with
      | String b1 (String b2 (String b3 t3)) =>
        if second n0 b1 && cont b2 && cont b3
        then (Z.lor (Z.shiftl (Z.land n0 7) 18)
                (Z.lor (Z.shiftl (low6 b1) 12)
                   (Z.lor (Z.shiftl (low6 b2) 6) (low6 b3))),
              String b0 (String b1 (String b2 (String b3 "")))) :: decode t3
        else bad
      | _ => bad
      end
    else bad
  end.

(** [[]rune(s)]. *)
Definition runes (s : string) : list rune := map fst (decode s).

(** [AppendRune]: the encoding of one rune; a rune outside the Unicode range
    or a surrogate is written as [RuneError]. *)
Definition encode3 (r : rune) : string :=
  String (zbyte (Z.lor 224 (Z.shiftr r 12)))
    (String (zbyte (Z.lor 128 (Z.land (Z.shiftr r 6) 63)))
       (String (zbyte (Z.lor 128 (Z.land r 63))) "")).

Definition encode (r : rune) : string :=
  if (r <? 0) || (MaxRune <? r) || between 55296 r 57343
  then encode3 RuneError
  else if (r <=? 127) then String (zbyte r) ""
  else if (r <=? 2047) then
    String (zbyte (Z.lor 192 (Z.shiftr r 6)))
      (String (zbyte (Z.lor 128 (Z.land r 63))) "")
  else if (r <=? 65535) then encode3 r
  else
    String (zbyte (Z.lor 240 (Z.shiftr r 18)))
      (String (zbyte (Z.lor 128 (Z.land (Z.shiftr r 12) 63)))
         (String (zbyte (Z.lor 128 (Z.land (Z.shiftr r 6) 63)))
            (String (zbyte (Z.lor 128 (Z.land r 63))) ""))).

(** [string(rs)] for a rune slice. *)
Definition of_runes (rs : list rune) : string :=
  String.concat "" (map encode rs).

End utf8.

(* ------------------------------------------------------------------ *)
(** ** Go's [unicode]: case mapping and white space *)

Module unicode.
Local Open Scope Z_scope.

Inductive Case : Type := UpperCase | LowerCase | TitleCase.

Section Tables.

(** [unicode.To] over the package's [CaseRanges] table, which is consulted
    for runes above [MaxASCII] only. *)
Variable To : Case -> utf8.rune -> utf8.rune.

Definition ToUpper (r : utf8.rune) : utf8.rune :=
  if (r <=? 127)
  then (if utf8.between 97 r 122 then r - 32 else r)
  else To UpperCase r.

Definition ToLower (r : utf8.rune) : utf8.rune :=
  if (r <=? 127)
  then (if utf8.between 65 r 90 then r + 32 else r)
  else To LowerCase r.

End Tables.

(** [IsSpace]: the Latin-1 cases of the function, then the [White_Space]
    table above Latin-1. *)
Definition IsSpace (r : utf8.rune) : bool :=
  if utf8.between 0 r 255
  then utf8.between 9 r 13 || (r =? 32) || (r =? 133) || (r =? 160)
  else (r =? 5760) || utf8.between 8192 r 8202 || utf8.between 8232 r 8233
       || (r =? 8239) || (r =? 8287) || (r =? 12288).

End unicode.

(* ------------------------------------------------------------------ *)
(** ** Go's [strings] *)

Module strings.

(** [Contains(s, sep)] for a one-byte [sep]. *)
Fixpoint Contains (s : string) (sep : ascii) : bool :=
  match s with
  | EmptyString => false
  | String b t => Ascii.eqb b sep || Contains t sep
  end.

(** [Split(s, sep)] for a one-byte [sep]: the pieces between the separators,
    one more than there are separators (so never empty). *)
Fixpoint Split (s : string) (sep : ascii) : list string :=
  match s with
  | EmptyString => [""]
  | String b t =>
    if Ascii.eqb b sep then "" :: Split t sep
    else match Split t sep with
         | piece :: pieces => String b piece :: pieces
         | [] => [String b ""]
         end
  end.

(** [Cut(s, sep)] for a one-byte [sep]: the text before and after the first
    separator; [(s, "", false)] when there is none. *)
Fixpoint Cut (s : string) (sep : ascii) : string * string * bool :=
  match s with
  | EmptyString => ("", "", false)
  | String b t =>
    if Ascii.eqb b sep then ("", t, true)
    else let '(before, after, found) := Cut t sep in
         (String b before, after, found)
  end.

Fixpoint dropWhile {A : Type} (f : A -> bool) (l : list A) : list A :=
  match l with
  | [] => []
  | x :: r => if f x then dropWhile f r else l
  end.

(** [TrimSpace]: the runes that are white space are cut from both ends; the
    bytes in between are kept as they are. *)
Definition TrimSpace (s : string) : string :=
  let space (c : utf8.rune * string) := unicode.IsSpace (fst c) in
  let kept := rev (dropWhile space (rev (dropWhile space (utf8.decode s)))) in
  String.concat "" (map snd kept).

Section Tables.

Variable To : unicode.Case -> utf8.rune -> utf8.rune.

(** [Map(mapping, s)]: every rune is mapped and written again; a negative
    result drops the rune. *)
Definition Map (mapping : utf8.rune -> utf8.rune) (s : string) : string :=
  String.concat ""
    (map (fun r => let r' := mapping r in
                   if (r' <? 0)%Z then "" else utf8.encode r')
         (utf8.runes s)).

Definition ToLower (s : string) : string := Map (unicode.ToLower To) s.

End Tables.

End strings.

(* ------------------------------------------------------------------ *)
(** ** The program's data *)

Definition plainColumnSep : ascii := ":".
Definition smartColumnSep : ascii := "@".

Definition errBadArgument : error := errors_New "bad argument".
Definition errInvalidSmartColumn : error :=
  Errorf_w errBadArgument ": invalid <smart-column>".

Record column : Type := {
  Name : string;
  Type_ : string;
  Constraint : string;
  ID : bool
}.

(** [outputMode] is a [uint8] used as a set of bits. *)
Definition outputMode := Z.
Definition outputSchema : outputMode := 1%Z.
Definition outputQueries : outputMode := 2%Z.
Definition outputAll : outputMode := Z.lor outputSchema outputQueries.

(** [IDColumn] is a pointer in the source, [nil] until an identifier column
    is seen; it points to a copy of the column that nothing writes to
    afterwards, so the model holds the column itself. *)
Record scaffoldCommandArgs : Type := {
  Table : string;
  SingularEntity : string;
  PluralEntity : string;
  IDColumn : option column;
  Columns : list column;
  NonIDColumns : list column;
  LongestName : Z;
  LongestType : Z;
  NoExistsClause : bool;
  OrderBy : string;
  NoReturningClause : bool;
  Output : outputMode
}.

(** The command-line flags, package-level variables in the source, with the
    values [flag.Parse] left in them. *)
Record flags : Type := {
  noExistsClauseFlag : bool;
  idColumnFlag : string;
  orderByFlag : string;
  noReturningClauseFlag : bool;
  onlyFlag : string
}.

Definition defaultFlags : flags := {|
  noExistsClauseFlag := false;
  idColumnFlag := "id";
  orderByFlag := "";
  noReturningClauseFlag := false;
  onlyFlag := ""
|}.

(** [len(s)] as a Go [int]. *)
Definition len (s : string) : Z := Z.of_nat (String.length s).

(** [parts[i]]; every use stands behind a test of [len(parts)], as in the
    source, so the default is never read. *)
Definition at_ (parts : list string) (i : nat) : string := nth i parts "".

(* ------------------------------------------------------------------ *)
(** ** The column parser *)

(** The variables of the tag loop of [parseSmartColumnDefinition]. *)
Record tagVars : Type := {
  colType : string;
  id : bool;
  null : bool;
  unique : bool
}.

(** The loop [for _, tag := range tags { switch tag {...} }]; [s] is the
    whole definition, quoted in the error. *)
Fixpoint scanTags (s : string) (tags : list string) (v : tagVars)
  : result tagVars :=
  match tags with
  | [] => Ok v
  | tag :: rest =>
    let set_type t :=
      {| colType := t; id := id v; null := null v; unique := unique v |} in
    if tag =? "id" then
      scanTags s rest
        {| colType := colType v; id := true; null := null v; unique := unique v |}
    else if tag =? "null" then
      scanTags s rest
        {| colType := colType v; id := id v; null := true; unique := unique v |}
    else if tag =? "unique" then
      scanTags s rest
        {| colType := colType v; id := id v; null := null v; unique := true |}
    else if tag =? "float" then scanTags s rest (set_type "FLOAT")
    else if tag =? "double" then scanTags s rest (set_type "DOUBLE")
    else if tag =? "datetime" then scanTags s rest (set_type "DATETIME")
    else if tag =? "text" then scanTags s rest (set_type "TEXT")
    else if tag =? "int" then scanTags s rest (set_type "INTEGER")
    else if tag =? "blob" then scanTags s rest (set_type "BLOB")
    else Err (Errorf_w errInvalidSmartColumn
                (": '" ++ s ++ "', unknown <tag> #" ++ tag))
  end.

Definition parseSmartColumnDefinition (s : string) : result column :=
  if s =? "@id" then
    Ok {| ID := true; Name := "id"; Type_ := "INTEGER";
          Constraint := "PRIMARY KEY" |}
  else
    let '(name, rest, _) := strings.Cut s smartColumnSep in
    if name =? "" then
      Err (Errorf_w errInvalidSmartColumn (": '" ++ s ++ "', missing <name>"))
    else
      let tags := strings.Split rest smartColumnSep in
      v <- scanTags s tags
             {| colType := ""; id := false; null := false; unique := false |};;
      if id v then
        if unique v || null v then
          Err (Errorf_w errInvalidSmartColumn
                 (": '" ++ s ++ "', cannot combine @id with @unique or @null"))
        else
          let colType := if colType v =? "" then "INTEGER" else colType v in
          let constraint := "PRIMARY KEY" in
          let constraint :=
            if negb (colType =? "INTEGER") then "NOT NULL " ++ constraint
            else constraint in
          Ok {| Name := name; Type_ := colType; Constraint := constraint;
                ID := true |}
      else if colType v =? "" then
        Err (Errorf_w errInvalidSmartColumn
               (": '" ++ s ++ "', missing column type"))
      else
        let constraint := "" in
        let constraint :=
          if negb (null v) then constraint ++ " NOT NULL" else constraint in
        let constraint :=
          if unique v then constraint ++ " UNIQUE" else constraint in
        Ok {| Name := name; Type_ := colType v;
              Constraint := strings.TrimSpace constraint; ID := false |}.

Section Sqlcup.

(** The case table of Go's [unicode] package and the parsed flags. *)
Variable To : unicode.Case -> utf8.rune -> utf8.rune.
Variable F : flags.

Definition parsePlainColumnDefinition (s : string) : result column :=
  let parts := strings.Split s ":" in
  if (List.length parts <? 2)%nat || (3 <? List.length parts)%nat
     || (at_ parts 0 =? "")
  then
    Err (Errorf_w errBadArgument
           (": invalid <plain-column>: '" ++ s
            ++ "', expected '<name>:<type>[:<constraint>]'"))
  else
    let col := {| ID := strings.ToLower To (at_ parts 0) =? idColumnFlag F;
                  Name := at_ parts 0;
                  Type_ := at_ parts 1;
                  Constraint := "" |} in
    if (List.length parts =? 3)%nat then
      Ok {| ID := ID col; Name := Name col; Type_ := Type_ col;
            Constraint := at_ parts 2 |}
    else Ok col.

Definition parseColumnDefinition (s : string) : result column :=
  let plainColumn := strings.Contains s plainColumnSep in
  let smartColumn := strings.Contains s smartColumnSep in
  if plainColumn && smartColumn then
    Err (Errorf_w errBadArgument
           (": invalid <column>: '" ++ s
            ++ "' contains both plain and smart separators"))
  else if plainColumn then parsePlainColumnDefinition s
  else if smartColumn then parseSmartColumnDefinition s
  else
    Err (Errorf_w errBadArgument
           (": invalid <column>: '" ++ s
            ++ "', expected <smart-column> or <plain-column>")).

(* ------------------------------------------------------------------ *)
(** ** Entity names *)

(** [r := []rune(s); r[0] = unicode.ToUpper(r[0]); return string(r)]:
    indexing the empty slice panics. *)
Definition capitalize (s : string) : result string :=
  match utf8.runes s with
  | [] => Panic
  | r0 :: r => Ok (utf8.of_runes (unicode.ToUpper To r0 :: r))
  end.

(** The loop [for _, p := range parts { b.WriteString(capitalize(p)) }]. *)
Fixpoint capitalizeAll (parts : list string) : result string :=
  match parts with
  | [] => Ok ""
  | p :: rest =>
    c <- capitalize p;;
    b <- capitalizeAll rest;;
    Ok (c ++ b)
  end.

Definition upperCamelCase (s : string) : result string :=
  let parts := strings.Split s "_" in
  if (List.length parts =? 1)%nat then capitalize s
  else capitalizeAll parts.

(* ------------------------------------------------------------------ *)
(** ** The argument parser *)

(** One pass of the loop over [args[1:]], after the column was parsed. *)
Definition addColumn (sca : scaffoldCommandArgs) (col : column)
  : scaffoldCommandArgs :=
  {| Table := Table sca;
     SingularEntity := SingularEntity sca;
     PluralEntity := PluralEntity sca;
     IDColumn := if ID col then Some col else IDColumn sca;
     Columns := (Columns sca ++ [col])%list;
     NonIDColumns :=
       if ID col then NonIDColumns sca else (NonIDColumns sca ++ [col])%list;
     LongestName :=
       if (LongestName sca <? len (Name col))%Z then len (Name col)
       else LongestName sca;
     LongestType :=
       if (LongestType sca <? len (Type_ col))%Z then len (Type_ col)
       else LongestType sca;
     NoExistsClause := NoExistsClause sca;
     OrderBy := OrderBy sca;
     NoReturningClause := NoReturningClause sca;
     Output := Output sca |}.

(** [for _, arg := range args[1:] {...}]: the first definition that does not
    parse ends the call with its error. *)
Fixpoint parseColumns (rest : list string) (sca : scaffoldCommandArgs)
  : result scaffoldCommandArgs :=
  match rest with
  | [] => Ok sca
  | arg :: rest' =>
    col <- parseColumnDefinition arg;;
    parseColumns rest' (addColumn sca col)
  end.

(** [%s] of a string slice, as [fmt] prints it. *)
Definition fmt_slice (l : list string) : string :=
  "[" ++ String.concat " " l ++ "]".

Definition parseScaffoldCommandArgs (args : list string)
  : result scaffoldCommandArgs :=
  match args with
  | [] => Err (Errorf_w errBadArgument ": missing <name> and <column>")
  | arg0 :: columns =>
    let tableParts := strings.Split arg0 "/" in
    if negb (List.length tableParts =? 2)%nat
       || (len (at_ tableParts 0) =? 0)%Z || (len (at_ tableParts 1) =? 0)%Z
    then
      Err (Errorf_w errBadArgument
             (": invalid <name>: '" ++ fmt_slice tableParts
              ++ "', expected '<singular>/<plural>'"))
    else
      singular <- upperCamelCase (at_ tableParts 0);;
      plural <- upperCamelCase (at_ tableParts 1);;
      let sca := {| Table := at_ tableParts 1;
                    SingularEntity := singular;
                    PluralEntity := plural;
                    IDColumn := None;
                    Columns := [];
                    NonIDColumns := [];
                    LongestName := 0%Z;
                    LongestType := 0%Z;
                    NoExistsClause := noExistsClauseFlag F;
                    OrderBy := orderByFlag F;
                    NoReturningClause := noReturningClauseFlag F;
                    Output := 0%Z |} in
      let with_output (o : outputMode) :=
        {| Table := Table sca;
           SingularEntity := SingularEntity sca;
           PluralEntity := PluralEntity sca;
           IDColumn := IDColumn sca;
           Columns := Columns sca;
           NonIDColumns := NonIDColumns sca;
           LongestName := LongestName sca;
           LongestType := LongestType sca;
           NoExistsClause := NoExistsClause sca;
           OrderBy := OrderBy sca;
           NoReturningClause := NoReturningClause sca;
           Output := Z.lor (Output sca) o |} in
      if onlyFlag F =? "schema" then parseColumns columns (with_output outputSchema)
      else if onlyFlag F =? "queries" then
        parseColumns columns (with_output outputQueries)
      else if onlyFlag F =? "" then parseColumns columns (with_output outputAll)
      else
        Err (Errorf_w errBadArgument
               (": '-only " ++ onlyFlag F
                ++ "', expected 'schema' or 'queries'"))
  end.

End Sqlcup.

(* ------------------------------------------------------------------ *)
(** ** The statement formatter

    The formatter writes to an [io.Writer] that only appends: each function
    is modelled by the text it writes, in the order of its [Fprint] calls. *)

(** [for i := 0; i < no; i++ { fmt.Fprintf(w, " ") }]: nothing when [no] is
    zero or negative. *)
Fixpoint spaces (n : nat) : string :=
  match n with
  | O => ""
  | S n' => " " ++ spaces n'
  end.

Definition pad (no : Z) : string := spaces (Z.to_nat no).

(** [len(l)] of a slice, as a Go [int]. *)
Definition count {A : Type} (l : list A) : Z := Z.of_nat (List.length l).

(** The body of the loop of [writeSchema] for the column at index [ci]. *)
Definition writeSchemaColumn (args : scaffoldCommandArgs) (ci : Z)
  (col : column) : string :=
  "  " ++ Name col ++ " "
  ++ pad (LongestName args - len (Name col))
  ++ Type_ col
  ++ (if negb (Constraint col =? "")
      then pad (LongestType args - len (Type_ col)) ++ " " ++ Constraint col
      else "")
  ++ (if (ci <? count (Columns args) - 1)%Z then "," else "")
  ++ nl.

Fixpoint writeSchemaColumns (args : scaffoldCommandArgs) (ci : Z)
  (cols : list column) : string :=
  match cols with
  | [] => ""
  | col :: rest =>
    writeSchemaColumn args ci col ++ writeSchemaColumns args (ci + 1) rest
  end.

Definition writeSchema (args : scaffoldCommandArgs) : string :=
  "CREATE TABLE "
  ++ (if negb (NoExistsClause args) then "IF NOT EXISTS " else "")
  ++ Table args
  ++ " (" ++ nl
  ++ writeSchemaColumns args 0 (Columns args)
  ++ ");".

(** [args.IDColumn.Name]: a nil [IDColumn] panics. *)
Definition IDColumn_Name (args : scaffoldCommandArgs) : result string :=
  match IDColumn args with
  | Some c => Ok (Name c)
  | None => Panic
  end.

Definition writeGetQuery (args : scaffoldCommandArgs) : result string :=
  idName <- IDColumn_Name args;;
  Ok ("-- name: Get" ++ SingularEntity args ++ " :one" ++ nl
      ++ "SELECT * FROM " ++ Table args ++ nl
      ++ "WHERE " ++ idName ++ " = ? LIMIT 1;").

Definition writeListQuery (args : scaffoldCommandArgs) : string :=
  "-- name: List" ++ PluralEntity args ++ " :many" ++ nl
  ++ "SELECT * FROM " ++ Table args
  ++ (if OrderBy args =? "" then ";"
      else nl ++ "ORDER BY " ++ OrderBy args ++ ";").

(** The first loop of [writeCreateQuery], from index [i]; [n] is
    [len(args.NonIDColumns)]. *)
Fixpoint writeCreateNames (n i : Z) (cols : list column) : string :=
  match cols with
  | [] => ""
  | col :: rest =>
    Name col ++ (if (i =? n - 1)%Z then nl else ", ")
    ++ writeCreateNames n (i + 1) rest
  end.

(** The second loop, [for i := 0; i < n; i++], with [todo] passes left. *)
Fixpoint writeCreateMarks (n i : Z) (todo : nat) : string :=
  match todo with
  | O => ""
  | S todo' =>
    (if (i <? n - 1)%Z then "?, " else "?" ++ nl)
    ++ writeCreateMarks n (i + 1) todo'
  end.

Definition writeCreateQuery (args : scaffoldCommandArgs) : string :=
  "-- name: Create" ++ SingularEntity args ++ " :one" ++ nl
  ++ "INSERT INTO " ++ Table args ++ " (" ++ nl
  ++ "  "
  ++ writeCreateNames (count (NonIDColumns args)) 0 (NonIDColumns args)
  ++ ") VALUES (" ++ nl
  ++ "  "
  ++ writeCreateMarks (count (NonIDColumns args)) 0
       (List.length (NonIDColumns args))
  ++ ")" ++ nl
  ++ "RETURNING *;".

Definition writeDeleteQuery (args : scaffoldCommandArgs) : result string :=
  idName <- IDColumn_Name args;;
  Ok ("-- name: Delete" ++ SingularEntity args ++ " :exec" ++ nl
      ++ "DELETE FROM " ++ Table args ++ nl
      ++ "WHERE " ++ idName ++ " = ?;").

(** The loop of [writeUpdateQuery], from index [i]. *)
Fixpoint writeUpdateSets (n i : Z) (cols : list column) : string :=
  match cols with
  | [] => ""
  | col :: rest =>
    (if (i <? n - 1)%Z then "  " ++ Name col ++ " = ?," ++ nl
     else "  " ++ Name col ++ " = ?" ++ nl)
    ++ writeUpdateSets n (i + 1) rest
  end.

Definition writeUpdateQuery (args : scaffoldCommandArgs) : result string :=
  let mode := if NoReturningClause args then ":exec" else ":one" in
  idName <- IDColumn_Name args;;
  Ok ("-- name: Update" ++ SingularEntity args ++ " " ++ mode ++ nl
      ++ "UPDATE " ++ Table args ++ nl
      ++ "SET" ++ nl
      ++ writeUpdateSets (count (NonIDColumns args)) 0 (NonIDColumns args)
      ++ "WHERE " ++ idName ++ " = ?"
      ++ (if negb (NoReturningClause args) then nl ++ "RETURNING *;"
          else ";")).

Definition schemaBanner : string :=
  "#############################################" ++ nl
  ++ "# Add the following to your SQL schema file #" ++ nl
  ++ "#############################################" ++ nl ++ nl.

Definition queriesBanner : string :=
  "##############################################" ++ nl
  ++ "# Add the following to your SQL queries file #" ++ nl
  ++ "##############################################" ++ nl ++ nl.

Definition has (o flag : outputMode) : bool := negb (Z.land o flag =? 0)%Z.
Definition has_all (o : outputMode) : bool :=
  (Z.land o outputAll =? outputAll)%Z.
Definition is_nil {A : Type} (p : option A) : bool :=
  match p with
  | None => true
  | Some _ => false
  end.

(** The text [scaffoldCommand] prints; [b] is its [strings.Builder]. *)
Definition scaffoldCommand (args : scaffoldCommandArgs) : result string :=
  let b := "" in
  let b := if has_all (Output args) then b ++ schemaBanner else b in
  let b :=
    if has (Output args) outputSchema then b ++ writeSchema args ++ nl ++ nl
    else b in
  let b := if has_all (Output args) then b ++ queriesBanner else b in
  if has (Output args) outputQueries then
    b <- (if negb (is_nil (IDColumn args)) then
            get <- writeGetQuery args;;
            Ok (b ++ get ++ nl ++ nl)
          else Ok b);;
    let b := b ++ writeListQuery args ++ nl ++ nl in
    let b := b ++ writeCreateQuery args ++ nl in
    if negb (is_nil (IDColumn args)) then
      delete <- writeDeleteQuery args;;
      update <- writeUpdateQuery args;;
      Ok (b ++ nl ++ delete ++ nl ++ nl ++ update ++ nl ++ nl)
    else Ok b
  else Ok b.

(* ------------------------------------------------------------------ *)
(** ** The command

    [main] is modelled from the point where the [flag] package has read the
    command line: what it found is the input.  A run ends with text on
    standard output and standard error and an exit status, or in a panic. *)

Definition exitCodeBadArgument : Z := 1%Z.
Definition exitCodeInternalError : Z := 2%Z.

Inductive outcome : Type :=
| Exited (stdout stderr : string) (code : Z)
| Panicked.

(** What [flag.CommandLine.Parse] returns: [flag.ErrHelp], another error, or
    [nil] with the flag values set and the positional arguments left. *)
Inductive flagParse : Type :=
| FlagHelp
| FlagError (err : error)
| Flags (F : flags) (positional : list string).

Section Command.

Variable To : unicode.Case -> utf8.rune -> utf8.rune.
(** The embedded [usage.txt], the text of [flag.PrintDefaults], and
    [os.Args[0]]. *)
Variable usage : string.
Variable flagDefaults : string.
Variable program : string.

Definition printHelp : string := usage ++ nl ++ flagDefaults ++ nl.

Definition fatalUsageError (err : error) : outcome :=
  Exited printHelp (program ++ ": " ++ error_text err ++ nl)
    exitCodeBadArgument.

Definition exitWithError (err : error) : outcome :=
  if errors_Is err errBadArgument then fatalUsageError err
  else Exited "" (program ++ ": " ++ error_text err ++ nl)
         exitCodeInternalError.

Definition main (parsed : flagParse) : outcome :=
  match parsed with
  | FlagHelp => Exited printHelp "" 0%Z
  | FlagError err => fatalUsageError err
  | Flags F positional =>
    match parseScaffoldCommandArgs To F positional with
    | Err err => exitWithError err
    | Panic => Panicked
    | Ok sca =>
      match scaffoldCommand sca with
      | Err err => exitWithError err
      | Panic => Panicked
      | Ok text => Exited text "" 0%Z
      end
    end
  end.

End Command.

(* ------------------------------------------------------------------ *)
(** ** The previous revision

    The source holds the revision before the current one as well.  Its
    column parser words two errors differently and accepts a plain column
    with an empty name; its argument parser turns the halves of the entity
    name into labels with [capitalize] alone; its [main] has one exit
    status for every error.  The loop body over the columns, the formatter
    and [capitalize] are the same text in both revisions and are shared. *)

Module Previous.

Fixpoint scanTags (s : string) (tags : list string) (v : tagVars)
  : result tagVars :=
  match tags with
  | [] => Ok v
  | tag :: rest =>
    let set_type t :=
      {| colType := t; id := id v; null := null v; unique := unique v |} in
    if tag =? "id" then
      scanTags s rest
        {| colType := colType v; id := true; null := null v; unique := unique v |}
    else if tag =? "null" then
      scanTags s rest
        {| colType := colType v; id := id v; null := true; unique := unique v |}
    else if tag =? "unique" then
      scanTags s rest
        {| colType := colType v; id := id v; null := null v; unique := true |}
    else if tag =? "float" then scanTags s rest (set_type "FLOAT")
    else if tag =? "double" then scanTags s rest (set_type "DOUBLE")
    else if tag =? "datetime" then scanTags s rest (set_type "DATETIME")
    else if tag =? "text" then scanTags s rest (set_type "TEXT")
    else if tag =? "int" then scanTags s rest (set_type "INTEGER")
    else if tag =? "blob" then scanTags s rest (set_type "BLOB")
    else Err (Errorf_w errInvalidSmartColumn
                (": '" ++ s ++ "': unknown <tag> #" ++ tag))
  end.

Definition parseSmartColumnDefinition (s : string) : result column :=
  if s =? "@id" then
    Ok {| ID := true; Name := "id"; Type_ := "INTEGER";
          Constraint := "PRIMARY KEY" |}
  else
    let '(name, rest, _) := strings.Cut s smartColumnSep in
    if name =? "" then
      Err (Errorf_w errInvalidSmartColumn (": '" ++ s ++ "', missing <name>"))
    else
      let tags := strings.Split rest smartColumnSep in
      v <- scanTags s tags
             {| colType := ""; id := false; null := false; unique := false |};;
      if id v then
        if unique v || null v then
          Err (Errorf_w errInvalidSmartColumn
                 (": '" ++ s ++ "', cannot combine @id with @unique or @null"))
        else
          let colType := if colType v =? "" then "INTEGER" else colType v in
          let constraint := "PRIMARY KEY" in
          let constraint :=
            if negb (colType =? "INTEGER") then "NOT NULL " ++ constraint
            else constraint in
          Ok {| Name := name; Type_ := colType; Constraint := constraint;
                ID := true |}
      else if colType v =? "" then
        Err (Errorf_w errInvalidSmartColumn
               (": '" ++ s ++ "' missing column type"))
      else
        let constraint := "" in
        let constraint :=
          if negb (null v) then constraint ++ " NOT NULL" else constraint in
        let constraint :=
          if unique v then constraint ++ " UNIQUE" else constraint in
        Ok {| Name := name; Type_ := colType v;
              Constraint := strings.TrimSpace constraint; ID := false |}.

Section Program.

Variable To : unicode.Case -> utf8.rune -> utf8.rune.
Variable F : flags.

Definition parsePlainColumnDefinition (s : string) : result column :=
  let parts := strings.Split s ":" in
  if (List.length parts <? 2)%nat || (3 <? List.length parts)%nat then
    Err (Errorf_w errBadArgument
           (": invalid <plain-column>: '" ++ s
            ++ "', expected '<name>:<type>' or '<name>:<type>:<constraint>'"))
  else
    let col := {| ID := strings.ToLower To (at_ parts 0) =? idColumnFlag F;
                  Name := at_ parts 0;
                  Type_ := at_ parts 1;
                  Constraint := "" |} in
    if (List.length parts =? 3)%nat then
      Ok {| ID := ID col; Name := Name col; Type_ := Type_ col;
            Constraint := at_ parts 2 |}
    else Ok col.

Definition parseColumnDefinition (s : string) : result column :=
  let plainColumn := strings.Contains s plainColumnSep in
  let smartColumn := strings.Contains s smartColumnSep in
  if plainColumn && smartColumn then
    Err (Errorf_w errBadArgument
           (": invalid <column>: '" ++ s
            ++ "' contains both plain and smart separators"))
  else if plainColumn then parsePlainColumnDefinition s
  else if smartColumn then parseSmartColumnDefinition s
  else
    Err (Errorf_w errBadArgument
           (": invalid <column>: '" ++ s
            ++ "', expected <smart-column> or <plain-column>")).

Fixpoint parseColumns (rest : list string) (sca : scaffoldCommandArgs)
  : result scaffoldCommandArgs :=
  match rest with
  | [] => Ok sca
  | arg :: rest' =>
    col <- parseColumnDefinition arg;;
    parseColumns rest' (addColumn sca col)
  end.

Definition parseScaffoldCommandArgs (args : list string)
  : result scaffoldCommandArgs :=
  match args with
  | [] => Err (Errorf_w errBadArgument ": missing <name> and <column>")
  | arg0 :: columns =>
    let tableParts := strings.Split arg0 "/" in
    if negb (List.length tableParts =? 2)%nat
       || (len (at_ tableParts 0) =? 0)%Z || (len (at_ tableParts 1) =? 0)%Z
    then
      Err (Errorf_w errBadArgument
             (": invalid <name>: '" ++ fmt_slice tableParts
              ++ "', expected '<singular>/<plural>'"))
    else
      singular <- capitalize To (at_ tableParts 0);;
      plural <- capitalize To (at_ tableParts 1);;
      let sca := {| Table := at_ tableParts 1;
                    SingularEntity := singular;
                    PluralEntity := plural;
                    IDColumn := None;
                    Columns := [];
                    NonIDColumns := [];
                    LongestName := 0%Z;
                    LongestType := 0%Z;
                    NoExistsClause := noExistsClauseFlag F;
                    OrderBy := orderByFlag F;
                    NoReturningClause := noReturningClauseFlag F;
                    Output := 0%Z |} in
      let with_output (o : outputMode) :=
        {| Table := Table sca;
           SingularEntity := SingularEntity sca;
           PluralEntity := PluralEntity sca;
           IDColumn := IDColumn sca;
           Columns := Columns sca;
           NonIDColumns := NonIDColumns sca;
           LongestName := LongestName sca;
           LongestType := LongestType sca;
           NoExistsClause := NoExistsClause sca;
           OrderBy := OrderBy sca;
           NoReturningClause := NoReturningClause sca;
           Output := Z.lor (Output sca) o |} in
      if onlyFlag F =? "schema" then parseColumns columns (with_output outputSchema)
      else if onlyFlag F =? "queries" then
        parseColumns columns (with_output outputQueries)
      else if onlyFlag F =? "" then parseColumns columns (with_output outputAll)
      else
        Err (Errorf_w errBadArgument
               (": '-only " ++ onlyFlag F
                ++ "', expected 'schema' or 'queries'"))
  end.

(** [run]: the text printed, or the error of the parser. *)
Definition run (positional : list string) : result string :=
  sca <- parseScaffoldCommandArgs positional;;
  scaffoldCommand sca.

Variable usage : string.
Variable flagDefaults : string.
Variable program : string.

Definition printUsage : string := usage ++ nl ++ flagDefaults.

(** [main] after [flag.Parse]: an error is written to standard error, the
    usage follows on standard output when the error is a bad argument, and
    the status is 1. *)
Definition main (positional : list string) : outcome :=
  match run positional with
  | Ok text => Exited text "" 0%Z
  | Err err =>
    Exited (if errors_Is err errBadArgument then printUsage else "")
      (program ++ ": " ++ error_text err ++ nl) 1%Z
  | Panic => Panicked
  end.

End Program.

End Previous.

(* ------------------------------------------------------------------ *)
(** ** Vocabulary of the statements *)

(** A case table that leaves every rune above U+007F as it is.  It closes the
    examples below, whose strings are ASCII: Go consults its table for no
    rune of theirs. *)
Definition asciiOnly : unicode.Case -> utf8.rune -> utf8.rune := fun _ r => r.

(** The tags of a smart column and the SQL keyword of a type tag. *)
Definition typeKeyword (tag : string) : option string :=
  if tag =? "float" then Some "FLOAT"
  else if tag =? "double" then Some "DOUBLE"
  else if tag =? "datetime" then Some "DATETIME"
  else if tag =? "text" then Some "TEXT"
  else if tag =? "int" then Some "INTEGER"
  else if tag =? "blob" then Some "BLOB"
  else None.

Definition knownTag (tag : string) : bool :=
  (tag =? "id") || (tag =? "null") || (tag =? "unique")
  || negb (is_nil (typeKeyword tag)).

Definition mem (x : string) (l : list string) : bool :=
  existsb (String.eqb x) l.

(** The keyword of the last type tag of [tags], [current] when there is
    none. *)
Definition typeAfter (current : string) (tags : list string) : string :=
  fold_left (fun acc tag => match typeKeyword tag with
                            | Some k => k
                            | None => acc
                            end) tags current.

Definition chosenType (tags : list string) : string := typeAfter "" tags.

(** A smart column as it is written: [name@tag@tag...]. *)
Definition smartColumn (name : string) (tags : list string) : string :=
  name ++ "@" ++ String.concat "@" tags.

(** A name with neither separator in it. *)
Definition plainName (name : string) : bool :=
  negb (name =? "") && negb (strings.Contains name ":")
  && negb (strings.Contains name "@").

(** The constraint of a smart column that is no identifier, as the
    specification words it: [NOT NULL] unless nullable, then [UNIQUE] if
    unique, joined by a space. *)
Definition builtConstraint (nullable uniq : bool) : string :=
  String.concat " "
    ((if nullable then [] else ["NOT NULL"])
     ++ (if uniq then ["UNIQUE"] else []))%list.

Definition is_bad_argument {A : Type} (r : result A) : bool :=
  match r with
  | Err e => errors_Is e errBadArgument
  | _ => false
  end.

(** The last element of a list, if any. *)
Definition lastOf {A : Type} (l : list A) : option A :=
  List.last (map Some l) None.

Definition notID (c : column) : bool := negb (ID c).

(** A raw definition that parses to an identifier column. *)
Definition parsesToIdentifier (To : unicode.Case -> utf8.rune -> utf8.rune)
  (F : flags) (raw : string) : bool :=
  match parseColumnDefinition To F raw with
  | Ok c => ID c
  | _ => false
  end.

Definition tagNames : list string :=
  ["id"; "null"; "unique"; "float"; "double"; "datetime"; "text"; "int";
   "blob"].

(** [strings.HasPrefix] and [strings.HasSuffix], to speak of how a text
    starts and ends. *)
Fixpoint HasPrefix (s prefix : string) {struct prefix} : bool :=
  match prefix with
  | EmptyString => true
  | String p prefix' =>
    match s with
    | EmptyString => false
    | String c s' => Ascii.eqb c p && HasPrefix s' prefix'
    end
  end.

Fixpoint srev (s : string) : string :=
  match s with
  | EmptyString => ""
  | String c s' => srev s' ++ String c ""
  end.

Definition HasSuffix (s suffix : string) : bool :=
  HasPrefix (srev s) (srev suffix).

(** The lines of a text, and those that are the label of a query template,
    which sqlc reads from the comment [-- name: <label> <mode>]. *)
Definition lines (text : string) : list string := strings.Split text LF.

Definition isLabel (line : string) : bool := HasPrefix line "-- name: ".

Definition labels (text : string) : list string :=
  filter isLabel (lines text).

(** A string with no line feed in it. *)
Definition oneLine (s : string) : bool := negb (strings.Contains s LF).

Definition oneLineColumn (c : column) : bool :=
  oneLine (Name c) && oneLine (Type_ c) && oneLine (Constraint c).

(** No string of the arguments holds a line feed. *)
Definition singleLineFields (args : scaffoldCommandArgs) : bool :=
  oneLine (Table args) && oneLine (SingularEntity args)
  && oneLine (PluralEntity args) && oneLine (OrderBy args)
  && forallb oneLineColumn (Columns args)
  && forallb oneLineColumn (NonIDColumns args)
  && match IDColumn args with
     | Some c => oneLineColumn c
     | None => true
     end.

(** Lines, each ended by a line feed. *)
Fixpoint tlines (ls : list string) : string :=
  match ls with
  | [] => ""
  | l :: rest => l ++ nl ++ tlines rest
  end.

(** [Block text labs]: [text] is made of whole lines, of which [labs] are
    the labels, in order. *)
Definition Block (text : string) (labs : list string) : Prop :=
  exists ls : list string,
    text = tlines ls /\ forallb oneLine ls = true /\ filter isLabel ls = labs.

(** The placeholders of an INSERT with [k + 1] columns. *)
Fixpoint marks (k : nat) : string :=
  match k with
  | O => "?"
  | S k' => "?, " ++ marks k'
  end.

(** What [scaffoldCommand] writes before the query templates: the schema,
    and the two banners when both parts are asked for. *)
Definition preamble (args : scaffoldCommandArgs) : string :=
  (if has_all (Output args) then schemaBanner else "")
  ++ (if has (Output args) outputSchema then writeSchema args ++ nl ++ nl
      else "")
  ++ (if has_all (Output args) then queriesBanner else "").

(** The flags of a call with [-id-column name] and nothing else. *)
Definition withIdColumn (name : string) : flags := {|
  noExistsClauseFlag := false;
  idColumnFlag := name;
  orderByFlag := "";
  noReturningClauseFlag := false;
  onlyFlag := ""
|}.

(** The example of the usage text,
    [sqlcup author/authors "id:INTEGER:PRIMARY KEY" "name:text:NOT NULL" bio:text],
    and what the argument parser makes of it. *)
Definition authorCall : list string :=
  ["author/authors"; "id:INTEGER:PRIMARY KEY"; "name:text:NOT NULL";
   "bio:text"].

Definition authorArgs : scaffoldCommandArgs :=
  let idc := {| Name := "id"; Type_ := "INTEGER";
                Constraint := "PRIMARY KEY"; ID := true |} in
  let name := {| Name := "name"; Type_ := "text"; Constraint := "NOT NULL";
                 ID := false |} in
  let bio := {| Name := "bio"; Type_ := "text"; Constraint := "";
                ID := false |} in
  {| Table := "authors";
     SingularEntity := "Author";
     PluralEntity := "Authors";
     IDColumn := Some idc;
     Columns := [idc; name; bio];
     NonIDColumns := [name; bio];
     LongestName := 4;
     LongestType := 7;
     NoExistsClause := false;
     OrderBy := "";
     NoReturningClause := false;
     Output := outputAll |}.

(** A call with two columns that qualify as identifier. *)
Definition twoKeysCall : list string := ["a/b"; "@id"; "k@text@id"; "n@text"].

(** An error as every failure of the parser is: it wraps [errBadArgument]
    and its text starts with the text of that error. *)
Definition badArgument (e : error) : bool :=
  errors_Is e errBadArgument && HasPrefix (error_text e) "bad argument: ".

(** A result that is a value or a bad-argument error, never a panic. *)
Definition okOrBadArgument {A : Type} (r : result A) : Prop :=
  match r with
  | Ok _ => True
  | Err e => badArgument e = true
  | Panic => False
  end.

(** The longest [field] of a list of columns, in bytes; [0] for no column. *)
Definition longest (field : column -> string) (cols : list column) : Z :=
  fold_left (fun m c => Z.max m (len (field c))) cols 0%Z.

(** The output mode a value of [-only] stands for. *)
Definition outputOf (only : string) : outputMode :=
  if only =? "schema" then outputSchema
  else if only =? "queries" then outputQueries
  else outputAll.

Definition validOnly (only : string) : bool :=
  (only =? "schema") || (only =? "queries") || (only =? "").

(** The value the loop over the columns starts from. *)
Definition startArgs (F : flags) (table singular plural : string)
  : scaffoldCommandArgs :=
  {| Table := table;
     SingularEntity := singular;
     PluralEntity := plural;
     IDColumn := None;
     Columns := [];
     NonIDColumns := [];
     LongestName := 0;
     LongestType := 0;
     NoExistsClause := noExistsClauseFlag F;
     OrderBy := orderByFlag F;
     NoReturningClause := noReturningClauseFlag F;
     Output := outputOf (onlyFlag F) |}.

(** The line of a column in [CREATE TABLE], without the comma and the line
    feed that end it. *)
Definition schemaColumnText (args : scaffoldCommandArgs) (col : column)
  : string :=
  "  " ++ Name col ++ " "
  ++ pad (LongestName args - len (Name col))
  ++ Type_ col
  ++ (if negb (Constraint col =? "")
      then pad (LongestType args - len (Type_ col)) ++ " " ++ Constraint col
      else "").

(** The SQL keywords a type tag stands for, and the constraints a smart
    column that is no identifier can have. *)
Definition typeKeywords : list string :=
  ["FLOAT"; "DOUBLE"; "DATETIME"; "TEXT"; "INTEGER"; "BLOB"].

Definition plainConstraints : list string :=
  ["NOT NULL"; "NOT NULL UNIQUE"; "UNIQUE"; ""].

(** The first tag of a list that is not in the tag table. *)
Definition firstUnknownTag (tags : list string) : option string :=
  find (fun tag => negb (knownTag tag)) tags.

(** ASCII text and the two case maps on its bytes. *)
Fixpoint isASCII (s : string) : bool :=
  match s with
  | EmptyString => true
  | String b s' => (utf8.byteZ b <? 128)%Z && isASCII s'
  end.

Definition lowerByte (b : ascii) : ascii :=
  if utf8.between 65 (utf8.byteZ b) 90
  then utf8.zbyte (utf8.byteZ b + 32) else b.

Definition upperByte (b : ascii) : ascii :=
  if utf8.between 97 (utf8.byteZ b) 122
  then utf8.zbyte (utf8.byteZ b - 32) else b.

Fixpoint mapBytes (f : ascii -> ascii) (s : string) : string :=
  match s with
  | EmptyString => ""
  | String b s' => String (f b) (mapBytes f s')
  end.

(** A string with its first byte in upper case. *)
Definition capitalizeFirst (s : string) : string :=
  match s with
  | EmptyString => ""
  | String b s' => String (upperByte b) s'
  end.

(** The example call with [-only schema]. *)
Definition authorSchemaArgs : scaffoldCommandArgs :=
  {| Table := Table authorArgs;
     SingularEntity := SingularEntity authorArgs;
     PluralEntity := PluralEntity authorArgs;
     IDColumn := IDColumn authorArgs;
     Columns := Columns authorArgs;
     NonIDColumns := NonIDColumns authorArgs;
     LongestName := LongestName authorArgs;
     LongestType := LongestType authorArgs;
     NoExistsClause := false;
     OrderBy := "";
     NoReturningClause := false;
     Output := outputSchema |}.

(** The flags of a call with another value of [-only]. *)
Definition setOnly (F : flags) (only : string) : flags :=
  {| noExistsClauseFlag := noExistsClauseFlag F;
     idColumnFlag := idColumnFlag F;
     orderByFlag := orderByFlag F;
     noReturningClauseFlag := noReturningClauseFlag F;
     onlyFlag := only |}.

(** Parsed arguments with another output mode. *)
Definition withOutput (sca : scaffoldCommandArgs) (o : outputMode)
  : scaffoldCommandArgs :=
  {| Table := Table sca;
     SingularEntity := SingularEntity sca;
     PluralEntity := PluralEntity sca;
     IDColumn := IDColumn sca;
     Columns := Columns sca;
     NonIDColumns := NonIDColumns sca;
     LongestName := LongestName sca;
     LongestType := LongestType sca;
     NoExistsClause := NoExistsClause sca;
     OrderBy := OrderBy sca;
     NoReturningClause := NoReturningClause sca;
     Output := o |}.

(** What the argument parser makes of [twoKeysCall], and a call with three
    columns that qualify as identifier. *)
Definition twoKeysArgs : scaffoldCommandArgs :=
  let idc := {| Name := "id"; Type_ := "INTEGER";
                Constraint := "PRIMARY KEY"; ID := true |} in
  let k := {| Name := "k"; Type_ := "TEXT";
              Constraint := "NOT NULL PRIMARY KEY"; ID := true |} in
  let n := {| Name := "n"; Type_ := "TEXT"; Constraint := "NOT NULL";
              ID := false |} in
  {| Table := "b";
     SingularEntity := "A";
     PluralEntity := "B";
     IDColumn := Some k;
     Columns := [idc; k; n];
     NonIDColumns := [n];
     LongestName := 2;
     LongestType := 7;
     NoExistsClause := false;
     OrderBy := "";
     NoReturningClause := false;
     Output := outputAll |}.

Definition threeKeysCall : list string :=
  ["a/b"; "@id"; "k@text@id"; "j@int@id"].

(** [sqlcup t/ts "id:INTEGER:PRIMARY KEY" "a::NOT NULL" b:text]: the column
    [a] has a constraint and no type. *)
Definition untypedCall : list string :=
  ["t/ts"; "id:INTEGER:PRIMARY KEY"; "a::NOT NULL"; "b:text"].

Definition untypedArgs : scaffoldCommandArgs :=
  let idc := {| Name := "id"; Type_ := "INTEGER";
                Constraint := "PRIMARY KEY"; ID := true |} in
  let a := {| Name := "a"; Type_ := ""; Constraint := "NOT NULL";
              ID := false |} in
  let b := {| Name := "b"; Type_ := "text"; Constraint := "";
              ID := false |} in
  {| Table := "ts";
     SingularEntity := "T";
     PluralEntity := "Ts";
     IDColumn := Some idc;
     Columns := [idc; a; b];
     NonIDColumns := [a; b];
     LongestName := 2;
     LongestType := 7;
     NoExistsClause := false;
     OrderBy := "";
     NoReturningClause := false;
     Output := outputAll |}.

(* ------------------------------------------------------------------ *)
(** ** Facts about the string functions *)

Lemma Ok_inj {A : Type} (a b : A) : Ok a = Ok b -> a = b.
Proof. congruence. Qed.

Lemma append_assoc (a b c : string) : (a ++ b) ++ c = a ++ b ++ c.
Proof.
  induction a as [|x a IH]; simpl; [reflexivity | now rewrite IH].
Qed.

Lemma append_empty_r (a : string) : a ++ "" = a.
Proof.
  induction a as [|x a IH]; simpl; [reflexivity | now rewrite IH].
Qed.

Lemma Contains_app (a b : string) (c : ascii) :
  strings.Contains (a ++ b) c = strings.Contains a c || strings.Contains b c.
Proof.
  induction a as [|x a IH]; simpl; [reflexivity|].
  rewrite IH. now rewrite orb_assoc.
Qed.

Lemma Split_not_nil (s : string) (c : ascii) : strings.Split s c <> [].
Proof.
  destruct s as [|x s]; simpl; [discriminate|].
  destruct (Ascii.eqb x c); [discriminate|].
  destruct (strings.Split s c); discriminate.
Qed.

Lemma Split_without (s : string) (c : ascii) :
  strings.Contains s c = false -> strings.Split s c = [s].
Proof.
  induction s as [|x s IH]; simpl; [reflexivity|].
  intros H. apply orb_false_iff in H as [Hx Hs].
  rewrite Hx, (IH Hs). reflexivity.
Qed.

Lemma Split_app_sep (a b : string) (c : ascii) :
  strings.Split (a ++ String c b) c
  = (strings.Split a c ++ strings.Split b c)%list.
Proof.
  induction a as [|x a IH]; simpl.
  - now rewrite Ascii.eqb_refl.
  - destruct (Ascii.eqb x c); rewrite IH; [reflexivity|].
    destruct (strings.Split a c) as [|p ps] eqn:E; [|reflexivity].
    now apply Split_not_nil in E.
Qed.

Lemma Split_join (c : ascii) (pieces : list string) :
  pieces <> [] ->
  Forall (fun p => strings.Contains p c = false) pieces ->
  strings.Split (String.concat (String c "") pieces) c = pieces.
Proof.
  induction pieces as [|p rest IH]; intros Hne Hall; [congruence|].
  inversion Hall as [|? ? Hp Hrest]; subst.
  destruct rest as [|q rest].
  - simpl. now apply Split_without.
  - change (String.concat (String c "") (p :: q :: rest))
      with (p ++ String c (String.concat (String c "") (q :: rest))).
    rewrite Split_app_sep, (Split_without _ _ Hp), IH; [reflexivity| |assumption].
    discriminate.
Qed.

Lemma Cut_first (name rest : string) (c : ascii) :
  strings.Contains name c = false ->
  strings.Cut (name ++ String c rest) c = (name, rest, true).
Proof.
  induction name as [|x name IH]; simpl.
  - intros _. now rewrite Ascii.eqb_refl.
  - intros H. apply orb_false_iff in H as [Hx Hn].
    rewrite Hx, (IH Hn). reflexivity.
Qed.

Lemma Contains_join (c : ascii) (sep : string) (pieces : list string) :
  strings.Contains sep c = false ->
  Forall (fun p => strings.Contains p c = false) pieces ->
  strings.Contains (String.concat sep pieces) c = false.
Proof.
  intros Hsep. induction 1 as [|p rest Hp Hrest IH]; [reflexivity|].
  destruct rest as [|q rest]; [exact Hp|].
  change (String.concat sep (p :: q :: rest))
    with (p ++ sep ++ String.concat sep (q :: rest)).
  now rewrite !Contains_app, Hp, Hsep, IH.
Qed.

(* ------------------------------------------------------------------ *)
(** ** Smart columns: the tag loop *)

Lemma knownTag_inv (tag : string) : knownTag tag = true -> In tag tagNames.
Proof.
  unfold knownTag, typeKeyword, tagNames.
  repeat match goal with
         | |- context [String.eqb tag ?l] =>
           destruct (String.eqb_spec tag l) as [->|_]; [simpl; tauto|]
         end.
  discriminate.
Qed.

Lemma knownTag_no_sep (c : ascii) (tags : list string) :
  strings.Contains (String.concat "" tagNames) c = false ->
  Forall (fun t => knownTag t = true) tags ->
  Forall (fun t => strings.Contains t c = false) tags.
Proof.
  intros Hc Hall. eapply Forall_impl; [|exact Hall].
  intros t Ht. apply knownTag_inv in Ht.
  assert (Hn : Forall (fun t => strings.Contains t c = false) tagNames).
  { unfold tagNames in *. simpl in Hc.
    repeat (apply orb_false_iff in Hc as [? Hc]).
    repeat constructor; simpl;
      repeat (apply orb_false_iff; split); try assumption; reflexivity. }
  rewrite Forall_forall in Hn. now apply Hn.
Qed.

(** The loop reads every tag of a list of known tags and ends with the last
    type named and the three marks set by the tags seen. *)
Lemma scanTags_known (s : string) (tags : list string) (v : tagVars) :
  Forall (fun t => knownTag t = true) tags ->
  scanTags s tags v
  = Ok {| colType := typeAfter (colType v) tags;
          id := id v || mem "id" tags;
          null := null v || mem "null" tags;
          unique := unique v || mem "unique" tags |}.
Proof.
  intros Hall. revert v.
  induction Hall as [|tag rest Htag _ IH]; intros v.
  - destruct v; simpl. now rewrite !orb_false_r.
  - apply knownTag_inv in Htag. unfold tagNames in Htag. simpl in Htag.
    repeat (destruct Htag as [<-|Htag]);
      try contradiction;
      cbn [scanTags String.eqb Ascii.eqb Bool.eqb];
      rewrite IH; cbn -[typeKeyword]; f_equal; f_equal;
      try reflexivity;
      rewrite ?orb_true_r, ?orb_false_r; reflexivity.
Qed.

Lemma plainName_inv (name : string) :
  plainName name = true ->
  name <> "" /\ strings.Contains name ":" = false
  /\ strings.Contains name "@" = false.
Proof.
  unfold plainName. intros H.
  apply andb_true_iff in H as [H Hat]. apply andb_true_iff in H as [Hne Hcolon].
  apply negb_true_iff in Hat, Hcolon, Hne.
  apply String.eqb_neq in Hne. auto.
Qed.

Lemma smartColumn_not_bare_id (name : string) (tags : list string) :
  plainName name = true -> (smartColumn name tags =? "@id") = false.
Proof.
  intros H. apply plainName_inv in H as (Hne & _ & Hat).
  destruct name as [|x name]; [congruence|].
  simpl in Hat. apply orb_false_iff in Hat as [Hx _].
  unfold smartColumn. simpl. now rewrite Hx.
Qed.

(** What [parseSmartColumnDefinition] returns for a name followed by known
    tags, by the marks the tags set. *)
Lemma parseSmart_known (name : string) (tags : list string) :
  plainName name = true ->
  tags <> [] ->
  Forall (fun t => knownTag t = true) tags ->
  parseSmartColumnDefinition (smartColumn name tags)
  = if mem "id" tags then
      if mem "unique" tags || mem "null" tags then
        Err (Errorf_w errInvalidSmartColumn
               (": '" ++ smartColumn name tags
                ++ "', cannot combine @id with @unique or @null"))
      else
        let ty := if chosenType tags =? "" then "INTEGER" else chosenType tags in
        Ok {| Name := name; Type_ := ty;
              Constraint := if negb (ty =? "INTEGER")
                            then "NOT NULL PRIMARY KEY" else "PRIMARY KEY";
              ID := true |}
    else if chosenType tags =? "" then
      Err (Errorf_w errInvalidSmartColumn
             (": '" ++ smartColumn name tags ++ "', missing column type"))
    else
      Ok {| Name := name; Type_ := chosenType tags;
            Constraint :=
              strings.TrimSpace
                ((if negb (mem "null" tags) then " NOT NULL" else "")
                 ++ (if mem "unique" tags then " UNIQUE" else ""));
            ID := false |}.
Proof.
  intros Hname Hne Hknown.
  unfold parseSmartColumnDefinition.
  rewrite (smartColumn_not_bare_id _ _ Hname).
  pose proof (plainName_inv _ Hname) as (Hnn & _ & Hat).
  unfold smartColumn at 1.
  change (name ++ "@" ++ String.concat "@" tags)
    with (name ++ String smartColumnSep (String.concat "@" tags)).
  rewrite (Cut_first _ _ _ Hat).
  apply String.eqb_neq in Hnn. rewrite Hnn.
  change "@" with (String smartColumnSep "") at 1.
  rewrite Split_join;
    [|assumption|now apply knownTag_no_sep].
  rewrite (scanTags_known _ _ _ Hknown).
  cbn [bind colType id null unique orb].
  fold (chosenType tags).
  destruct (mem "id" tags); [reflexivity|].
  destruct (chosenType tags =? ""); [reflexivity|].
  destruct (mem "null" tags), (mem "unique" tags); reflexivity.
Qed.

Lemma chosenType_empty_iff (tags : list string) :
  chosenType tags = "" <-> Forall (fun t => typeKeyword t = None) tags.
Proof.
  unfold chosenType.
  assert (G : forall cur, typeAfter cur tags = ""
              <-> cur = "" /\ Forall (fun t => typeKeyword t = None) tags).
  { induction tags as [|tag rest IH]; intros cur; simpl.
    - split; [auto | tauto].
    - unfold typeAfter in *. simpl. rewrite IH.
      destruct (typeKeyword tag) as [k|] eqn:E.
      + split.
        * intros [-> _]. unfold typeKeyword in E.
          repeat match type of E with
                 | (if ?b then _ else _) = _ => destruct b
                 end; discriminate.
        * intros [_ H]. inversion H; congruence.
      + split.
        * intros [-> H]. auto.
        * intros [-> H]. inversion H; auto. }
  rewrite G. tauto.
Qed.

(* ------------------------------------------------------------------ *)
(** ** The column parser: what it returns *)

Section ColumnParser.

Variable To : unicode.Case -> utf8.rune -> utf8.rune.
Variable F : flags.

Lemma bad_argument_wrapped (rest : string) :
  errors_Is (Errorf_w errBadArgument rest) errBadArgument = true.
Proof. reflexivity. Qed.

Lemma invalid_smart_wrapped (rest : string) :
  errors_Is (Errorf_w errInvalidSmartColumn rest) errBadArgument = true.
Proof. reflexivity. Qed.

Lemma parseColumnDefinition_smart (s : string) :
  strings.Contains s ":" = false ->
  strings.Contains s "@" = true ->
  parseColumnDefinition To F s = parseSmartColumnDefinition s.
Proof.
  intros Hc Ha. unfold parseColumnDefinition, plainColumnSep, smartColumnSep.
  now rewrite Hc, Ha.
Qed.

Lemma parseColumnDefinition_plain (s : string) :
  strings.Contains s ":" = true ->
  strings.Contains s "@" = false ->
  parseColumnDefinition To F s = parsePlainColumnDefinition To F s.
Proof.
  intros Hc Ha. unfold parseColumnDefinition, plainColumnSep, smartColumnSep.
  now rewrite Hc, Ha.
Qed.

Lemma smartColumn_separators (name : string) (tags : list string) :
  plainName name = true ->
  Forall (fun t => knownTag t = true) tags ->
  strings.Contains (smartColumn name tags) ":" = false
  /\ strings.Contains (smartColumn name tags) "@" = true.
Proof.
  intros Hname Hknown.
  apply plainName_inv in Hname as (_ & Hc & Ha).
  unfold smartColumn. rewrite !Contains_app, Hc, Ha. split; [|reflexivity].
  apply Contains_join; [reflexivity|].
  now apply knownTag_no_sep.
Qed.

(** A name followed by no tag at all, [name@], has the one tag [""], which
    is unknown. *)
Lemma parseSmart_no_tag (name : string) :
  plainName name = true ->
  is_bad_argument (parseSmartColumnDefinition (smartColumn name [])) = true.
Proof.
  intros Hname. unfold parseSmartColumnDefinition.
  rewrite (smartColumn_not_bare_id _ _ Hname).
  pose proof (plainName_inv _ Hname) as (Hnn & _ & Hat).
  unfold smartColumn at 1.
  change (name ++ "@" ++ String.concat "@" [])
    with (name ++ String smartColumnSep "").
  rewrite (Cut_first _ _ _ Hat).
  apply String.eqb_neq in Hnn. rewrite Hnn. reflexivity.
Qed.

(** C3.  A smart column with the [id] tag and neither [unique] nor [null]:
    the token [@id] alone is the column [id INTEGER PRIMARY KEY]; a named one
    keeps its name, takes the type of its last type tag, [INTEGER] when it
    has none, and the constraint [PRIMARY KEY], with [NOT NULL] before it
    exactly when the type is not [INTEGER]; it is the identifier column. *)
Theorem smart_identifier_column (name : string) (tags : list string) :
  plainName name = true ->
  Forall (fun t => knownTag t = true) tags ->
  mem "id" tags = true ->
  mem "unique" tags = false ->
  mem "null" tags = false ->
  parseColumnDefinition To F "@id"
  = Ok {| Name := "id"; Type_ := "INTEGER"; Constraint := "PRIMARY KEY";
          ID := true |}
  /\ (let ty := if chosenType tags =? "" then "INTEGER" else chosenType tags in
      parseColumnDefinition To F (smartColumn name tags)
      = Ok {| Name := name; Type_ := ty;
              Constraint := if ty =? "INTEGER" then "PRIMARY KEY"
                            else "NOT NULL PRIMARY KEY";
              ID := true |})
  /\ (chosenType tags = "" <-> Forall (fun t => typeKeyword t = None) tags).
Proof.
  intros Hname Hknown Hid Hu Hn.
  split; [reflexivity|]. split; [|apply chosenType_empty_iff].
  destruct (smartColumn_separators _ _ Hname Hknown) as [Hc Ha].
  rewrite (parseColumnDefinition_smart _ Hc Ha).
  rewrite parseSmart_known; try assumption.
  - rewrite Hid, Hu, Hn. cbn [orb].
    destruct ((if chosenType tags =? "" then "INTEGER" else chosenType tags)
              =? "INTEGER"); reflexivity.
  - intros ->. discriminate.
Qed.

(** C4.  A smart column without the [id] tag: with no type tag it is a
    bad-argument error; with one, the column keeps its name, takes the type
    of its last type tag and the constraint [NOT NULL] unless [null] is
    among the tags, then [UNIQUE] when [unique] is, joined by a space. *)
Theorem smart_plain_column (name : string) (tags : list string) :
  plainName name = true ->
  Forall (fun t => knownTag t = true) tags ->
  mem "id" tags = false ->
  (Forall (fun t => typeKeyword t = None) tags ->
   exists e, parseColumnDefinition To F (smartColumn name tags) = Err e
             /\ errors_Is e errBadArgument = true)
  /\ (~ Forall (fun t => typeKeyword t = None) tags ->
      parseColumnDefinition To F (smartColumn name tags)
      = Ok {| Name := name; Type_ := chosenType tags;
              Constraint :=
                builtConstraint (mem "null" tags) (mem "unique" tags);
              ID := false |})
  /\ parseColumnDefinition To F "col@text"
     = Ok {| Name := "col"; Type_ := "TEXT"; Constraint := "NOT NULL";
             ID := false |}
  /\ parseColumnDefinition To F "col@text@unique"
     = Ok {| Name := "col"; Type_ := "TEXT"; Constraint := "NOT NULL UNIQUE";
             ID := false |}
  /\ parseColumnDefinition To F "col@text@null"
     = Ok {| Name := "col"; Type_ := "TEXT"; Constraint := ""; ID := false |}.
Proof.
  intros Hname Hknown Hid.
  destruct (smartColumn_separators _ _ Hname Hknown) as [Hc Ha].
  rewrite (parseColumnDefinition_smart _ Hc Ha).
  repeat split; try reflexivity.
  - intros Hnone. destruct tags as [|tag rest].
    + pose proof (parseSmart_no_tag _ Hname) as Hbad.
      destruct (parseSmartColumnDefinition (smartColumn name [])) as [c|e|];
        try discriminate.
      now exists e.
    + rewrite parseSmart_known; try assumption; [|discriminate].
      apply chosenType_empty_iff in Hnone. rewrite Hid, Hnone.
      eexists. split; [reflexivity|apply invalid_smart_wrapped].
  - intros Hsome. destruct tags as [|tag rest]; [now destruct Hsome|].
    rewrite parseSmart_known; try assumption; [|discriminate].
    rewrite Hid.
    destruct (String.eqb_spec (chosenType (tag :: rest)) "") as [E|_].
    + now apply chosenType_empty_iff in E.
    + destruct (mem "null" (tag :: rest)), (mem "unique" (tag :: rest));
        reflexivity.
Qed.

(** *** Plain columns *)

Lemma parsePlain_two (name ty : string) :
  plainName name = true ->
  strings.Contains ty ":" = false ->
  parsePlainColumnDefinition To F (name ++ ":" ++ ty)
  = Ok {| Name := name; Type_ := ty; Constraint := "";
          ID := strings.ToLower To name =? idColumnFlag F |}.
Proof.
  intros Hname Hty. apply plainName_inv in Hname as (Hnn & Hc & _).
  unfold parsePlainColumnDefinition.
  change (name ++ ":" ++ ty) with (name ++ String ":" ty).
  rewrite Split_app_sep, (Split_without _ _ Hc), (Split_without _ _ Hty).
  apply String.eqb_neq in Hnn. cbn. now rewrite Hnn.
Qed.

Lemma parsePlain_three (name ty cons : string) :
  plainName name = true ->
  strings.Contains ty ":" = false ->
  strings.Contains cons ":" = false ->
  parsePlainColumnDefinition To F (name ++ ":" ++ ty ++ ":" ++ cons)
  = Ok {| Name := name; Type_ := ty; Constraint := cons;
          ID := strings.ToLower To name =? idColumnFlag F |}.
Proof.
  intros Hname Hty Hcons. apply plainName_inv in Hname as (Hnn & Hc & _).
  unfold parsePlainColumnDefinition.
  change (name ++ ":" ++ ty ++ ":" ++ cons)
    with (name ++ String ":" (ty ++ String ":" cons)).
  rewrite !Split_app_sep, (Split_without _ _ Hc), (Split_without _ _ Hty),
    (Split_without _ _ Hcons).
  apply String.eqb_neq in Hnn. cbn. now rewrite Hnn.
Qed.

(** The fields of a plain column are the parts of the definition as they
    are written; the column is the identifier column when its name in lower
    case is the value of [-id-column]. *)
Lemma plain_column_fields (name ty cons : string) :
  plainName name = true ->
  strings.Contains ty ":" = false -> strings.Contains ty "@" = false ->
  strings.Contains cons ":" = false -> strings.Contains cons "@" = false ->
  parseColumnDefinition To F (name ++ ":" ++ ty)
  = Ok {| Name := name; Type_ := ty; Constraint := "";
          ID := strings.ToLower To name =? idColumnFlag F |}
  /\ parseColumnDefinition To F (name ++ ":" ++ ty ++ ":" ++ cons)
     = Ok {| Name := name; Type_ := ty; Constraint := cons;
             ID := strings.ToLower To name =? idColumnFlag F |}.
Proof.
  intros Hname Htc Hta Hcc Hca.
  pose proof (plainName_inv _ Hname) as (_ & Hc & Ha).
  split.
  - rewrite parseColumnDefinition_plain.
    + now apply parsePlain_two.
    + rewrite !Contains_app. cbn. now rewrite orb_true_r.
    + rewrite !Contains_app, Ha, Hta. reflexivity.
  - rewrite parseColumnDefinition_plain.
    + now apply parsePlain_three.
    + rewrite !Contains_app. cbn. now rewrite orb_true_r.
    + rewrite !Contains_app, Ha, Hta, Hca. reflexivity.
Qed.

(** C5.  A definition with both separators or with neither is a
    bad-argument error, and so is one with colons only whose split on the
    colon has fewer than two or more than three parts or an empty first
    part; an error carries no column. *)
Theorem parseColumn_rejects (s : string) :
  (strings.Contains s ":" = true /\ strings.Contains s "@" = true)
  \/ (strings.Contains s ":" = false /\ strings.Contains s "@" = false)
  \/ (strings.Contains s ":" = true /\ strings.Contains s "@" = false
      /\ (List.length (strings.Split s ":") < 2
          \/ 3 < List.length (strings.Split s ":")
          \/ nth 0 (strings.Split s ":") "" = ""))%nat ->
  exists e, parseColumnDefinition To F s = Err e
            /\ errors_Is e errBadArgument = true.
Proof.
  intros [[Hc Ha]|[[Hc Ha]|(Hc & Ha & Hparts)]].
  - unfold parseColumnDefinition, plainColumnSep, smartColumnSep.
    rewrite Hc, Ha. eexists. split; [reflexivity|apply bad_argument_wrapped].
  - unfold parseColumnDefinition, plainColumnSep, smartColumnSep.
    rewrite Hc, Ha. eexists. split; [reflexivity|apply bad_argument_wrapped].
  - rewrite (parseColumnDefinition_plain _ Hc Ha).
    unfold parsePlainColumnDefinition, at_.
    assert (Hcond : (List.length (strings.Split s ":") <? 2)%nat
                    || (3 <? List.length (strings.Split s ":"))%nat
                    || (nth 0 (strings.Split s ":") "" =? "") = true).
    { destruct Hparts as [H|[H|H]].
      - apply Nat.ltb_lt in H. now rewrite H.
      - apply Nat.ltb_lt in H. rewrite H. now rewrite orb_true_r.
      - apply String.eqb_eq in H. rewrite H. now rewrite orb_true_r. }
    rewrite Hcond. eexists. split; [reflexivity|apply bad_argument_wrapped].
Qed.

End ColumnParser.

(* ------------------------------------------------------------------ *)
(** ** The argument parser: the columns it keeps *)

Lemma lastOf_snoc {A : Type} (l : list A) (x : A) :
  lastOf (l ++ [x])%list = Some x.
Proof.
  unfold lastOf. rewrite map_app. simpl. now rewrite last_last.
Qed.

Lemma lastOf_cons_cons {A : Type} (x y : A) (l : list A) :
  lastOf (x :: y :: l) = lastOf (y :: l).
Proof. reflexivity. Qed.

Lemma lastOf_cons_some {A : Type} (l : list A) :
  forall x : A, exists z : A, lastOf (x :: l) = Some z.
Proof.
  induction l as [|y l IH]; intros x.
  - now exists x.
  - rewrite lastOf_cons_cons. apply IH.
Qed.

Section ArgumentParser.

Variable To : unicode.Case -> utf8.rune -> utf8.rune.
Variable F : flags.

(** The loop over the raw definitions adds to [Columns] the column of each
    definition in turn, to [NonIDColumns] those that are no identifier, and
    leaves in [IDColumn] the last identifier column it saw. *)
Lemma parseColumns_adds (raws : list string) :
  forall sca0 sca : scaffoldCommandArgs,
    parseColumns To F raws sca0 = Ok sca ->
    exists cols : list column,
      Forall2 (fun raw col => parseColumnDefinition To F raw = Ok col) raws cols
      /\ Columns sca = (Columns sca0 ++ cols)%list
      /\ NonIDColumns sca = (NonIDColumns sca0 ++ filter notID cols)%list
      /\ IDColumn sca = match lastOf (filter ID cols) with
                        | Some c => Some c
                        | None => IDColumn sca0
                        end.
Proof.
  induction raws as [|raw raws IH]; intros sca0 sca H; simpl in H.
  - injection H as <-. exists []. rewrite !app_nil_r. repeat split. constructor.
  - destruct (parseColumnDefinition To F raw) as [col|e|] eqn:E;
      simpl in H; try discriminate.
    apply IH in H as (cols & Hall & Hc & Hn & Hi).
    exists (col :: cols). split; [now constructor|].
    simpl in Hc, Hn, Hi. rewrite Hc, Hn, Hi. unfold notID. simpl.
    destruct (ID col) eqn:Hid; simpl; rewrite <- ?app_assoc; simpl.
    + repeat split.
      destruct (filter ID cols) as [|c cs] eqn:Ef; [reflexivity|].
      rewrite lastOf_cons_cons.
      destruct (lastOf_cons_some cs c) as [z ->]. reflexivity.
    + repeat split.
Qed.

(** A call that returns has read [args[0]] and run the loop over the rest
    from a value with no column in it. *)
Lemma parseScaffoldCommandArgs_inv (args : list string)
  (sca : scaffoldCommandArgs) :
  parseScaffoldCommandArgs To F args = Ok sca ->
  exists (arg0 : string) (sca0 : scaffoldCommandArgs),
    parseColumns To F (tl args) sca0 = Ok sca
    /\ args = arg0 :: tl args
    /\ Columns sca0 = [] /\ NonIDColumns sca0 = [] /\ IDColumn sca0 = None.
Proof.
  unfold parseScaffoldCommandArgs. destruct args as [|arg0 raws]; [discriminate|].
  destruct (_ || _); [discriminate|].
  destruct (upperCamelCase To _) as [singular|?|]; simpl; try discriminate.
  destruct (upperCamelCase To _) as [plural|?|]; simpl; try discriminate.
  intros H. exists arg0.
  destruct (onlyFlag F =? "schema");
    [|destruct (onlyFlag F =? "queries");
      [|destruct (onlyFlag F =? ""); [|discriminate]]];
    (eexists; split; [exact H|simpl; auto]).
Qed.

End ArgumentParser.

(* ------------------------------------------------------------------ *)
(** ** Entity names: when [capitalize] panics *)

Lemma srev_app (a b : string) : srev (a ++ b) = srev b ++ srev a.
Proof.
  induction a as [|x a IH]; simpl.
  - now rewrite append_empty_r.
  - now rewrite IH, append_assoc.
Qed.

Lemma decode_cons (b : ascii) (t : string) : utf8.decode (String b t) <> [].
Proof.
  simpl.
  repeat match goal with
         | |- context [if ?c then _ else _] => destruct c
         | |- context [match ?s with EmptyString => _ | String _ _ => _ end] =>
           destruct s
         end; discriminate.
Qed.

Lemma runes_nil_iff (s : string) : utf8.runes s = [] <-> s = "".
Proof.
  split; [|now intros ->].
  destruct s as [|b t]; [reflexivity|].
  unfold utf8.runes. intros H. apply map_eq_nil in H.
  now apply decode_cons in H.
Qed.

(** Joining the pieces of [Split] with the separator gives the string
    back. *)
Lemma Split_concat (s : string) (c : ascii) :
  String.concat (String c "") (strings.Split s c) = s.
Proof.
  induction s as [|x s IH]; [reflexivity|].
  simpl. destruct (Ascii.eqb_spec x c) as [->|_].
  - pose proof (Split_not_nil s c) as Hne.
    destruct (strings.Split s c) as [|p ps]; [congruence|].
    change (String.concat (String c "") ("" :: p :: ps))
      with (String c (String.concat (String c "") (p :: ps))).
    now rewrite IH.
  - pose proof (Split_not_nil s c) as Hne.
    destruct (strings.Split s c) as [|p ps]; [congruence|].
    rewrite <- IH. destruct ps; reflexivity.
Qed.

(** No piece of [Split] holds the separator. *)
Lemma Split_pieces_clean (s : string) (c : ascii) :
  Forall (fun p => strings.Contains p c = false) (strings.Split s c).
Proof.
  induction s as [|x s IH]; simpl; [now repeat constructor|].
  destruct (Ascii.eqb x c) eqn:E; [now constructor|].
  destruct (strings.Split s c) as [|p ps].
  { constructor; [simpl; now rewrite E|constructor]. }
  inversion IH as [|? ? Hp Hps]; subst.
  constructor; [|exact Hps]. simpl. now rewrite E.
Qed.

Section EntityNames.

Variable To : unicode.Case -> utf8.rune -> utf8.rune.
Variable F : flags.

Lemma capitalize_panics_iff (s : string) :
  capitalize To s = Panic <-> s = "".
Proof.
  unfold capitalize. rewrite <- runes_nil_iff.
  destruct (utf8.runes s); split; congruence.
Qed.

Lemma capitalize_never_fails (s : string) (e : error) :
  capitalize To s <> Err e.
Proof. unfold capitalize. destruct (utf8.runes s); discriminate. Qed.

Lemma capitalizeAll_never_fails (parts : list string) (e : error) :
  capitalizeAll To parts <> Err e.
Proof.
  induction parts as [|p rest IH]; simpl; [discriminate|].
  pose proof (capitalize_never_fails p e).
  destruct (capitalize To p); simpl; try congruence.
  destruct (capitalizeAll To rest); simpl; congruence.
Qed.

Lemma capitalizeAll_panics_iff (parts : list string) :
  capitalizeAll To parts = Panic <-> In "" parts.
Proof.
  induction parts as [|p rest IH]; simpl.
  - split; [discriminate|tauto].
  - pose proof (capitalize_panics_iff p) as Hp.
    pose proof (capitalizeAll_never_fails rest) as Hrest.
    destruct (capitalize To p) as [c|e|] eqn:Ec; simpl.
    + destruct (capitalizeAll To rest) as [b|e|]; simpl.
      * split; [discriminate|].
        intros [->|Hin]; [|apply IH in Hin; discriminate].
        destruct Hp as [_ Hp]. now specialize (Hp eq_refl).
      * now destruct (Hrest e).
      * split; [intros _; right; now apply IH|reflexivity].
    + now destruct (capitalize_never_fails p e).
    + split; [intros _; left; now apply Hp|reflexivity].
Qed.

(** [upperCamelCase] panics exactly on the names with an empty piece between
    underscores: the empty name, and every name that starts or ends with an
    underscore or has two in a row.  It returns a string on every other
    name. *)
Lemma upperCamelCase_panics_iff (s : string) :
  upperCamelCase To s = Panic <-> In "" (strings.Split s "_").
Proof.
  unfold upperCamelCase.
  destruct (strings.Split s "_") as [|p [|q rest]] eqn:E.
  - now apply Split_not_nil in E.
  - simpl. pose proof (Split_concat s "_") as Hs. rewrite E in Hs.
    simpl in Hs. subst p. rewrite capitalize_panics_iff.
    split; [auto|]. intros [H|[]]. now symmetry.
  - change (List.length (p :: q :: rest) =? 1)%nat with false.
    apply capitalizeAll_panics_iff.
Qed.

Lemma upperCamelCase_never_fails (s : string) (e : error) :
  upperCamelCase To s <> Err e.
Proof.
  unfold upperCamelCase. destruct (_ =? _)%nat.
  - apply capitalize_never_fails.
  - apply capitalizeAll_never_fails.
Qed.

Lemma upperCamelCase_returns (s : string) :
  ~ In "" (strings.Split s "_") ->
  exists name : string, upperCamelCase To s = Ok name.
Proof.
  intros Hclean. rewrite <- upperCamelCase_panics_iff in Hclean.
  pose proof (upperCamelCase_never_fails s) as Hfail.
  destruct (upperCamelCase To s) as [name|e|].
  - now exists name.
  - now destruct (Hfail e).
  - now destruct Hclean.
Qed.

(** C8, at the name [a_/b], which the name test accepts: the singular half
    [a_] splits into [a] and the empty piece, and [capitalize] indexes the
    empty rune slice of the empty piece. *)
Theorem trailing_underscore_panics (raws : list string) :
  upperCamelCase To "a_" = Panic
  /\ parseScaffoldCommandArgs To F ("a_/b" :: raws) = Panic.
Proof. split; reflexivity. Qed.

End EntityNames.

(* ------------------------------------------------------------------ *)
(** ** The UPDATE template *)

(** C7.  With an identifier column, the label of the UPDATE template has the
    mode [:exec] when [NoReturningClause] is set and [:one] otherwise, and
    the statement below it ends with [RETURNING *] and its semicolon exactly
    when [NoReturningClause] is not set. *)
Theorem update_mode_and_returning (args : scaffoldCommandArgs)
  (idc : column) :
  IDColumn args = Some idc ->
  exists statement : string,
    writeUpdateQuery args
    = Ok ("-- name: Update" ++ SingularEntity args ++ " "
          ++ (if NoReturningClause args then ":exec" else ":one") ++ nl
          ++ statement)
    /\ HasPrefix statement "UPDATE " = true
    /\ HasSuffix statement "RETURNING *;" = negb (NoReturningClause args).
Proof.
  intros Hid. unfold writeUpdateQuery, IDColumn_Name. rewrite Hid.
  cbn [bind]. eexists. split; [reflexivity|]. split; [reflexivity|].
  unfold HasSuffix. rewrite !srev_app.
  destruct (NoReturningClause args); reflexivity.
Qed.

(* ------------------------------------------------------------------ *)
(** ** The lines of the output *)

Lemma oneLine_app (a b : string) : oneLine (a ++ b) = oneLine a && oneLine b.
Proof. unfold oneLine. now rewrite Contains_app, negb_orb. Qed.

Lemma oneLine_spaces (n : nat) : oneLine (spaces n) = true.
Proof.
  induction n as [|n IH]; [reflexivity|]. exact IH.
Qed.

Lemma oneLine_pad (no : Z) : oneLine (pad no) = true.
Proof. apply oneLine_spaces. Qed.

Lemma oneLine_marks (k : nat) : oneLine (marks k) = true.
Proof.
  induction k as [|k IH]; [reflexivity|]. exact IH.
Qed.

Lemma oneLine_join (sep : string) (pieces : list string) :
  oneLine sep = true -> forallb oneLine pieces = true ->
  oneLine (String.concat sep pieces) = true.
Proof.
  unfold oneLine. intros Hsep Hall. apply negb_true_iff.
  apply Contains_join; [now apply negb_true_iff|].
  apply Forall_forall. intros p Hp.
  rewrite forallb_forall in Hall. apply negb_true_iff. now apply Hall.
Qed.

Lemma tlines_app (l1 l2 : list string) :
  tlines (l1 ++ l2) = tlines l1 ++ tlines l2.
Proof.
  induction l1 as [|l l1 IH]; [reflexivity|].
  simpl. now rewrite IH, !append_assoc.
Qed.

Lemma lines_tlines (ls : list string) :
  forallb oneLine ls = true -> lines (tlines ls) = (ls ++ [""])%list.
Proof.
  unfold lines. induction ls as [|l ls IH]; [reflexivity|].
  simpl. intros H. apply andb_true_iff in H as [Hl Hls].
  change (l ++ nl ++ tlines ls) with (l ++ String LF (tlines ls)).
  rewrite Split_app_sep, (IH Hls), Split_without; [reflexivity|].
  now apply negb_true_iff.
Qed.

Lemma labels_Block (text : string) (labs : list string) :
  Block text labs -> labels text = labs.
Proof.
  intros (ls & -> & Hone & <-). unfold labels.
  rewrite (lines_tlines _ Hone), filter_app. simpl. apply app_nil_r.
Qed.

Lemma Block_nil : Block "" [].
Proof. now exists []. Qed.

Lemma Block_app (a b : string) (la lb : list string) :
  Block a la -> Block b lb -> Block (a ++ b) (la ++ lb).
Proof.
  intros (l1 & -> & H1 & <-) (l2 & -> & H2 & <-).
  exists (l1 ++ l2)%list. rewrite tlines_app, forallb_app, filter_app, H1, H2.
  auto.
Qed.

Lemma Block_quiet_app (a b : string) (lb : list string) :
  Block a [] -> Block b lb -> Block (a ++ b) lb.
Proof. intros Ha Hb. apply (Block_app _ _ _ _ Ha Hb). Qed.

Lemma Block_label (l rest : string) (labs : list string) :
  oneLine l = true -> isLabel l = true ->
  Block rest labs -> Block (l ++ nl ++ rest) (l :: labs).
Proof.
  intros Hl Hlab (ls & -> & Hone & <-).
  exists (l :: ls). simpl. now rewrite Hl, Hlab, Hone.
Qed.

Lemma Block_quiet (l rest : string) (labs : list string) :
  oneLine l = true -> isLabel l = false ->
  Block rest labs -> Block (l ++ nl ++ rest) labs.
Proof.
  intros Hl Hlab (ls & -> & Hone & <-).
  exists (l :: ls). simpl. now rewrite Hl, Hlab, Hone.
Qed.

Lemma Block_blank (rest : string) (labs : list string) :
  Block rest labs -> Block (nl ++ rest) labs.
Proof. intros H. now apply (Block_quiet "" rest labs). Qed.

(** The same for a line written in two, three or four pieces. *)
Lemma Block_quiet2 (a b rest : string) (labs : list string) :
  oneLine (a ++ b) = true -> isLabel (a ++ b) = false ->
  Block rest labs -> Block (a ++ b ++ nl ++ rest) labs.
Proof. rewrite <- append_assoc. apply Block_quiet. Qed.

Lemma Block_quiet3 (a b c rest : string) (labs : list string) :
  oneLine (a ++ b ++ c) = true -> isLabel (a ++ b ++ c) = false ->
  Block rest labs -> Block (a ++ b ++ c ++ nl ++ rest) labs.
Proof.
  replace (a ++ b ++ c ++ nl ++ rest) with ((a ++ b ++ c) ++ nl ++ rest)
    by now rewrite !append_assoc.
  apply Block_quiet.
Qed.

Lemma Block_quiet4 (a b c d rest : string) (labs : list string) :
  oneLine (a ++ b ++ c ++ d) = true -> isLabel (a ++ b ++ c ++ d) = false ->
  Block rest labs -> Block (a ++ b ++ c ++ d ++ nl ++ rest) labs.
Proof.
  replace (a ++ b ++ c ++ d ++ nl ++ rest)
    with ((a ++ b ++ c ++ d) ++ nl ++ rest) by now rewrite !append_assoc.
  apply Block_quiet.
Qed.

Lemma Block_label3 (a b c rest : string) (labs : list string) :
  oneLine (a ++ b ++ c) = true -> isLabel (a ++ b ++ c) = true ->
  Block rest labs -> Block (a ++ b ++ c ++ nl ++ rest) ((a ++ b ++ c) :: labs).
Proof.
  replace (a ++ b ++ c ++ nl ++ rest) with ((a ++ b ++ c) ++ nl ++ rest)
    by now rewrite !append_assoc.
  apply Block_label.
Qed.

Lemma Block_label4 (a b c d rest : string) (labs : list string) :
  oneLine (a ++ b ++ c ++ d) = true -> isLabel (a ++ b ++ c ++ d) = true ->
  Block rest labs ->
  Block (a ++ b ++ c ++ d ++ nl ++ rest) ((a ++ b ++ c ++ d) :: labs).
Proof.
  replace (a ++ b ++ c ++ d ++ nl ++ rest)
    with ((a ++ b ++ c ++ d) ++ nl ++ rest) by now rewrite !append_assoc.
  apply Block_label.
Qed.

Lemma Block_closed (text : string) (labs : list string) :
  Block (text ++ "") labs -> Block text labs.
Proof. now rewrite append_empty_r. Qed.

Lemma Block_label_app (a b l : string) (lb : list string) :
  Block a [l] -> Block b lb -> Block (a ++ b) (l :: lb).
Proof. intros Ha Hb. apply (Block_app _ _ _ _ Ha Hb). Qed.

Lemma append_empty_l (s : string) : "" ++ s = s.
Proof. reflexivity. Qed.

(** [one_line] proves that a line written in pieces holds no line feed;
    [block_step] reads one line off a text written as a chain of pieces. *)
Ltac one_line :=
  repeat match goal with
         | |- context [if ?c then _ else _] => destruct c
         end;
  rewrite ?oneLine_app;
  repeat (apply andb_true_iff; split);
  first [ assumption | reflexivity | apply oneLine_pad | apply oneLine_marks
        | apply oneLine_join; [reflexivity | assumption] ].

Ltac block_step :=
  first
    [ apply Block_nil
    | apply Block_blank
    | apply Block_label4; [solve [one_line] | reflexivity | ]
    | apply Block_label3; [solve [one_line] | reflexivity | ]
    | apply Block_quiet; [solve [one_line] | reflexivity | ]
    | apply Block_quiet2; [solve [one_line] | reflexivity | ]
    | apply Block_quiet3; [solve [one_line] | reflexivity | ]
    | apply Block_quiet4; [solve [one_line] | reflexivity | ] ].

Ltac blocks := apply Block_closed; rewrite ?append_assoc; repeat block_step.

Lemma oneLineColumn_inv (c : column) :
  oneLineColumn c = true ->
  oneLine (Name c) = true /\ oneLine (Type_ c) = true
  /\ oneLine (Constraint c) = true.
Proof.
  unfold oneLineColumn. intros H.
  apply andb_true_iff in H as [H Hc]. apply andb_true_iff in H as [Hn Ht].
  auto.
Qed.

Lemma count_cons {A : Type} (x : A) (l : list A) :
  count (x :: l) = (1 + count l)%Z.
Proof. unfold count. simpl List.length. lia. Qed.

Lemma count_nonneg {A : Type} (l : list A) : (0 <= count l)%Z.
Proof. unfold count. lia. Qed.

(** *** The loops *)

Lemma writeSchemaColumn_block (args : scaffoldCommandArgs) (ci : Z)
  (col : column) :
  oneLineColumn col = true -> Block (writeSchemaColumn args ci col) [].
Proof.
  intros H. apply oneLineColumn_inv in H as (Hn & Ht & Hc).
  unfold writeSchemaColumn.
  destruct (negb (Constraint col =? "")), (ci <? count (Columns args) - 1)%Z.
  - replace ("  " ++ Name col ++ " " ++ pad (LongestName args - len (Name col))
             ++ Type_ col
             ++ (pad (LongestType args - len (Type_ col)) ++ " "
                 ++ Constraint col) ++ "," ++ nl)
      with (("  " ++ Name col ++ " " ++ pad (LongestName args - len (Name col))
             ++ Type_ col ++ pad (LongestType args - len (Type_ col)) ++ " "
             ++ Constraint col ++ ",") ++ nl ++ "")
      by (now rewrite ?append_assoc, append_empty_r).
    apply Block_quiet; [solve [one_line] | reflexivity | apply Block_nil].
  - replace ("  " ++ Name col ++ " " ++ pad (LongestName args - len (Name col))
             ++ Type_ col
             ++ (pad (LongestType args - len (Type_ col)) ++ " "
                 ++ Constraint col) ++ "" ++ nl)
      with (("  " ++ Name col ++ " " ++ pad (LongestName args - len (Name col))
             ++ Type_ col ++ pad (LongestType args - len (Type_ col)) ++ " "
             ++ Constraint col) ++ nl ++ "")
      by (now rewrite ?append_assoc, append_empty_r).
    apply Block_quiet; [solve [one_line] | reflexivity | apply Block_nil].
  - replace ("  " ++ Name col ++ " " ++ pad (LongestName args - len (Name col))
             ++ Type_ col ++ "" ++ "," ++ nl)
      with (("  " ++ Name col ++ " " ++ pad (LongestName args - len (Name col))
             ++ Type_ col ++ ",") ++ nl ++ "")
      by (now rewrite ?append_assoc, append_empty_r).
    apply Block_quiet; [solve [one_line] | reflexivity | apply Block_nil].
  - replace ("  " ++ Name col ++ " " ++ pad (LongestName args - len (Name col))
             ++ Type_ col ++ "" ++ "" ++ nl)
      with (("  " ++ Name col ++ " " ++ pad (LongestName args - len (Name col))
             ++ Type_ col) ++ nl ++ "")
      by (now rewrite ?append_assoc, append_empty_r).
    apply Block_quiet; [solve [one_line] | reflexivity | apply Block_nil].
Qed.

Lemma writeSchemaColumns_block (args : scaffoldCommandArgs)
  (cols : list column) :
  forallb oneLineColumn cols = true ->
  forall ci : Z, Block (writeSchemaColumns args ci cols) [].
Proof.
  induction cols as [|col cols IH]; intros H ci; [apply Block_nil|].
  simpl in H. apply andb_true_iff in H as [Hcol Hcols].
  change (writeSchemaColumns args ci (col :: cols))
    with (writeSchemaColumn args ci col
          ++ writeSchemaColumns args (ci + 1) cols).
  apply Block_quiet_app; [now apply writeSchemaColumn_block|now apply IH].
Qed.

Lemma writeUpdateSets_block (n : Z) (cols : list column) :
  forallb oneLineColumn cols = true ->
  forall i : Z, Block (writeUpdateSets n i cols) [].
Proof.
  induction cols as [|col cols IH]; intros H i; [apply Block_nil|].
  simpl in H. apply andb_true_iff in H as [Hcol Hcols].
  apply oneLineColumn_inv in Hcol as (Hn & _ & _).
  change (writeUpdateSets n i (col :: cols))
    with ((if (i <? n - 1)%Z then "  " ++ Name col ++ " = ?," ++ nl
           else "  " ++ Name col ++ " = ?" ++ nl)
          ++ writeUpdateSets n (i + 1) cols).
  specialize (IH Hcols (i + 1)%Z).
  destruct (i <? n - 1)%Z; rewrite ?append_assoc;
    (apply Block_quiet3; [solve [one_line] | reflexivity | exact IH]).
Qed.

Lemma writeCreateNames_line (cols : list column) :
  cols <> [] ->
  forall i : Z,
    writeCreateNames (i + count cols) i cols
    = String.concat ", " (map Name cols) ++ nl.
Proof.
  induction cols as [|c cols IH]; [congruence|]. intros _ i.
  destruct cols as [|c' cols].
  - simpl. replace (i + count [c] - 1)%Z with i by (unfold count; simpl; lia).
    now rewrite Z.eqb_refl, append_empty_r.
  - change (writeCreateNames (i + count (c :: c' :: cols)) i (c :: c' :: cols))
      with (Name c
            ++ (if (i =? i + count (c :: c' :: cols) - 1)%Z then nl else ", ")
            ++ writeCreateNames (i + count (c :: c' :: cols)) (i + 1)
                 (c' :: cols)).
    pose proof (count_nonneg cols) as Hpos.
    rewrite (count_cons c), (count_cons c').
    replace (i =? i + (1 + (1 + count cols)) - 1)%Z with false
      by (symmetry; apply Z.eqb_neq; lia).
    replace (i + (1 + (1 + count cols)))%Z with (i + 1 + count (c' :: cols))%Z
      by (rewrite count_cons; lia).
    rewrite IH by discriminate.
    change (String.concat ", " (map Name (c :: c' :: cols)))
      with (Name c ++ ", " ++ String.concat ", " (map Name (c' :: cols))).
    now rewrite !append_assoc.
Qed.

Lemma writeCreateMarks_line (k : nat) :
  forall i : Z,
    writeCreateMarks (i + Z.of_nat (S k)) i (S k) = marks k ++ nl.
Proof.
  induction k as [|k IH]; intros i.
  - simpl. replace (i <? i + 1 - 1)%Z with false
      by (symmetry; apply Z.ltb_ge; lia).
    reflexivity.
  - change (writeCreateMarks (i + Z.of_nat (S (S k))) i (S (S k)))
      with ((if (i <? i + Z.of_nat (S (S k)) - 1)%Z then "?, " else "?" ++ nl)
            ++ writeCreateMarks (i + Z.of_nat (S (S k))) (i + 1) (S k)).
    replace (i <? i + Z.of_nat (S (S k)) - 1)%Z with true
      by (symmetry; apply Z.ltb_lt; lia).
    replace (i + Z.of_nat (S (S k)))%Z with (i + 1 + Z.of_nat (S k))%Z by lia.
    rewrite IH. reflexivity.
Qed.

Lemma forallb_oneLine_names (cols : list column) :
  forallb oneLineColumn cols = true -> forallb oneLine (map Name cols) = true.
Proof.
  induction cols as [|c cols IH]; [reflexivity|]. simpl. intros H.
  apply andb_true_iff in H as [Hc Hcols].
  apply oneLineColumn_inv in Hc as (Hn & _ & _). now rewrite Hn, IH.
Qed.

(** *** The templates *)

Section Templates.

Variable args : scaffoldCommandArgs.
Hypothesis Htable : oneLine (Table args) = true.
Hypothesis Hsingular : oneLine (SingularEntity args) = true.
Hypothesis Hplural : oneLine (PluralEntity args) = true.
Hypothesis Horder : oneLine (OrderBy args) = true.
Hypothesis Hcolumns : forallb oneLineColumn (Columns args) = true.
Hypothesis Hnonid : forallb oneLineColumn (NonIDColumns args) = true.

Lemma writeSchema_block : Block (writeSchema args ++ nl ++ nl) [].
Proof.
  unfold writeSchema. destruct (negb (NoExistsClause args)).
  - apply Block_closed; rewrite ?append_assoc.
    apply Block_quiet4; [solve [one_line] | reflexivity | ].
    apply Block_quiet_app; [now apply writeSchemaColumns_block|].
    repeat block_step.
  - apply Block_closed; rewrite ?append_assoc.
    apply Block_quiet4; [solve [one_line] | reflexivity | ].
    apply Block_quiet_app; [now apply writeSchemaColumns_block|].
    repeat block_step.
Qed.

Lemma writeListQuery_block :
  Block (writeListQuery args ++ nl)
    ["-- name: List" ++ PluralEntity args ++ " :many"].
Proof.
  unfold writeListQuery. destruct (OrderBy args =? ""); blocks.
Qed.

Lemma writeCreateQuery_block :
  Block (writeCreateQuery args ++ nl)
    ["-- name: Create" ++ SingularEntity args ++ " :one"].
Proof.
  unfold writeCreateQuery.
  destruct (NonIDColumns args) as [|c cs] eqn:E.
  - cbn [writeCreateNames writeCreateMarks List.length]. blocks.
  - pose proof (forallb_oneLine_names _ Hnonid) as Hnames.
    change (count (c :: cs)) with (0 + count (c :: cs))%Z at 1.
    rewrite writeCreateNames_line by discriminate.
    change (count (c :: cs)) with (0 + Z.of_nat (S (List.length cs)))%Z.
    change (List.length (c :: cs)) with (S (List.length cs)).
    rewrite writeCreateMarks_line.
    blocks.
Qed.

Section WithIdentifier.

Variable idc : column.
Hypothesis Hid : IDColumn args = Some idc.
Hypothesis Hname : oneLine (Name idc) = true.

Lemma writeGetQuery_block :
  exists get : string,
    writeGetQuery args = Ok get
    /\ Block (get ++ nl) ["-- name: Get" ++ SingularEntity args ++ " :one"].
Proof.
  unfold writeGetQuery, IDColumn_Name. rewrite Hid. cbn [bind].
  eexists. split; [reflexivity|]. blocks.
Qed.

Lemma writeDeleteQuery_block :
  exists delete : string,
    writeDeleteQuery args = Ok delete
    /\ Block (delete ++ nl)
         ["-- name: Delete" ++ SingularEntity args ++ " :exec"].
Proof.
  unfold writeDeleteQuery, IDColumn_Name. rewrite Hid. cbn [bind].
  eexists. split; [reflexivity|]. blocks.
Qed.

Lemma writeUpdateQuery_block :
  exists update : string,
    writeUpdateQuery args = Ok update
    /\ Block (update ++ nl)
         ["-- name: Update" ++ SingularEntity args ++ " "
          ++ (if NoReturningClause args then ":exec" else ":one")].
Proof.
  unfold writeUpdateQuery, IDColumn_Name. rewrite Hid. cbn [bind].
  eexists. split; [reflexivity|].
  destruct (NoReturningClause args); cbn [negb];
    apply Block_closed; rewrite ?append_assoc;
    (apply Block_label4; [solve [one_line] | reflexivity | ]);
    do 2 block_step;
    (apply Block_quiet_app; [now apply writeUpdateSets_block|]);
    repeat block_step.
Qed.

End WithIdentifier.

End Templates.

(* ------------------------------------------------------------------ *)
(** ** The query block *)

(** The text of the output when queries are asked for: the templates follow
    the preamble in the order Get, List, Create, Delete, Update, the first
    and the last two only with an identifier column. *)
Lemma scaffoldCommand_with_identifier (args : scaffoldCommandArgs)
  (idc : column) :
  has (Output args) outputQueries = true ->
  IDColumn args = Some idc ->
  exists get delete update : string,
    writeGetQuery args = Ok get
    /\ writeDeleteQuery args = Ok delete
    /\ writeUpdateQuery args = Ok update
    /\ scaffoldCommand args
       = Ok (preamble args
             ++ (get ++ nl) ++ nl
             ++ (writeListQuery args ++ nl) ++ nl
             ++ (writeCreateQuery args ++ nl) ++ nl
             ++ (delete ++ nl) ++ nl
             ++ (update ++ nl) ++ nl).
Proof.
  intros Hq Hid.
  unfold scaffoldCommand, preamble, writeGetQuery, writeDeleteQuery,
    writeUpdateQuery, IDColumn_Name.
  rewrite Hq, Hid. cbn [bind is_nil negb].
  do 3 eexists. repeat (split; [reflexivity|]).
  f_equal.
  destruct (has_all (Output args)), (has (Output args) outputSchema);
    rewrite ?append_assoc, ?append_empty_l; reflexivity.
Qed.

Lemma scaffoldCommand_without_identifier (args : scaffoldCommandArgs) :
  has (Output args) outputQueries = true ->
  IDColumn args = None ->
  scaffoldCommand args
  = Ok (preamble args
        ++ (writeListQuery args ++ nl) ++ nl
        ++ (writeCreateQuery args ++ nl)).
Proof.
  intros Hq Hid. unfold scaffoldCommand, preamble.
  rewrite Hq, Hid. cbn [bind is_nil negb].
  f_equal.
  destruct (has_all (Output args)), (has (Output args) outputSchema);
    rewrite ?append_assoc, ?append_empty_l; reflexivity.
Qed.

Lemma schemaBanner_block : Block schemaBanner [].
Proof. unfold schemaBanner. blocks. Qed.

Lemma queriesBanner_block : Block queriesBanner [].
Proof. unfold queriesBanner. blocks. Qed.

Lemma preamble_block (args : scaffoldCommandArgs) :
  oneLine (Table args) = true ->
  forallb oneLineColumn (Columns args) = true ->
  Block (preamble args) [].
Proof.
  intros Ht Hc. unfold preamble.
  repeat apply Block_quiet_app;
    match goal with
    | |- Block (if ?c then _ else _) _ => destruct c
    end;
    first [ apply Block_nil | apply schemaBanner_block
          | apply queriesBanner_block | now apply writeSchema_block ].
Qed.

Lemma singleLineFields_inv (args : scaffoldCommandArgs) :
  singleLineFields args = true ->
  oneLine (Table args) = true /\ oneLine (SingularEntity args) = true
  /\ oneLine (PluralEntity args) = true /\ oneLine (OrderBy args) = true
  /\ forallb oneLineColumn (Columns args) = true
  /\ forallb oneLineColumn (NonIDColumns args) = true
  /\ (forall idc, IDColumn args = Some idc -> oneLine (Name idc) = true).
Proof.
  unfold singleLineFields. intros H.
  repeat match type of H with
         | _ && _ = true => let H' := fresh "H" in
                            apply andb_true_iff in H as [H H']
         end.
  repeat split; try assumption.
  intros idc Hid. rewrite Hid in *.
  now apply oneLineColumn_inv in H0.
Qed.

Lemma labels_in_order (args : scaffoldCommandArgs) (out : string) :
  has (Output args) outputQueries = true ->
  singleLineFields args = true ->
  scaffoldCommand args = Ok out ->
  labels out
  = match IDColumn args with
    | Some _ =>
      ["-- name: Get" ++ SingularEntity args ++ " :one";
       "-- name: List" ++ PluralEntity args ++ " :many";
       "-- name: Create" ++ SingularEntity args ++ " :one";
       "-- name: Delete" ++ SingularEntity args ++ " :exec";
       "-- name: Update" ++ SingularEntity args ++ " "
       ++ (if NoReturningClause args then ":exec" else ":one")]
    | None =>
      ["-- name: List" ++ PluralEntity args ++ " :many";
       "-- name: Create" ++ SingularEntity args ++ " :one"]
    end.
Proof.
  intros Hq Hone Hrun.
  apply singleLineFields_inv in Hone as (Ht & Hs & Hp & Ho & Hc & Hn & Hi).
  pose proof (preamble_block args Ht Hc) as Hpre.
  pose proof (writeListQuery_block args Ht Hp Ho) as Hlist.
  pose proof (writeCreateQuery_block args Ht Hs Hn) as Hcreate.
  destruct (IDColumn args) as [idc|] eqn:Hid.
  - specialize (Hi idc eq_refl).
    destruct (scaffoldCommand_with_identifier args idc Hq Hid)
      as (get & delete & update & Hget & Hdelete & Hupdate & Hout).
    destruct (writeGetQuery_block args Ht Hs idc Hid Hi) as (g & Hg & Bg).
    destruct (writeDeleteQuery_block args Ht Hs idc Hid Hi) as (d & Hd & Bd).
    destruct (writeUpdateQuery_block args Ht Hs Hn idc Hid Hi)
      as (u & Hu & Bu).
    rewrite Hget in Hg. rewrite Hdelete in Hd. rewrite Hupdate in Hu.
    injection Hg as <-. injection Hd as <-. injection Hu as <-.
    rewrite Hrun in Hout. apply Ok_inj in Hout. subst out.
    apply labels_Block.
    apply Block_quiet_app; [exact Hpre|].
    apply Block_label_app; [exact Bg|]. apply Block_blank.
    apply Block_label_app; [exact Hlist|]. apply Block_blank.
    apply Block_label_app; [exact Hcreate|]. apply Block_blank.
    apply Block_label_app; [exact Bd|]. apply Block_blank.
    apply Block_label_app; [exact Bu|].
    apply (Block_quiet "" "" []); [reflexivity|reflexivity|apply Block_nil].
  - pose proof (scaffoldCommand_without_identifier args Hq Hid) as Hout.
    rewrite Hrun in Hout. apply Ok_inj in Hout. subst out.
    apply labels_Block.
    apply Block_quiet_app; [exact Hpre|].
    apply Block_label_app; [exact Hlist|]. apply Block_blank.
    rewrite <- (append_empty_r (writeCreateQuery args ++ nl)).
    apply Block_label_app; [exact Hcreate|apply Block_nil].
Qed.

(** C6.  When queries are asked for, [scaffoldCommand] returns, and what it
    writes after the preamble is: with an identifier column, the templates
    Get, List, Create, Delete and Update, in this order; with none, List and
    Create alone.  Read off the text, the label lines of the output are
    those of these templates, in this order (as long as no string of the
    arguments holds a line feed, which would add lines of its own). *)
Theorem query_templates_in_order (args : scaffoldCommandArgs) :
  has (Output args) outputQueries = true ->
  exists out : string,
    scaffoldCommand args = Ok out
    /\ match IDColumn args with
       | Some _ =>
         exists get delete update : string,
           writeGetQuery args = Ok get
           /\ writeDeleteQuery args = Ok delete
           /\ writeUpdateQuery args = Ok update
           /\ out = preamble args
                    ++ get ++ nl ++ nl
                    ++ writeListQuery args ++ nl ++ nl
                    ++ writeCreateQuery args ++ nl ++ nl
                    ++ delete ++ nl ++ nl
                    ++ update ++ nl ++ nl
       | None =>
         out = preamble args
               ++ writeListQuery args ++ nl ++ nl
               ++ writeCreateQuery args ++ nl
       end
    /\ (singleLineFields args = true ->
        labels out
        = match IDColumn args with
          | Some _ =>
            ["-- name: Get" ++ SingularEntity args ++ " :one";
             "-- name: List" ++ PluralEntity args ++ " :many";
             "-- name: Create" ++ SingularEntity args ++ " :one";
             "-- name: Delete" ++ SingularEntity args ++ " :exec";
             "-- name: Update" ++ SingularEntity args ++ " "
             ++ (if NoReturningClause args then ":exec" else ":one")]
          | None =>
            ["-- name: List" ++ PluralEntity args ++ " :many";
             "-- name: Create" ++ SingularEntity args ++ " :one"]
          end).
Proof.
  intros Hq.
  assert (Hrun : exists out, scaffoldCommand args = Ok out).
  { destruct (IDColumn args) as [idc|] eqn:Hid.
    - destruct (scaffoldCommand_with_identifier args idc Hq Hid)
        as (? & ? & ? & _ & _ & _ & Hout).
      eexists. exact Hout.
    - eexists. now apply scaffoldCommand_without_identifier. }
  destruct Hrun as [out Hrun]. exists out.
  split; [exact Hrun|]. split.
  - destruct (IDColumn args) as [idc|] eqn:Hid.
    + destruct (scaffoldCommand_with_identifier args idc Hq Hid)
        as (get & delete & update & Hget & Hdelete & Hupdate & Hout).
      exists get, delete, update. repeat (split; [assumption|]).
      rewrite Hrun in Hout. apply Ok_inj in Hout. subst out.
      now rewrite ?append_assoc.
    + pose proof (scaffoldCommand_without_identifier args Hq Hid) as Hout.
      rewrite Hrun in Hout. apply Ok_inj in Hout. subst out.
      now rewrite ?append_assoc.
  - intros Hone. now apply labels_in_order.
Qed.

(* ------------------------------------------------------------------ *)
(** ** The theorems at concrete calls *)

Example authorArgs_parsed :
  parseScaffoldCommandArgs asciiOnly defaultFlags authorCall = Ok authorArgs.
Proof. reflexivity. Qed.

(** The labels of the whole output of the example, by evaluation. *)
Example author_labels :
  exists out : string,
    scaffoldCommand authorArgs = Ok out
    /\ labels out
       = ["-- name: GetAuthor :one"; "-- name: ListAuthors :many";
          "-- name: CreateAuthor :one"; "-- name: DeleteAuthor :exec";
          "-- name: UpdateAuthor :one"].
Proof. eexists. split; [reflexivity|]. vm_compute. reflexivity. Qed.

Example zipcode_import_name :
  upperCamelCase asciiOnly "zipcode_import" = Ok "ZipcodeImport".
Proof. reflexivity. Qed.

(** [sqlcup -only schema t/ts a: b:int]: the column [a] has no type. *)
Example empty_type_schema :
  (sca <- parseScaffoldCommandArgs asciiOnly
            {| noExistsClauseFlag := false; idColumnFlag := "id";
               orderByFlag := ""; noReturningClauseFlag := false;
               onlyFlag := "schema" |}
            ["t/ts"; "a:"; "b:int"];;
   scaffoldCommand sca)
  = Ok ("CREATE TABLE IF NOT EXISTS ts (" ++ nl
        ++ "  a ," ++ nl
        ++ "  b int" ++ nl
        ++ ");" ++ nl ++ nl).
Proof. reflexivity. Qed.

(** [sqlcup -no-returning-clause a/b @id n@text]: the UPDATE template. *)
Example update_without_returning :
  (sca <- parseScaffoldCommandArgs asciiOnly
            {| noExistsClauseFlag := false; idColumnFlag := "id";
               orderByFlag := ""; noReturningClauseFlag := true;
               onlyFlag := "" |}
            ["a/b"; "@id"; "n@text"];;
   writeUpdateQuery sca)
  = Ok ("-- name: UpdateA :exec" ++ nl
        ++ "UPDATE b" ++ nl
        ++ "SET" ++ nl
        ++ "  n = ?" ++ nl
        ++ "WHERE id = ?;").
Proof. reflexivity. Qed.

(** C1 as stated fails: the call [a/b @id k@text@id n@text] is accepted, and
    two of its parsed columns are identifier columns. *)
Lemma two_identifier_columns_accepted :
  exists sca : scaffoldCommandArgs,
    parseScaffoldCommandArgs asciiOnly defaultFlags twoKeysCall = Ok sca
    /\ List.length (filter ID (Columns sca)) = 2%nat.
Proof. eexists. split; reflexivity. Qed.

(** C2 at the flag [-id-column ID]: neither [ID] nor [id] is the identifier
    column, and [Id] is one under the default flag. *)
Theorem id_column_flag_compared_as_given
  (To : unicode.Case -> utf8.rune -> utf8.rune) :
  parseColumnDefinition To (withIdColumn "ID") "ID:INTEGER"
  = Ok {| Name := "ID"; Type_ := "INTEGER"; Constraint := ""; ID := false |}
  /\ parseColumnDefinition To (withIdColumn "ID") "id:INTEGER"
     = Ok {| Name := "id"; Type_ := "INTEGER"; Constraint := ""; ID := false |}
  /\ parseColumnDefinition To (withIdColumn "id") "Id:INTEGER"
     = Ok {| Name := "Id"; Type_ := "INTEGER"; Constraint := ""; ID := true |}.
Proof. repeat split; reflexivity. Qed.

Lemma smart_identifier_column_witness :
  plainName "pk" = true
  /\ Forall (fun t => knownTag t = true) ["text"; "id"]
  /\ mem "id" ["text"; "id"] = true
  /\ mem "unique" ["text"; "id"] = false
  /\ mem "null" ["text"; "id"] = false
  /\ parseColumnDefinition asciiOnly defaultFlags "pk@text@id"
     = Ok {| Name := "pk"; Type_ := "TEXT";
             Constraint := "NOT NULL PRIMARY KEY"; ID := true |}.
Proof.
  assert (Hknown : Forall (fun t => knownTag t = true) ["text"; "id"])
    by (repeat constructor).
  split; [reflexivity|]. split; [exact Hknown|].
  do 3 (split; [reflexivity|]).
  exact (proj1 (proj2 (smart_identifier_column asciiOnly defaultFlags "pk"
                         ["text"; "id"] eq_refl Hknown eq_refl eq_refl
                         eq_refl))).
Defined.

Lemma smart_plain_column_witness :
  plainName "col" = true
  /\ Forall (fun t => knownTag t = true) ["text"; "unique"]
  /\ mem "id" ["text"; "unique"] = false
  /\ parseColumnDefinition asciiOnly defaultFlags "col@text@unique"
     = Ok {| Name := "col"; Type_ := "TEXT"; Constraint := "NOT NULL UNIQUE";
             ID := false |}.
Proof.
  assert (Hknown : Forall (fun t => knownTag t = true) ["text"; "unique"])
    by (repeat constructor).
  split; [reflexivity|]. split; [exact Hknown|]. split; [reflexivity|].
  apply (proj1 (proj2 (smart_plain_column asciiOnly defaultFlags "col"
                         ["text"; "unique"] eq_refl Hknown eq_refl))).
  intros Hnone. inversion Hnone as [|? ? Htext _]. discriminate Htext.
Defined.

Lemma parseColumn_rejects_witness :
  (strings.Contains "a:b:c:d" ":" = true
   /\ strings.Contains "a:b:c:d" "@" = false
   /\ 3 < List.length (strings.Split "a:b:c:d" ":"))%nat
  /\ exists e : error,
       parseColumnDefinition asciiOnly defaultFlags "a:b:c:d" = Err e
       /\ errors_Is e errBadArgument = true.
Proof.
  assert (H : (3 < List.length (strings.Split "a:b:c:d" ":"))%nat)
    by (simpl; lia).
  split; [split; [reflexivity|split; [reflexivity|exact H]]|].
  apply (parseColumn_rejects asciiOnly defaultFlags "a:b:c:d").
  right. right. repeat split; try reflexivity. right. left. exact H.
Defined.

Lemma update_mode_and_returning_witness :
  IDColumn authorArgs
  = Some {| Name := "id"; Type_ := "INTEGER"; Constraint := "PRIMARY KEY";
            ID := true |}
  /\ exists statement : string,
       writeUpdateQuery authorArgs
       = Ok ("-- name: UpdateAuthor :one" ++ nl ++ statement)
       /\ HasPrefix statement "UPDATE " = true
       /\ HasSuffix statement "RETURNING *;" = true.
Proof.
  split; [reflexivity|].
  exact (update_mode_and_returning authorArgs _ eq_refl).
Defined.

Lemma query_templates_in_order_witness :
  has (Output authorArgs) outputQueries = true
  /\ singleLineFields authorArgs = true
  /\ exists out : string,
       scaffoldCommand authorArgs = Ok out
       /\ labels out
          = ["-- name: GetAuthor :one"; "-- name: ListAuthors :many";
             "-- name: CreateAuthor :one"; "-- name: DeleteAuthor :exec";
             "-- name: UpdateAuthor :one"].
Proof.
  split; [reflexivity|]. split; [reflexivity|].
  destruct (query_templates_in_order authorArgs eq_refl)
    as (out & Hrun & _ & Hlabels).
  exists out. split; [exact Hrun|exact (Hlabels eq_refl)].
Defined.

(* ------------------------------------------------------------------ *)
(** ** Failures of the parser *)

Lemma scanTags_okOrBadArgument (s : string) (tags : list string) :
  forall v : tagVars, okOrBadArgument (scanTags s tags v).
Proof.
  induction tags as [|tag rest IH]; intros v; [exact I|].
  cbn [scanTags].
  repeat match goal with
         | |- context [if ?c then _ else _] => destruct c; [apply IH|]
         end.
  reflexivity.
Qed.

Lemma parseSmart_okOrBadArgument (s : string) :
  okOrBadArgument (parseSmartColumnDefinition s).
Proof.
  unfold parseSmartColumnDefinition.
  destruct (s =? "@id"); [exact I|].
  destruct (strings.Cut s smartColumnSep) as [[name rest] found].
  destruct (name =? ""); [reflexivity|].
  pose proof (scanTags_okOrBadArgument s (strings.Split rest smartColumnSep)
                {| colType := ""; id := false; null := false;
                   unique := false |}) as Hscan.
  destruct (scanTags _ _ _) as [v|e|]; cbn [bind]; [|exact Hscan|exact Hscan].
  destruct (id v).
  - destruct (unique v || null v); [reflexivity|exact I].
  - destruct (colType v =? ""); [reflexivity|exact I].
Qed.

Section ParserFailures.

Variable To : unicode.Case -> utf8.rune -> utf8.rune.
Variable F : flags.

Lemma parsePlain_okOrBadArgument (s : string) :
  okOrBadArgument (parsePlainColumnDefinition To F s).
Proof.
  unfold parsePlainColumnDefinition.
  destruct (_ || _); [reflexivity|].
  destruct (_ =? _)%nat; exact I.
Qed.

Lemma parseColumnDefinition_okOrBadArgument (s : string) :
  okOrBadArgument (parseColumnDefinition To F s).
Proof.
  unfold parseColumnDefinition.
  destruct (strings.Contains s plainColumnSep),
    (strings.Contains s smartColumnSep); cbn [andb];
    first [ reflexivity | apply parsePlain_okOrBadArgument
          | apply parseSmart_okOrBadArgument ].
Qed.


Lemma parseColumns_failure (raws : list string) :
  forall (sca0 : scaffoldCommandArgs) (e : error),
    parseColumns To F raws sca0 = Err e -> badArgument e = true.
Proof.
  induction raws as [|raw raws IH]; intros sca0 e H; [discriminate|].
  simpl in H.
  pose proof (parseColumnDefinition_okOrBadArgument raw) as Hraw.
  destruct (parseColumnDefinition To F raw) as [col|e'|]; simpl in H.
  - now apply IH in H.
  - injection H as <-. exact Hraw.
  - discriminate.
Qed.

Lemma parseScaffoldCommandArgs_failure (args : list string) (e : error) :
  parseScaffoldCommandArgs To F args = Err e -> badArgument e = true.
Proof.
  unfold parseScaffoldCommandArgs. destruct args as [|arg0 raws].
  - intros [= <-]. reflexivity.
  - destruct (_ || _); [intros [= <-]; reflexivity|].
    pose proof (upperCamelCase_never_fails To (at_ (strings.Split arg0 "/") 0))
      as H0.
    pose proof (upperCamelCase_never_fails To (at_ (strings.Split arg0 "/") 1))
      as H1.
    destruct (upperCamelCase To (at_ (strings.Split arg0 "/") 0))
      as [singular|e0|]; cbn [bind]; [|now destruct (H0 e0)|discriminate].
    destruct (upperCamelCase To (at_ (strings.Split arg0 "/") 1))
      as [plural|e1|]; cbn [bind]; [|now destruct (H1 e1)|discriminate].
    destruct (onlyFlag F =? "schema"); [apply parseColumns_failure|].
    destruct (onlyFlag F =? "queries"); [apply parseColumns_failure|].
    destruct (onlyFlag F =? ""); [apply parseColumns_failure|].
    intros [= <-]. reflexivity.
Qed.

(** X2.  Every error of [parseScaffoldCommandArgs], whatever the flags and
    the arguments, wraps [errBadArgument] and has a text that starts with
    [bad argument: ]. *)
Theorem parser_failures_are_bad_arguments (args : list string) (e : error) :
  parseScaffoldCommandArgs To F args = Err e ->
  errors_Is e errBadArgument = true
  /\ HasPrefix (error_text e) "bad argument: " = true.
Proof.
  intros H. apply parseScaffoldCommandArgs_failure in H.
  unfold badArgument in H. now apply andb_true_iff in H.
Qed.

End ParserFailures.

(* ------------------------------------------------------------------ *)
(** ** The command: exit status *)

Lemma scaffoldCommand_returns (args : scaffoldCommandArgs) :
  exists text : string, scaffoldCommand args = Ok text.
Proof.
  unfold scaffoldCommand, writeGetQuery, writeDeleteQuery, writeUpdateQuery,
    IDColumn_Name.
  destruct (IDColumn args), (has (Output args) outputQueries);
    cbn [bind is_nil negb]; eexists; reflexivity.
Qed.

(** X3.  [scaffoldCommand] returns its text for every argument value, also
    one with a nil [IDColumn]: the templates that read [IDColumn.Name] are
    written only behind the test [IDColumn != nil], so it neither panics nor
    fails. *)
Theorem scaffoldCommand_never_panics (args : scaffoldCommandArgs) :
  (exists text : string, scaffoldCommand args = Ok text)
  /\ (IDColumn args = None ->
      writeGetQuery args = Panic /\ writeDeleteQuery args = Panic
      /\ writeUpdateQuery args = Panic).
Proof.
  split; [apply scaffoldCommand_returns|].
  intros Hnil. unfold writeGetQuery, writeDeleteQuery, writeUpdateQuery,
    IDColumn_Name. rewrite Hnil. auto.
Qed.

Section CommandExit.

Variable To : unicode.Case -> utf8.rune -> utf8.rune.
Variables usage flagDefaults program : string.


End CommandExit.

(* ------------------------------------------------------------------ *)
(** ** The argument parser: the fields it sets *)

Lemma max_as_written (a b : Z) : (if (a <? b)%Z then b else a) = Z.max a b.
Proof. destruct (Z.ltb_spec a b); lia. Qed.

Lemma longest_from (field : column -> string) (cols : list column) :
  forall m : Z,
    (m <= fold_left (fun m c => Z.max m (len (field c))) cols m)%Z
    /\ Forall (fun c => (len (field c)
                         <= fold_left (fun m c => Z.max m (len (field c)))
                              cols m)%Z) cols.
Proof.
  induction cols as [|c cols IH]; intros m; simpl.
  - split; [lia|constructor].
  - destruct (IH (Z.max m (len (field c)))) as [Hm Hall].
    split; [lia|]. constructor; [lia|exact Hall].
Qed.

Section ParsedFields.

Variable To : unicode.Case -> utf8.rune -> utf8.rune.
Variable F : flags.

(** The loop over the raw definitions leaves the name, the options and the
    output mode as they are, and raises [LongestName] and [LongestType] to
    the longest name and type it saw. *)
Lemma parseColumns_fields (raws : list string) :
  forall sca0 sca : scaffoldCommandArgs,
    parseColumns To F raws sca0 = Ok sca ->
    Table sca = Table sca0
    /\ SingularEntity sca = SingularEntity sca0
    /\ PluralEntity sca = PluralEntity sca0
    /\ NoExistsClause sca = NoExistsClause sca0
    /\ OrderBy sca = OrderBy sca0
    /\ NoReturningClause sca = NoReturningClause sca0
    /\ Output sca = Output sca0
    /\ exists cols : list column,
         Columns sca = (Columns sca0 ++ cols)%list
         /\ LongestName sca
            = fold_left (fun m c => Z.max m (len (Name c))) cols
                (LongestName sca0)
         /\ LongestType sca
            = fold_left (fun m c => Z.max m (len (Type_ c))) cols
                (LongestType sca0).
Proof.
  induction raws as [|raw raws IH]; intros sca0 sca H; simpl in H.
  - injection H as <-. repeat (split; [reflexivity|]).
    exists []. rewrite app_nil_r. auto.
  - destruct (parseColumnDefinition To F raw) as [col|e|]; simpl in H;
      try discriminate.
    apply IH in H as (Ht & Hs & Hp & Hn & Ho & Hr & Hout & cols & Hc & Hl & Hy).
    simpl in *. rewrite !max_as_written in *.
    repeat (split; [assumption|]).
    exists (col :: cols). rewrite Hc, <- app_assoc. simpl. auto.
Qed.

(** A call that returns has split [args[0]] at its one slash into two
    non-empty halves, turned both into entity names without a panic, read a
    valid [-only] value and run the loop from [startArgs]. *)
Lemma parseScaffoldCommandArgs_start (args : list string)
  (sca : scaffoldCommandArgs) :
  parseScaffoldCommandArgs To F args = Ok sca ->
  exists singular plural : string,
    hd "" args = singular ++ "/" ++ plural
    /\ singular <> "" /\ plural <> ""
    /\ strings.Contains singular "/" = false
    /\ strings.Contains plural "/" = false
    /\ validOnly (onlyFlag F) = true
    /\ exists singularName pluralName : string,
         upperCamelCase To singular = Ok singularName
         /\ upperCamelCase To plural = Ok pluralName
         /\ parseColumns To F (tl args)
              (startArgs F plural singularName pluralName) = Ok sca.
Proof.
  unfold parseScaffoldCommandArgs. destruct args as [|arg0 raws]; [discriminate|].
  pose proof (Split_concat arg0 "/") as Hjoin.
  pose proof (Split_pieces_clean arg0 "/") as Hclean.
  destruct (strings.Split arg0 "/") as [|s [|p [|q rest]]]; try discriminate.
  cbn [List.length Nat.eqb negb orb at_ nth].
  unfold len.
  destruct s as [|s0 s]; [discriminate|]. destruct p as [|p0 p]; [discriminate|].
  cbn [String.length orb]. change (Z.of_nat (S ?n) =? 0)%Z with false.
  cbn [orb].
  apply Forall_cons_iff in Hclean as [Hs Hrest].
  apply Forall_cons_iff in Hrest as [Hp _].
  destruct (upperCamelCase To (String s0 s)) as [singularName|?|] eqn:Hsing;
    cbn [bind]; try discriminate.
  destruct (upperCamelCase To (String p0 p)) as [pluralName|?|] eqn:Hplur;
    cbn [bind]; try discriminate.
  intros H. exists (String s0 s), (String p0 p).
  split; [now rewrite <- Hjoin|]. do 4 (split; [easy|]).
  unfold validOnly, startArgs, outputOf.
  destruct (onlyFlag F =? "schema");
    [|destruct (onlyFlag F =? "queries");
      [|destruct (onlyFlag F =? ""); [|discriminate]]];
    (split; [reflexivity|]); exists singularName, pluralName;
    (split; [exact Hsing|split; [exact Hplur|exact H]]).
Qed.

End ParsedFields.

Lemma len_app (a b : string) : len (a ++ b) = (len a + len b)%Z.
Proof.
  unfold len. induction a as [|x a IH]; simpl String.length; [lia|].
  rewrite !Nat2Z.inj_succ, IH. lia.
Qed.

Lemma len_pad (no : Z) : len (pad no) = Z.max 0 no.
Proof.
  unfold len, pad.
  assert (H : forall n, String.length (spaces n) = n).
  { induction n as [|n IH]; simpl; [reflexivity|now rewrite IH]. }
  rewrite H. lia.
Qed.

Section ParsedFieldsTheorems.

Variable To : unicode.Case -> utf8.rune -> utf8.rune.
Variable F : flags.

Lemma longest_fields_bounds (args : list string) (sca : scaffoldCommandArgs) :
  parseScaffoldCommandArgs To F args = Ok sca ->
  (LongestName sca = longest Name (Columns sca)
   /\ LongestType sca = longest Type_ (Columns sca))
  /\ Forall (fun c => (len (Name c) <= LongestName sca)%Z
                      /\ (len (Type_ c) <= LongestType sca)%Z) (Columns sca).
Proof.
  intros H.
  apply parseScaffoldCommandArgs_start in H
    as (_ & plural & _ & _ & _ & _ & _ & _ & sn & pn & _ & _ & Hloop).
  apply parseColumns_fields in Hloop
    as (_ & _ & _ & _ & _ & _ & _ & cols & Hc & Hl & Hy).
  simpl in Hc, Hl, Hy. subst cols. unfold longest.
  split; [now split|].
  rewrite Hl, Hy.
  destruct (longest_from Name (Columns sca) 0) as [_ Hn].
  destruct (longest_from Type_ (Columns sca) 0) as [_ Ht].
  rewrite Forall_forall in *. intros c Hin. split; [now apply Hn|now apply Ht].
Qed.

(** X5.  In what the parser returns, the table name is the plural half of
    the first argument as written, the two entity names are the halves in
    upper camel case, the options are the values of the flags and the output
    mode is the one [-only] names, whatever the columns are. *)
Theorem parsed_options_from_flags (args : list string)
  (sca : scaffoldCommandArgs) :
  parseScaffoldCommandArgs To F args = Ok sca ->
  exists singular plural : string,
    hd "" args = singular ++ "/" ++ plural
    /\ Table sca = plural
    /\ upperCamelCase To singular = Ok (SingularEntity sca)
    /\ upperCamelCase To plural = Ok (PluralEntity sca)
    /\ NoExistsClause sca = noExistsClauseFlag F
    /\ OrderBy sca = orderByFlag F
    /\ NoReturningClause sca = noReturningClauseFlag F
    /\ Output sca = outputOf (onlyFlag F)
    /\ validOnly (onlyFlag F) = true.
Proof.
  intros H.
  apply parseScaffoldCommandArgs_start in H
    as (singular & plural & Hhd & _ & _ & _ & _ & Hvalid
        & singularName & pluralName & Hs & Hp & Hloop).
  apply parseColumns_fields in Hloop
    as (Ht & Hse & Hpe & Hn & Ho & Hr & Hout & _).
  simpl in *. exists singular, plural.
  rewrite Ht, Hse, Hpe, Hn, Ho, Hr, Hout. auto 10.
Qed.

(** X6.  In what the parser returns, [LongestName] and [LongestType] are the
    lengths of the longest name and of the longest type among [Columns]
    ([0] without columns), so no name or type is longer. *)
Theorem longest_fields (args : list string) (sca : scaffoldCommandArgs) :
  parseScaffoldCommandArgs To F args = Ok sca ->
  LongestName sca = longest Name (Columns sca)
  /\ LongestType sca = longest Type_ (Columns sca)
  /\ Forall (fun c => (len (Name c) <= LongestName sca)%Z
                      /\ (len (Type_ c) <= LongestType sca)%Z) (Columns sca).
Proof.
  intros H. destruct (longest_fields_bounds args sca H) as [[Hl Hy] Hall].
  auto.
Qed.

(** X7.  In the [CREATE TABLE] statement of a parsed call, the type of every
    column starts [LongestName + 3] bytes into its line, and a constraint,
    when there is one, starts [LongestType + 1] bytes after the start of
    the type: the columns are aligned. *)
Theorem schema_columns_aligned (args : list string)
  (sca : scaffoldCommandArgs) (ci : Z) (c : column) :
  parseScaffoldCommandArgs To F args = Ok sca ->
  In c (Columns sca) ->
  exists lead tail : string,
    writeSchemaColumn sca ci c = lead ++ Type_ c ++ tail
    /\ len lead = (LongestName sca + 3)%Z
    /\ (Constraint c <> "" ->
        exists gap rest : string,
          tail = gap ++ Constraint c ++ rest
          /\ len (Type_ c ++ gap) = (LongestType sca + 1)%Z).
Proof.
  intros H Hin.
  destruct (longest_fields_bounds args sca H) as [_ Hall].
  rewrite Forall_forall in Hall. destruct (Hall c Hin) as [Hn Ht].
  exists ("  " ++ Name c ++ " " ++ pad (LongestName sca - len (Name c))).
  exists ((if negb (Constraint c =? "")
           then pad (LongestType sca - len (Type_ c)) ++ " " ++ Constraint c
           else "")
          ++ (if (ci <? count (Columns sca) - 1)%Z then "," else "") ++ nl).
  split; [unfold writeSchemaColumn; now rewrite ?append_assoc|].
  split.
  - rewrite !len_app, len_pad. change (len "  ") with 2%Z.
    change (len " ") with 1%Z. lia.
  - intros Hc. apply String.eqb_neq in Hc. rewrite Hc. cbn [negb].
    exists (pad (LongestType sca - len (Type_ c)) ++ " ").
    exists ((if (ci <? count (Columns sca) - 1)%Z then "," else "") ++ nl).
    split; [now rewrite ?append_assoc|].
    rewrite !len_app, len_pad. change (len " ") with 1%Z. lia.
Qed.

End ParsedFieldsTheorems.

(* ------------------------------------------------------------------ *)
(** ** The statement formatter: the loops in closed form *)

Lemma writeSchemaColumn_text (args : scaffoldCommandArgs) (ci : Z)
  (col : column) :
  writeSchemaColumn args ci col
  = schemaColumnText args col
    ++ (if (ci <? count (Columns args) - 1)%Z then "," else "") ++ nl.
Proof. unfold writeSchemaColumn, schemaColumnText. now rewrite ?append_assoc. Qed.

Lemma writeSchemaColumns_join (args : scaffoldCommandArgs)
  (cols : list column) :
  cols <> [] ->
  forall ci : Z,
    count (Columns args) = (ci + count cols)%Z ->
    writeSchemaColumns args ci cols
    = String.concat ("," ++ nl) (map (schemaColumnText args) cols) ++ nl.
Proof.
  induction cols as [|c cols IH]; [congruence|]. intros _ ci Hn.
  change (writeSchemaColumns args ci (c :: cols))
    with (writeSchemaColumn args ci c
          ++ writeSchemaColumns args (ci + 1) cols).
  rewrite writeSchemaColumn_text, Hn, count_cons.
  pose proof (count_nonneg cols) as Hpos.
  destruct cols as [|c' cols].
  - replace (ci <? ci + (1 + count []) - 1)%Z with false
      by (symmetry; apply Z.ltb_ge; unfold count; simpl; lia).
    simpl. now rewrite append_empty_r.
  - pose proof (count_nonneg cols) as Hpos'.
    replace (ci <? ci + (1 + count (c' :: cols)) - 1)%Z with true
      by (symmetry; apply Z.ltb_lt; rewrite (count_cons c'); lia).
    rewrite IH; [|discriminate|rewrite Hn, count_cons; lia].
    change (String.concat ("," ++ nl)
              (map (schemaColumnText args) (c :: c' :: cols)))
      with (schemaColumnText args c ++ ("," ++ nl)
            ++ String.concat ("," ++ nl)
                 (map (schemaColumnText args) (c' :: cols))).
    now rewrite ?append_assoc.
Qed.

(** X8.  The [CREATE TABLE] statement lists the columns in the order of
    [Columns], one per line, with a comma after every line but the last;
    without columns the parentheses hold nothing. *)
Theorem schema_statement_text (args : scaffoldCommandArgs) :
  writeSchema args
  = "CREATE TABLE "
    ++ (if NoExistsClause args then "" else "IF NOT EXISTS ")
    ++ Table args ++ " (" ++ nl
    ++ match Columns args with
       | [] => ""
       | _ :: _ =>
         String.concat ("," ++ nl) (map (schemaColumnText args) (Columns args))
         ++ nl
       end
    ++ ");".
Proof.
  unfold writeSchema.
  replace (if negb (NoExistsClause args) then "IF NOT EXISTS " else "")
    with (if NoExistsClause args then "" else "IF NOT EXISTS ")
    by now destruct (NoExistsClause args).
  do 5 f_equal.
  destruct (Columns args) as [|c cols] eqn:E; [reflexivity|].
  rewrite <- E. f_equal. apply writeSchemaColumns_join.
  - rewrite E. discriminate.
  - lia.
Qed.

Lemma marks_join (c : column) (cs : list column) :
  marks (List.length cs) = String.concat ", " (map (fun _ => "?") (c :: cs)).
Proof.
  revert c. induction cs as [|c' cs IH]; intros c; [reflexivity|].
  change (marks (List.length (c' :: cs)))
    with ("?, " ++ marks (List.length cs)).
  rewrite (IH c'). reflexivity.
Qed.

(** X9.  The INSERT template names the columns of [NonIDColumns] in order,
    separated by [, ], and has as many [?] as it names columns; without such
    columns both lists are empty. *)
Theorem insert_statement_text (args : scaffoldCommandArgs) :
  writeCreateQuery args
  = "-- name: Create" ++ SingularEntity args ++ " :one" ++ nl
    ++ "INSERT INTO " ++ Table args ++ " (" ++ nl
    ++ "  "
    ++ match NonIDColumns args with
       | [] => ""
       | _ :: _ => String.concat ", " (map Name (NonIDColumns args)) ++ nl
       end
    ++ ") VALUES (" ++ nl
    ++ "  "
    ++ match NonIDColumns args with
       | [] => ""
       | _ :: _ =>
         String.concat ", " (map (fun _ => "?") (NonIDColumns args)) ++ nl
       end
    ++ ")" ++ nl
    ++ "RETURNING *;".
Proof.
  unfold writeCreateQuery.
  destruct (NonIDColumns args) as [|c cs]; [reflexivity|].
  change (count (c :: cs)) with (0 + count (c :: cs))%Z at 1.
  rewrite writeCreateNames_line by discriminate.
  change (count (c :: cs)) with (0 + Z.of_nat (S (List.length cs)))%Z.
  change (List.length (c :: cs)) with (S (List.length cs)).
  rewrite writeCreateMarks_line, (marks_join c cs).
  reflexivity.
Qed.

Lemma writeUpdateSets_join (cols : list column) :
  cols <> [] ->
  forall i : Z,
    writeUpdateSets (i + count cols) i cols
    = String.concat ("," ++ nl) (map (fun c => "  " ++ Name c ++ " = ?") cols)
      ++ nl.
Proof.
  induction cols as [|c cols IH]; [congruence|]. intros _ i.
  change (writeUpdateSets (i + count (c :: cols)) i (c :: cols))
    with ((if (i <? i + count (c :: cols) - 1)%Z
           then "  " ++ Name c ++ " = ?," ++ nl
           else "  " ++ Name c ++ " = ?" ++ nl)
          ++ writeUpdateSets (i + count (c :: cols)) (i + 1) cols).
  pose proof (count_nonneg cols) as Hpos. rewrite count_cons.
  destruct cols as [|c' cols].
  - replace (i <? i + (1 + count []) - 1)%Z with false
      by (symmetry; apply Z.ltb_ge; unfold count; simpl; lia).
    cbn [writeUpdateSets map String.concat].
    now rewrite ?append_assoc, append_empty_r.
  - pose proof (count_nonneg cols) as Hpos'.
    replace (i <? i + (1 + count (c' :: cols)) - 1)%Z with true
      by (symmetry; apply Z.ltb_lt; rewrite (count_cons c'); lia).
    replace (i + (1 + count (c' :: cols)))%Z
      with (i + 1 + count (c' :: cols))%Z by lia.
    rewrite IH by discriminate.
    change (String.concat ("," ++ nl)
              (map (fun c => "  " ++ Name c ++ " = ?") (c :: c' :: cols)))
      with (("  " ++ Name c ++ " = ?") ++ ("," ++ nl)
            ++ String.concat ("," ++ nl)
                 (map (fun c => "  " ++ Name c ++ " = ?") (c' :: cols))).
    now rewrite ?append_assoc.
Qed.

(** X10.  With an identifier column, the UPDATE template sets the columns
    of [NonIDColumns] in order, one [name = ?] per line with a comma after
    every line but the last, and selects the row by the name of
    [IDColumn]. *)
Theorem update_statement_text (args : scaffoldCommandArgs) (idc : column) :
  IDColumn args = Some idc ->
  writeUpdateQuery args
  = Ok ("-- name: Update" ++ SingularEntity args ++ " "
        ++ (if NoReturningClause args then ":exec" else ":one") ++ nl
        ++ "UPDATE " ++ Table args ++ nl
        ++ "SET" ++ nl
        ++ match NonIDColumns args with
           | [] => ""
           | _ :: _ =>
             String.concat ("," ++ nl)
               (map (fun c => "  " ++ Name c ++ " = ?") (NonIDColumns args))
             ++ nl
           end
        ++ "WHERE " ++ Name idc ++ " = ?"
        ++ (if NoReturningClause args then ";" else nl ++ "RETURNING *;")).
Proof.
  intros Hid. unfold writeUpdateQuery, IDColumn_Name. rewrite Hid.
  cbn [bind].
  destruct (NonIDColumns args) as [|c cs], (NoReturningClause args);
    cbn [negb]; try reflexivity;
    change (count (c :: cs)) with (0 + count (c :: cs))%Z;
    now rewrite writeUpdateSets_join by discriminate.
Qed.

(* ------------------------------------------------------------------ *)
(** ** Smart columns: what is rejected, and the shape of what is returned *)

Lemma scanTags_known_step (s tag : string) (rest : list string) (v : tagVars) :
  knownTag tag = true ->
  exists v' : tagVars, scanTags s (tag :: rest) v = scanTags s rest v'.
Proof.
  intros Hk. apply knownTag_inv in Hk. unfold tagNames in Hk. simpl in Hk.
  repeat (destruct Hk as [<-|Hk]); try contradiction;
    cbn [scanTags String.eqb Ascii.eqb Bool.eqb]; eexists; reflexivity.
Qed.

Lemma scanTags_unknown (s : string) (tags : list string) (tag : string) :
  firstUnknownTag tags = Some tag ->
  forall v : tagVars,
    scanTags s tags v
    = Err (Errorf_w errInvalidSmartColumn
             (": '" ++ s ++ "', unknown <tag> #" ++ tag)).
Proof.
  unfold firstUnknownTag.
  induction tags as [|t rest IH]; [discriminate|]. simpl find. intros H v.
  destruct (knownTag t) eqn:Hk; simpl in H.
  - destruct (scanTags_known_step s t rest v Hk) as [v' ->]. now apply IH.
  - injection H as <-. unfold knownTag, typeKeyword in Hk.
    cbn [scanTags].
    repeat match goal with
           | |- context [String.eqb t ?l] =>
             destruct (String.eqb t l); [simpl in Hk; discriminate|]
           end.
    reflexivity.
Qed.

Lemma Cut_before_clean (s : string) (c : ascii) :
  strings.Contains (fst (fst (strings.Cut s c))) c = false.
Proof.
  induction s as [|x s IH]; [reflexivity|]. simpl.
  destruct (Ascii.eqb x c) eqn:E; [reflexivity|].
  destruct (strings.Cut s c) as [[before after] found]. simpl in *.
  now rewrite E, IH.
Qed.

(** The text before the cut holds no byte that the whole string lacks. *)
Lemma Cut_before_within (s : string) (c d : ascii) :
  strings.Contains s d = false ->
  strings.Contains (fst (fst (strings.Cut s c))) d = false.
Proof.
  induction s as [|x s IH]; [reflexivity|]. simpl. intros H.
  apply orb_false_iff in H as [Hx Hs].
  destruct (Ascii.eqb x c); [reflexivity|].
  specialize (IH Hs). destruct (strings.Cut s c) as [[before after] found].
  simpl in *. now rewrite Hx, IH.
Qed.

Lemma scanTags_colType (s : string) (tags : list string) :
  forall v v' : tagVars,
    scanTags s tags v = Ok v' ->
    In (colType v) ("" :: typeKeywords) ->
    In (colType v') ("" :: typeKeywords).
Proof.
  induction tags as [|tag rest IH]; intros v v' H Hin.
  - injection H as <-. exact Hin.
  - cbn [scanTags] in H.
    repeat match type of H with
           | (if ?c then _ else _) = _ =>
             destruct c;
             [apply IH in H; [exact H|cbn [colType typeKeywords In]; tauto]|]
           end.
    discriminate.
Qed.

Lemma parseSmart_shape (s : string) (col : column) :
  parseSmartColumnDefinition s = Ok col ->
  Name col <> ""
  /\ strings.Contains (Name col) "@" = false
  /\ In (Type_ col) typeKeywords
  /\ (ID col = true ->
      Constraint col = if Type_ col =? "INTEGER" then "PRIMARY KEY"
                       else "NOT NULL PRIMARY KEY")
  /\ (ID col = false -> In (Constraint col) plainConstraints).
Proof.
  unfold parseSmartColumnDefinition.
  destruct (s =? "@id").
  { intros [= <-]. cbn. repeat split; try discriminate; try tauto. }
  pose proof (Cut_before_clean s smartColumnSep) as Hclean.
  destruct (strings.Cut s smartColumnSep) as [[name rest] found].
  simpl in Hclean.
  destruct (String.eqb_spec name "") as [|Hname]; [discriminate|].
  destruct (scanTags s (strings.Split rest smartColumnSep)
              {| colType := ""; id := false; null := false; unique := false |})
    as [v|e|] eqn:Hscan; cbn [bind]; try discriminate.
  apply scanTags_colType in Hscan; [|cbn; tauto].
  destruct (id v).
  - destruct (unique v || null v); [discriminate|]. intros [= <-].
    cbn [Name Type_ Constraint ID].
    split; [exact Hname|]. split; [exact Hclean|].
    destruct (String.eqb_spec (colType v) "") as [E|E].
    + repeat split; try discriminate. cbn. tauto.
    + split; [destruct Hscan as [Hs|Hs]; [congruence|exact Hs]|].
      split; [|discriminate]. intros _.
      now destruct (colType v =? "INTEGER").
  - destruct (String.eqb_spec (colType v) "") as [E|E]; [discriminate|].
    intros [= <-]. cbn [Name Type_ Constraint ID].
    split; [exact Hname|]. split; [exact Hclean|].
    split; [destruct Hscan as [Hs|Hs]; [congruence|exact Hs]|].
    split; [discriminate|]. intros _.
    destruct (null v), (unique v); cbn; tauto.
Qed.

(** X11.  Whatever the string, a column that [parseSmartColumnDefinition]
    returns has a name that is not empty, one of the six SQL types of the
    type tags, and a constraint fixed by its kind: an identifier column has
    [PRIMARY KEY], after [NOT NULL] exactly when its type is not [INTEGER];
    another column has [NOT NULL], [NOT NULL UNIQUE], [UNIQUE] or none. *)
Theorem smart_column_shape (s : string) (col : column) :
  parseSmartColumnDefinition s = Ok col ->
  Name col <> ""
  /\ strings.Contains (Name col) "@" = false
  /\ In (Type_ col) typeKeywords
  /\ (ID col = true ->
      Constraint col = if Type_ col =? "INTEGER" then "PRIMARY KEY"
                       else "NOT NULL PRIMARY KEY")
  /\ (ID col = false -> In (Constraint col) plainConstraints).
Proof.
  apply parseSmart_shape.
Qed.

Section SmartColumns.

Variable To : unicode.Case -> utf8.rune -> utf8.rune.
Variable F : flags.

(** X12.  A named smart column that combines the [id] tag with [unique] or
    [null] is rejected with the error of that combination. *)
Theorem id_with_unique_or_null_rejected (name : string) (tags : list string) :
  plainName name = true ->
  Forall (fun t => knownTag t = true) tags ->
  mem "id" tags = true ->
  mem "unique" tags || mem "null" tags = true ->
  parseColumnDefinition To F (smartColumn name tags)
  = Err (Errorf_w errInvalidSmartColumn
           (": '" ++ smartColumn name tags
            ++ "', cannot combine @id with @unique or @null")).
Proof.
  intros Hname Hknown Hid Hcombined.
  destruct (smartColumn_separators _ _ Hname Hknown) as [Hc Ha].
  rewrite (parseColumnDefinition_smart To F _ Hc Ha).
  rewrite parseSmart_known; try assumption.
  - now rewrite Hid, Hcombined.
  - intros ->. discriminate.
Qed.

(** X13.  A named smart column with a tag that is not in the tag table is
    rejected, and the error names the first such tag; a name followed by
    [@] alone has the empty tag, which is not in the table. *)
Theorem unknown_tag_rejected (name : string) (tags : list string)
  (tag : string) :
  plainName name = true ->
  Forall (fun t => strings.Contains t "@" = false
                   /\ strings.Contains t ":" = false) tags ->
  firstUnknownTag tags = Some tag ->
  parseColumnDefinition To F (smartColumn name tags)
  = Err (Errorf_w errInvalidSmartColumn
           (": '" ++ smartColumn name tags ++ "', unknown <tag> #" ++ tag)).
Proof.
  intros Hname Hclean Hunknown.
  pose proof (plainName_inv _ Hname) as (Hnn & Hcolon & Hat).
  assert (Hne : tags <> []) by (intros ->; discriminate).
  assert (Hats : Forall (fun t => strings.Contains t "@" = false) tags)
    by (eapply Forall_impl; [|exact Hclean]; now intros t [H _]).
  assert (Hcolons : Forall (fun t => strings.Contains t ":" = false) tags)
    by (eapply Forall_impl; [|exact Hclean]; now intros t [_ H]).
  rewrite parseColumnDefinition_smart.
  - unfold parseSmartColumnDefinition.
    rewrite (smartColumn_not_bare_id _ _ Hname).
    unfold smartColumn at 1.
    change (name ++ "@" ++ String.concat "@" tags)
      with (name ++ String smartColumnSep (String.concat "@" tags)).
    rewrite (Cut_first _ _ _ Hat).
    apply String.eqb_neq in Hnn. rewrite Hnn.
    change "@" with (String smartColumnSep "") at 1.
    rewrite Split_join by assumption.
    now rewrite (scanTags_unknown _ _ _ Hunknown).
  - unfold smartColumn. rewrite !Contains_app, Hcolon.
    now rewrite (Contains_join ":" "@" tags eq_refl Hcolons).
  - unfold smartColumn. rewrite !Contains_app, Hat. reflexivity.
Qed.

(** X14.  A definition that starts with [@] is rejected for its missing
    name, unless it is the token [@id] itself: [@id@text] and [@text] are
    errors. *)
Theorem smart_missing_name (rest : string) :
  rest <> "id" ->
  strings.Contains rest ":" = false ->
  parseColumnDefinition To F ("@" ++ rest)
  = Err (Errorf_w errInvalidSmartColumn
           (": '" ++ ("@" ++ rest) ++ "', missing <name>")).
Proof.
  intros Hrest Hcolon.
  rewrite parseColumnDefinition_smart; [|exact Hcolon|reflexivity].
  unfold parseSmartColumnDefinition.
  replace ("@" ++ rest =? "@id") with false; [reflexivity|].
  symmetry. apply String.eqb_neq. intros [= H]. now apply Hrest.
Qed.

(** X15.  A plain column gives its parts back: parsing [name:type] or
    [name:type:constraint] returns the name, the type and the constraint as
    they are written (no constraint for two parts), and marks the column as
    identifier when its name in lower case is the value of [-id-column] as
    given. *)
Theorem plain_column_verbatim (name ty cons : string) :
  plainName name = true ->
  strings.Contains ty ":" = false -> strings.Contains ty "@" = false ->
  strings.Contains cons ":" = false -> strings.Contains cons "@" = false ->
  parseColumnDefinition To F (name ++ ":" ++ ty)
  = Ok {| Name := name; Type_ := ty; Constraint := "";
          ID := strings.ToLower To name =? idColumnFlag F |}
  /\ parseColumnDefinition To F (name ++ ":" ++ ty ++ ":" ++ cons)
     = Ok {| Name := name; Type_ := ty; Constraint := cons;
             ID := strings.ToLower To name =? idColumnFlag F |}.
Proof. apply plain_column_fields. Qed.

(** X16.  Every smart column has a plain spelling: when a definition with
    [@] parses to a column, the plain definition written from that column's
    name, type and constraint parses to the same name, type and constraint.
    (The identifier mark of the plain form comes from the name, not from a
    tag.) *)
Theorem smart_column_plain_spelling (s : string) (col : column) :
  strings.Contains s "@" = true ->
  parseColumnDefinition To F s = Ok col ->
  parseColumnDefinition To F
    (Name col ++ ":" ++ Type_ col ++ ":" ++ Constraint col)
  = Ok {| Name := Name col; Type_ := Type_ col; Constraint := Constraint col;
          ID := strings.ToLower To (Name col) =? idColumnFlag F |}.
Proof.
  intros Hat Hparse.
  unfold parseColumnDefinition, smartColumnSep, plainColumnSep in Hparse.
  rewrite Hat in Hparse.
  destruct (strings.Contains s ":") eqn:Hcolon; [discriminate|].
  cbn [andb] in Hparse.
  assert (Hname_colon : strings.Contains (Name col) ":" = false).
  { revert Hparse. unfold parseSmartColumnDefinition.
    destruct (s =? "@id"); [now intros [= <-]|].
    pose proof (Cut_before_within s smartColumnSep ":" Hcolon) as Hin.
    destruct (strings.Cut s smartColumnSep) as [[name rest] found].
    simpl in Hin. destruct (name =? ""); [discriminate|].
    destruct (scanTags _ _ _) as [v|e|]; cbn [bind]; try discriminate.
    destruct (id v).
    - destruct (unique v || null v); [discriminate|]. now intros [= <-].
    - destruct (colType v =? ""); [discriminate|]. now intros [= <-]. }
  apply parseSmart_shape in Hparse as (Hnn & Hna & Hty & Hid & Hnid).
  assert (Hplain : plainName (Name col) = true).
  { unfold plainName. apply String.eqb_neq in Hnn.
    now rewrite Hnn, Hname_colon, Hna. }
  assert (Htype : strings.Contains (Type_ col) ":" = false
                  /\ strings.Contains (Type_ col) "@" = false).
  { unfold typeKeywords in Hty. simpl in Hty.
    repeat (destruct Hty as [<-|Hty]); try contradiction; now split. }
  assert (Hcons : strings.Contains (Constraint col) ":" = false
                  /\ strings.Contains (Constraint col) "@" = false).
  { destruct (ID col).
    - rewrite (Hid eq_refl). now destruct (Type_ col =? "INTEGER").
    - specialize (Hnid eq_refl). unfold plainConstraints in Hnid.
      simpl in Hnid.
      repeat (destruct Hnid as [<-|Hnid]); try contradiction; now split. }
  destruct Htype, Hcons. now apply plain_column_fields.
Qed.

End SmartColumns.

(* ------------------------------------------------------------------ *)
(** ** The argument parser: all or nothing *)

Section AllOrNothing.

Variable To : unicode.Case -> utf8.rune -> utf8.rune.
Variable F : flags.

Lemma parseColumns_app (a b : list string) :
  forall sca0 : scaffoldCommandArgs,
    parseColumns To F (a ++ b) sca0
    = (sca <- parseColumns To F a sca0;; parseColumns To F b sca).
Proof.
  induction a as [|raw a IH]; intros sca0; [reflexivity|].
  simpl. destruct (parseColumnDefinition To F raw); simpl; auto.
Qed.

(** With a first argument of two clean halves that upper camel case
    accepts and a valid [-only] value, the call is the loop over the
    columns. *)
Lemma parseScaffoldCommandArgs_run (singular plural singularName
  pluralName : string) (raws : list string) :
  singular <> "" -> plural <> "" ->
  strings.Contains singular "/" = false ->
  strings.Contains plural "/" = false ->
  upperCamelCase To singular = Ok singularName ->
  upperCamelCase To plural = Ok pluralName ->
  validOnly (onlyFlag F) = true ->
  parseScaffoldCommandArgs To F ((singular ++ "/" ++ plural) :: raws)
  = parseColumns To F raws (startArgs F plural singularName pluralName).
Proof.
  intros Hs Hp Hsc Hpc Hsn Hpn Hvalid. unfold parseScaffoldCommandArgs.
  change (singular ++ "/" ++ plural) with (singular ++ String "/" plural).
  rewrite Split_app_sep, (Split_without _ _ Hsc), (Split_without _ _ Hpc).
  cbn [app List.length Nat.eqb negb orb at_ nth]. unfold len.
  destruct singular as [|s0 s]; [congruence|].
  destruct plural as [|p0 p]; [congruence|].
  cbn [String.length]. change (Z.of_nat (S ?n) =? 0)%Z with false.
  cbn [orb]. rewrite Hsn, Hpn. cbn [bind].
  unfold validOnly in Hvalid. unfold startArgs, outputOf.
  destruct (onlyFlag F =? "schema"); [reflexivity|].
  destruct (onlyFlag F =? "queries"); [reflexivity|].
  destruct (onlyFlag F =? ""); [reflexivity|discriminate].
Qed.

(** X17.  Parsing is all or nothing: when a call is accepted, the same call
    followed by a column definition that [parseColumnDefinition] rejects,
    and by anything after it, fails with the error of that definition. *)
Theorem first_bad_column_aborts (arg0 bad : string) (good rest : list string)
  (sca : scaffoldCommandArgs) (e : error) :
  parseScaffoldCommandArgs To F (arg0 :: good) = Ok sca ->
  parseColumnDefinition To F bad = Err e ->
  parseScaffoldCommandArgs To F (arg0 :: good ++ bad :: rest) = Err e.
Proof.
  intros Hgood Hbad.
  apply parseScaffoldCommandArgs_start in Hgood
    as (singular & plural & Hhd & Hs & Hp & Hsc & Hpc & Hvalid
        & sn & pn & Hsn & Hpn & Hloop).
  simpl in Hhd, Hloop. subst arg0.
  rewrite (parseScaffoldCommandArgs_run singular plural sn pn);
    try assumption.
  rewrite parseColumns_app, Hloop. cbn [bind parseColumns].
  now rewrite Hbad.
Qed.

End AllOrNothing.

Lemma scaffoldCommand_without_queries (args : scaffoldCommandArgs) :
  has (Output args) outputQueries = false ->
  scaffoldCommand args = Ok (preamble args).
Proof.
  intros Hq. unfold scaffoldCommand, preamble. rewrite Hq. f_equal.
  destruct (has_all (Output args)), (has (Output args) outputSchema);
    rewrite ?append_assoc, ?append_empty_l, ?append_empty_r; reflexivity.
Qed.

(** X19.  When queries are not asked for, no line of the output is the
    label of a query template (as long as no string of the arguments holds
    a line feed). *)
Theorem no_labels_without_queries (args : scaffoldCommandArgs) :
  has (Output args) outputQueries = false ->
  singleLineFields args = true ->
  exists out : string, scaffoldCommand args = Ok out /\ labels out = [].
Proof.
  intros Hq Hone. exists (preamble args).
  split; [now apply scaffoldCommand_without_queries|].
  apply singleLineFields_inv in Hone as (Ht & _ & _ & _ & Hc & _).
  apply labels_Block. now apply preamble_block.
Qed.

(* ------------------------------------------------------------------ *)
(** ** ASCII text: case mapping byte by byte *)

Lemma zbyte_byteZ (b : ascii) : utf8.zbyte (utf8.byteZ b) = b.
Proof.
  unfold utf8.zbyte, utf8.byteZ. rewrite N2Z.id. apply ascii_N_embedding.
Qed.

Lemma byteZ_zbyte (z : Z) :
  (0 <= z < 256)%Z -> utf8.byteZ (utf8.zbyte z) = z.
Proof.
  intros H. unfold utf8.zbyte, utf8.byteZ.
  rewrite N_ascii_embedding by lia. lia.
Qed.

Lemma byteZ_nonneg (b : ascii) : (0 <= utf8.byteZ b)%Z.
Proof. unfold utf8.byteZ. lia. Qed.

Lemma encode_small (r : Z) :
  (0 <= r <= 127)%Z -> utf8.encode r = String (utf8.zbyte r) "".
Proof.
  intros H. unfold utf8.encode, utf8.between, utf8.MaxRune.
  replace (r <? 0)%Z with false by (symmetry; apply Z.ltb_ge; lia).
  replace (1114111 <? r)%Z with false by (symmetry; apply Z.ltb_ge; lia).
  replace (55296 <=? r)%Z with false by (symmetry; apply Z.leb_gt; lia).
  replace (r <=? 127)%Z with true by (symmetry; apply Z.leb_le; lia).
  reflexivity.
Qed.

Lemma concat_empty_cons (x : string) (l : list string) :
  String.concat "" (x :: l) = x ++ String.concat "" l.
Proof.
  destruct l as [|y l]; simpl; [now rewrite append_empty_r|reflexivity].
Qed.

Lemma runes_ascii (b : ascii) (s : string) :
  (utf8.byteZ b <? 128)%Z = true ->
  utf8.runes (String b s) = utf8.byteZ b :: utf8.runes s.
Proof.
  intros Hb. unfold utf8.runes. cbn [utf8.decode]. now rewrite Hb.
Qed.

(** Writing the runes of an ASCII string back gives the string. *)
Lemma of_runes_ascii (s : string) :
  isASCII s = true -> utf8.of_runes (utf8.runes s) = s.
Proof.
  induction s as [|b s IH]; [reflexivity|]. simpl isASCII. intros H.
  apply andb_true_iff in H as [Hb Hs].
  rewrite (runes_ascii _ _ Hb). unfold utf8.of_runes in *.
  cbn [map]. rewrite concat_empty_cons, (IH Hs), encode_small, zbyte_byteZ.
  - reflexivity.
  - pose proof (byteZ_nonneg b). apply Z.ltb_lt in Hb. lia.
Qed.

Section AsciiCase.

Variable To : unicode.Case -> utf8.rune -> utf8.rune.

Lemma ToLower_byte (b : ascii) :
  (utf8.byteZ b <? 128)%Z = true ->
  (0 <= unicode.ToLower To (utf8.byteZ b) <= 127)%Z
  /\ utf8.zbyte (unicode.ToLower To (utf8.byteZ b)) = lowerByte b.
Proof.
  intros Hb. pose proof (byteZ_nonneg b) as H0. apply Z.ltb_lt in Hb.
  unfold unicode.ToLower, lowerByte, utf8.between.
  replace (utf8.byteZ b <=? 127)%Z with true by (symmetry; apply Z.leb_le; lia).
  destruct (Z.leb_spec 65 (utf8.byteZ b)), (Z.leb_spec (utf8.byteZ b) 90);
    cbn [andb]; split; try lia; try reflexivity; apply zbyte_byteZ.
Qed.

Lemma ToUpper_byte (b : ascii) :
  (utf8.byteZ b <? 128)%Z = true ->
  (0 <= unicode.ToUpper To (utf8.byteZ b) <= 127)%Z
  /\ utf8.zbyte (unicode.ToUpper To (utf8.byteZ b)) = upperByte b.
Proof.
  intros Hb. pose proof (byteZ_nonneg b) as H0. apply Z.ltb_lt in Hb.
  unfold unicode.ToUpper, upperByte, utf8.between.
  replace (utf8.byteZ b <=? 127)%Z with true by (symmetry; apply Z.leb_le; lia).
  destruct (Z.leb_spec 97 (utf8.byteZ b)), (Z.leb_spec (utf8.byteZ b) 122);
    cbn [andb]; split; try lia; try reflexivity; apply zbyte_byteZ.
Qed.

(** On ASCII text [strings.ToLower] maps the capital letters byte by byte
    and never reads the case table. *)
Lemma ToLower_ascii (s : string) :
  isASCII s = true -> strings.ToLower To s = mapBytes lowerByte s.
Proof.
  unfold strings.ToLower, strings.Map.
  induction s as [|b s IH]; [reflexivity|]. simpl isASCII. intros H.
  apply andb_true_iff in H as [Hb Hs].
  rewrite (runes_ascii _ _ Hb). cbn [map mapBytes].
  rewrite concat_empty_cons, (IH Hs).
  destruct (ToLower_byte b Hb) as [Hrange Hbyte].
  replace (unicode.ToLower To (utf8.byteZ b) <? 0)%Z with false
    by (symmetry; apply Z.ltb_ge; lia).
  now rewrite (encode_small _ Hrange), Hbyte.
Qed.

Lemma capitalize_ascii (s : string) :
  isASCII s = true -> s <> "" ->
  capitalize To s = Ok (capitalizeFirst s).
Proof.
  destruct s as [|b s]; [congruence|]. simpl isASCII. intros H _.
  apply andb_true_iff in H as [Hb Hs].
  unfold capitalize. rewrite (runes_ascii _ _ Hb).
  destruct (ToUpper_byte b Hb) as [Hrange Hbyte].
  unfold utf8.of_runes. cbn [map]. rewrite concat_empty_cons.
  fold (utf8.of_runes (utf8.runes s)).
  now rewrite (of_runes_ascii _ Hs), (encode_small _ Hrange), Hbyte.
Qed.

Lemma capitalizeAll_ascii (parts : list string) :
  Forall (fun p => isASCII p = true) parts ->
  ~ In "" parts ->
  capitalizeAll To parts
  = Ok (String.concat "" (map capitalizeFirst parts)).
Proof.
  induction 1 as [|p parts Hp _ IH]; intros Hne; [reflexivity|].
  cbn [capitalizeAll map]. rewrite capitalize_ascii; [|exact Hp|].
  - cbn [bind]. rewrite IH; [|intros Hin; apply Hne; now right].
    cbn [bind]. now rewrite concat_empty_cons.
  - intros ->. apply Hne. now left.
Qed.

End AsciiCase.

Lemma Split_ascii (s : string) (c : ascii) :
  isASCII s = true ->
  Forall (fun p => isASCII p = true) (strings.Split s c).
Proof.
  induction s as [|x s IH]; [now repeat constructor|].
  simpl isASCII. intros H. apply andb_true_iff in H as [Hx Hs].
  specialize (IH Hs). simpl.
  destruct (Ascii.eqb x c); [now constructor|].
  destruct (strings.Split s c) as [|p ps].
  - constructor; [simpl; now rewrite Hx|constructor].
  - apply Forall_cons_iff in IH as [Hp Hps].
    constructor; [simpl; now rewrite Hx, Hp|exact Hps].
Qed.

Lemma capitalizeFirst_no_underscore (p : string) :
  strings.Contains p "_" = false ->
  strings.Contains (capitalizeFirst p) "_" = false.
Proof.
  destruct p as [|b p]; [reflexivity|]. simpl. intros H.
  apply orb_false_iff in H as [Hb Hp]. rewrite Hp, orb_false_r.
  unfold upperByte, utf8.between.
  destruct (Z.leb_spec 97 (utf8.byteZ b)), (Z.leb_spec (utf8.byteZ b) 122);
    cbn [andb]; try exact Hb.
  apply Ascii.eqb_neq. intros E.
  apply (f_equal utf8.byteZ) in E. rewrite byteZ_zbyte in E by lia.
  change (utf8.byteZ "_") with 95%Z in E. lia.
Qed.

Section AsciiNames.

Variable To : unicode.Case -> utf8.rune -> utf8.rune.
Variable F : flags.

(** X20.  On an ASCII name with no empty piece between underscores,
    [upperCamelCase] returns the pieces joined without the underscores, each
    with its first byte in upper case when that byte is a small letter and
    every other byte unchanged; the result holds no underscore. *)
Theorem entity_name_ascii (s : string) :
  isASCII s = true ->
  ~ In "" (strings.Split s "_") ->
  upperCamelCase To s
  = Ok (String.concat "" (map capitalizeFirst (strings.Split s "_")))
  /\ strings.Contains
       (String.concat "" (map capitalizeFirst (strings.Split s "_"))) "_"
     = false.
Proof.
  intros Hascii Hclean. split.
  - unfold upperCamelCase.
    pose proof (Split_ascii s "_" Hascii) as Hparts.
    destruct (strings.Split s "_") as [|p [|q rest]] eqn:E.
    + now apply Split_not_nil in E.
    + pose proof (Split_concat s "_") as Hs. rewrite E in Hs. simpl in Hs.
      subst p. cbn [List.length Nat.eqb map String.concat].
      apply capitalize_ascii; [exact Hascii|].
      intros ->. apply Hclean. now left.
    + change (List.length (p :: q :: rest) =? 1)%nat with false.
      now apply capitalizeAll_ascii.
  - apply Contains_join; [reflexivity|].
    pose proof (Split_pieces_clean s "_") as Hpieces. clear Hclean.
    induction Hpieces as [|p ps Hp _ IH]; [constructor|].
    cbn [map]. constructor; [now apply capitalizeFirst_no_underscore|exact IH].
Qed.

(** X21.  For an ASCII name and a value of [-id-column] without capital
    letters, such as the default [id], a plain column is the identifier
    column exactly when its name and the flag value are equal up to the
    case of the ASCII letters. *)
Theorem identifier_test_folds_ascii_case (name ty : string) :
  plainName name = true ->
  isASCII name = true ->
  strings.Contains ty ":" = false -> strings.Contains ty "@" = false ->
  mapBytes lowerByte (idColumnFlag F) = idColumnFlag F ->
  parseColumnDefinition To F (name ++ ":" ++ ty)
  = Ok {| Name := name; Type_ := ty; Constraint := "";
          ID := mapBytes lowerByte name
                =? mapBytes lowerByte (idColumnFlag F) |}.
Proof.
  intros Hname Hascii Hc Ha Hflag.
  destruct (plain_column_fields To F name ty "" Hname Hc Ha eq_refl eq_refl)
    as [H _].
  now rewrite H, (ToLower_ascii To _ Hascii), Hflag.
Qed.

End AsciiNames.

(* ------------------------------------------------------------------ *)
(** ** The further theorems at concrete calls *)

Lemma parser_failures_are_bad_arguments_witness :
  parseScaffoldCommandArgs asciiOnly defaultFlags ["a/b/c"; "@id"]
  = Err (Errorf_w errBadArgument
           ": invalid <name>: '[a b c]', expected '<singular>/<plural>'")
  /\ errors_Is
       (Errorf_w errBadArgument
          ": invalid <name>: '[a b c]', expected '<singular>/<plural>'")
       errBadArgument = true
  /\ HasPrefix
       (error_text
          (Errorf_w errBadArgument
             ": invalid <name>: '[a b c]', expected '<singular>/<plural>'"))
       "bad argument: " = true.
Proof.
  split; [reflexivity|].
  exact (parser_failures_are_bad_arguments asciiOnly defaultFlags
           ["a/b/c"; "@id"] _ eq_refl).
Defined.


Lemma parsed_options_from_flags_witness :
  parseScaffoldCommandArgs asciiOnly defaultFlags authorCall = Ok authorArgs
  /\ exists singular plural : string,
       hd "" authorCall = singular ++ "/" ++ plural
       /\ Table authorArgs = plural
       /\ upperCamelCase asciiOnly singular = Ok (SingularEntity authorArgs)
       /\ upperCamelCase asciiOnly plural = Ok (PluralEntity authorArgs)
       /\ NoExistsClause authorArgs = noExistsClauseFlag defaultFlags
       /\ OrderBy authorArgs = orderByFlag defaultFlags
       /\ NoReturningClause authorArgs = noReturningClauseFlag defaultFlags
       /\ Output authorArgs = outputOf (onlyFlag defaultFlags)
       /\ validOnly (onlyFlag defaultFlags) = true.
Proof.
  split; [reflexivity|].
  exact (parsed_options_from_flags asciiOnly defaultFlags authorCall
           authorArgs eq_refl).
Defined.

Lemma longest_fields_witness :
  parseScaffoldCommandArgs asciiOnly defaultFlags authorCall = Ok authorArgs
  /\ LongestName authorArgs = longest Name (Columns authorArgs)
  /\ LongestType authorArgs = longest Type_ (Columns authorArgs)
  /\ Forall (fun c => (len (Name c) <= LongestName authorArgs)%Z
                      /\ (len (Type_ c) <= LongestType authorArgs)%Z)
       (Columns authorArgs).
Proof.
  split; [reflexivity|].
  exact (longest_fields asciiOnly defaultFlags authorCall authorArgs eq_refl).
Defined.

Lemma schema_columns_aligned_witness :
  parseScaffoldCommandArgs asciiOnly defaultFlags authorCall = Ok authorArgs
  /\ In {| Name := "bio"; Type_ := "text"; Constraint := ""; ID := false |}
       (Columns authorArgs)
  /\ exists lead tail : string,
       writeSchemaColumn authorArgs 2
         {| Name := "bio"; Type_ := "text"; Constraint := ""; ID := false |}
       = lead ++ "text" ++ tail
       /\ len lead = 7%Z.
Proof.
  assert (Hin : In {| Name := "bio"; Type_ := "text"; Constraint := "";
                      ID := false |} (Columns authorArgs))
    by (simpl; tauto).
  split; [reflexivity|]. split; [exact Hin|].
  destruct (schema_columns_aligned asciiOnly defaultFlags authorCall
              authorArgs 2 _ eq_refl Hin) as (lead & tail & Htext & Hlen & _).
  exists lead, tail. split; [exact Htext|exact Hlen].
Defined.

Lemma update_statement_text_witness :
  IDColumn authorArgs
  = Some {| Name := "id"; Type_ := "INTEGER"; Constraint := "PRIMARY KEY";
            ID := true |}
  /\ writeUpdateQuery authorArgs
     = Ok ("-- name: UpdateAuthor :one" ++ nl
           ++ "UPDATE authors" ++ nl
           ++ "SET" ++ nl
           ++ "  name = ?," ++ nl
           ++ "  bio = ?" ++ nl
           ++ "WHERE id = ?" ++ nl
           ++ "RETURNING *;").
Proof.
  split; [reflexivity|].
  exact (update_statement_text authorArgs _ eq_refl).
Defined.

Lemma smart_column_shape_witness :
  parseSmartColumnDefinition "pk@text@id"
  = Ok {| Name := "pk"; Type_ := "TEXT";
          Constraint := "NOT NULL PRIMARY KEY"; ID := true |}
  /\ In "TEXT" typeKeywords.
Proof.
  split; [reflexivity|].
  exact (proj1 (proj2 (proj2 (smart_column_shape "pk@text@id" _ eq_refl)))).
Defined.

Lemma id_with_unique_or_null_rejected_witness :
  plainName "col" = true
  /\ Forall (fun t => knownTag t = true) ["id"; "unique"]
  /\ mem "id" ["id"; "unique"] = true
  /\ mem "unique" ["id"; "unique"] || mem "null" ["id"; "unique"] = true
  /\ parseColumnDefinition asciiOnly defaultFlags "col@id@unique"
     = Err (Errorf_w errInvalidSmartColumn
              ": 'col@id@unique', cannot combine @id with @unique or @null").
Proof.
  assert (Hknown : Forall (fun t => knownTag t = true) ["id"; "unique"])
    by (repeat constructor).
  split; [reflexivity|]. split; [exact Hknown|]. do 2 (split; [reflexivity|]).
  exact (id_with_unique_or_null_rejected asciiOnly defaultFlags "col"
           ["id"; "unique"] eq_refl Hknown eq_refl eq_refl).
Defined.

Lemma unknown_tag_rejected_witness :
  plainName "a" = true
  /\ firstUnknownTag ["text"; "foo"; "bar"] = Some "foo"
  /\ parseColumnDefinition asciiOnly defaultFlags "a@text@foo@bar"
     = Err (Errorf_w errInvalidSmartColumn
              ": 'a@text@foo@bar', unknown <tag> #foo").
Proof.
  do 2 (split; [reflexivity|]).
  apply (unknown_tag_rejected asciiOnly defaultFlags "a" ["text"; "foo"; "bar"]
           "foo" eq_refl); [|reflexivity].
  repeat constructor.
Defined.

Lemma smart_missing_name_witness :
  "id@text" <> "id"
  /\ strings.Contains "id@text" ":" = false
  /\ parseColumnDefinition asciiOnly defaultFlags "@id@text"
     = Err (Errorf_w errInvalidSmartColumn ": '@id@text', missing <name>").
Proof.
  assert (Hne : "id@text" <> "id") by discriminate.
  split; [exact Hne|]. split; [reflexivity|].
  exact (smart_missing_name asciiOnly defaultFlags "id@text" Hne eq_refl).
Defined.

Lemma plain_column_verbatim_witness :
  plainName "name" = true
  /\ parseColumnDefinition asciiOnly defaultFlags "name:text:NOT NULL"
     = Ok {| Name := "name"; Type_ := "text"; Constraint := "NOT NULL";
             ID := false |}.
Proof.
  split; [reflexivity|].
  exact (proj2 (plain_column_verbatim asciiOnly defaultFlags "name" "text"
                  "NOT NULL" eq_refl eq_refl eq_refl eq_refl eq_refl)).
Defined.

Lemma smart_column_plain_spelling_witness :
  strings.Contains "pk@text@id" "@" = true
  /\ parseColumnDefinition asciiOnly defaultFlags "pk@text@id"
     = Ok {| Name := "pk"; Type_ := "TEXT";
             Constraint := "NOT NULL PRIMARY KEY"; ID := true |}
  /\ parseColumnDefinition asciiOnly defaultFlags
       "pk:TEXT:NOT NULL PRIMARY KEY"
     = Ok {| Name := "pk"; Type_ := "TEXT";
             Constraint := "NOT NULL PRIMARY KEY"; ID := false |}.
Proof.
  do 2 (split; [reflexivity|]).
  exact (smart_column_plain_spelling asciiOnly defaultFlags "pk@text@id" _
           eq_refl eq_refl).
Defined.

Lemma first_bad_column_aborts_witness :
  (exists sca : scaffoldCommandArgs,
      parseScaffoldCommandArgs asciiOnly defaultFlags ["a/b"; "@id"] = Ok sca)
  /\ parseColumnDefinition asciiOnly defaultFlags "x"
     = Err (Errorf_w errBadArgument
              ": invalid <column>: 'x', expected <smart-column> or <plain-column>")
  /\ parseScaffoldCommandArgs asciiOnly defaultFlags
       ["a/b"; "@id"; "x"; "n@text"]
     = Err (Errorf_w errBadArgument
              ": invalid <column>: 'x', expected <smart-column> or <plain-column>").
Proof.
  split; [eexists; reflexivity|]. split; [reflexivity|].
  exact (first_bad_column_aborts asciiOnly defaultFlags "a/b" "x" ["@id"]
           ["n@text"] _ _ eq_refl eq_refl).
Defined.

Lemma no_labels_without_queries_witness :
  has (Output authorSchemaArgs) outputQueries = false
  /\ singleLineFields authorSchemaArgs = true
  /\ exists out : string,
       scaffoldCommand authorSchemaArgs = Ok out /\ labels out = [].
Proof.
  do 2 (split; [reflexivity|]).
  exact (no_labels_without_queries authorSchemaArgs eq_refl eq_refl).
Defined.

Lemma entity_name_ascii_witness :
  isASCII "zipcode_import" = true
  /\ ~ In "" (strings.Split "zipcode_import" "_")
  /\ upperCamelCase asciiOnly "zipcode_import" = Ok "ZipcodeImport".
Proof.
  assert (Hclean : ~ In "" (strings.Split "zipcode_import" "_"))
    by (simpl; intros [H|[H|[]]]; discriminate).
  split; [reflexivity|]. split; [exact Hclean|].
  exact (proj1 (entity_name_ascii asciiOnly "zipcode_import" eq_refl Hclean)).
Defined.

Lemma identifier_test_folds_ascii_case_witness :
  plainName "Id" = true /\ isASCII "Id" = true
  /\ mapBytes lowerByte (idColumnFlag defaultFlags) = idColumnFlag defaultFlags
  /\ parseColumnDefinition asciiOnly defaultFlags "Id:INTEGER"
     = Ok {| Name := "Id"; Type_ := "INTEGER"; Constraint := ""; ID := true |}.
Proof.
  do 3 (split; [reflexivity|]).
  exact (identifier_test_folds_ascii_case asciiOnly defaultFlags "Id"
           "INTEGER" eq_refl eq_refl eq_refl eq_refl eq_refl).
Defined.

(* ------------------------------------------------------------------ *)
(** ** The previous revision against the current one *)

(** The tag loops of the two revisions return the same value, but for the
    text of the error on an unknown tag. *)
Lemma Previous_scanTags_wording (s : string) (tags : list string) :
  forall v : tagVars,
    Previous.scanTags s tags v = scanTags s tags v
    \/ exists tag : string,
         scanTags s tags v
         = Err (Errorf_w errInvalidSmartColumn
                  (": '" ++ s ++ "', unknown <tag> #" ++ tag))
         /\ Previous.scanTags s tags v
            = Err (Errorf_w errInvalidSmartColumn
                     (": '" ++ s ++ "': unknown <tag> #" ++ tag)).
Proof.
  induction tags as [|tag rest IH]; intros v; [now left|].
  cbn [Previous.scanTags scanTags].
  repeat match goal with
         | |- context [if ?c then _ else _] => destruct c; [apply IH|]
         end.
  right. exists tag. split; reflexivity.
Qed.

(** X22.  The two revisions return the same column for the same smart
    definition and fail on the same definitions.  Their results are equal,
    the error included, except in two cases, where both fail with an error
    that wraps [errInvalidSmartColumn] and only the text differs: an unknown
    tag ([', unknown <tag> #t] now, [': unknown <tag> #t] before) and a
    missing type ([', missing column type] now, [' missing column type]
    before). *)
Theorem revisions_agree_on_smart_columns (s : string) :
  (forall col : column,
      Previous.parseSmartColumnDefinition s = Ok col
      <-> parseSmartColumnDefinition s = Ok col)
  /\ ((exists e : error, Previous.parseSmartColumnDefinition s = Err e)
      <-> (exists e : error, parseSmartColumnDefinition s = Err e))
  /\ (Previous.parseSmartColumnDefinition s = parseSmartColumnDefinition s
      \/ (exists tag : string,
            parseSmartColumnDefinition s
            = Err (Errorf_w errInvalidSmartColumn
                     (": '" ++ s ++ "', unknown <tag> #" ++ tag))
            /\ Previous.parseSmartColumnDefinition s
               = Err (Errorf_w errInvalidSmartColumn
                        (": '" ++ s ++ "': unknown <tag> #" ++ tag)))
      \/ (parseSmartColumnDefinition s
          = Err (Errorf_w errInvalidSmartColumn
                   (": '" ++ s ++ "', missing column type"))
          /\ Previous.parseSmartColumnDefinition s
             = Err (Errorf_w errInvalidSmartColumn
                      (": '" ++ s ++ "' missing column type")))).
Proof.
  assert (H : Previous.parseSmartColumnDefinition s
              = parseSmartColumnDefinition s
              \/ (exists tag : string,
                    parseSmartColumnDefinition s
                    = Err (Errorf_w errInvalidSmartColumn
                             (": '" ++ s ++ "', unknown <tag> #" ++ tag))
                    /\ Previous.parseSmartColumnDefinition s
                       = Err (Errorf_w errInvalidSmartColumn
                                (": '" ++ s ++ "': unknown <tag> #" ++ tag)))
              \/ (parseSmartColumnDefinition s
                  = Err (Errorf_w errInvalidSmartColumn
                           (": '" ++ s ++ "', missing column type"))
                  /\ Previous.parseSmartColumnDefinition s
                     = Err (Errorf_w errInvalidSmartColumn
                              (": '" ++ s ++ "' missing column type")))).
  { unfold Previous.parseSmartColumnDefinition, parseSmartColumnDefinition.
    destruct (s =? "@id"); [now left|].
    destruct (strings.Cut s smartColumnSep) as [[name rest] found].
    destruct (name =? ""); [now left|].
    destruct (Previous_scanTags_wording s (strings.Split rest smartColumnSep)
                {| colType := ""; id := false; null := false;
                   unique := false |}) as [E|(tag & Ec & Ep)].
    - rewrite E. destruct (scanTags _ _ _) as [v|e|]; cbn [bind];
        [|now left|now left].
      destruct (id v); [now left|].
      destruct (colType v =? ""); [|now left].
      right. right. split; reflexivity.
    - rewrite Ec, Ep. cbn [bind]. right. left. exists tag.
      split; reflexivity. }
  split; [|split; [|exact H]].
  - intros col. destruct H as [->|[(tag & -> & ->)|[-> ->]]];
      [tauto|split; discriminate|split; discriminate].
  - destruct H as [->|[(tag & -> & ->)|[-> ->]]];
      [tauto|split; intros _; eexists; reflexivity
      |split; intros _; eexists; reflexivity].
Qed.



Section Revisions.

Variable To : unicode.Case -> utf8.rune -> utf8.rune.
Variable F : flags.

(** X23.  The current revision accepts a plain column exactly when the
    previous one accepts it and its name is not empty, and returns the same
    column; the previous revision accepts the empty name, as in [:text]. *)
Theorem empty_plain_name_rejected_since (s : string) :
  (forall col : column,
      parsePlainColumnDefinition To F s = Ok col
      <-> Previous.parsePlainColumnDefinition To F s = Ok col
          /\ Name col <> "")
  /\ (forall ty : string,
        strings.Contains ty ":" = false ->
        Previous.parsePlainColumnDefinition To F (":" ++ ty)
        = Ok {| Name := ""; Type_ := ty; Constraint := "";
                ID := "" =? idColumnFlag F |}).
Proof.
  split.
  - intros col.
    unfold parsePlainColumnDefinition, Previous.parsePlainColumnDefinition.
    destruct ((List.length (strings.Split s ":") <? 2)%nat
              || (3 <? List.length (strings.Split s ":"))%nat).
    + cbn [orb]. split; [discriminate|]. intros [H _]. discriminate.
    + cbn [orb].
      destruct (String.eqb_spec (at_ (strings.Split s ":") 0) "") as [E|E].
      * split; [discriminate|]. intros [H Hname]. exfalso. apply Hname.
        destruct (List.length (strings.Split s ":") =? 3)%nat;
          injection H as <-; exact E.
      * split.
        -- intros H. split; [exact H|].
           destruct (List.length (strings.Split s ":") =? 3)%nat;
             injection H as <-; exact E.
        -- now intros [H _].
  - intros ty Hty. unfold Previous.parsePlainColumnDefinition.
    change (":" ++ ty) with ("" ++ String ":" ty).
    rewrite Split_app_sep, (Split_without _ _ Hty). reflexivity.
Qed.






Variables usage flagDefaults program : string.


End Revisions.

(* ------------------------------------------------------------------ *)
(** ** The columns of a call, from the arguments to the statements *)

Lemma HasPrefix_app (p s : string) : HasPrefix (p ++ s) p = true.
Proof.
  induction p as [|c p IH]; [now destruct s|].
  simpl. now rewrite Ascii.eqb_refl, IH.
Qed.

Lemma filter_ID_none (cols : list column) :
  Forall (fun c => ID c = false) cols -> filter ID cols = [].
Proof.
  induction 1 as [|c cols Hc _ IH]; [reflexivity|].
  simpl. now rewrite Hc.
Qed.

Lemma writeSchemaColumns_app (args : scaffoldCommandArgs)
  (a : list column) (c : column) (b : list column) :
  forall ci : Z,
    writeSchemaColumns args ci (a ++ c :: b)
    = writeSchemaColumns args ci a
      ++ writeSchemaColumn args (ci + count a) c
      ++ writeSchemaColumns args (ci + count a + 1) b.
Proof.
  induction a as [|x a IH]; intros ci.
  - cbn [app writeSchemaColumns]. unfold count. simpl List.length.
    rewrite append_empty_l. now replace (ci + Z.of_nat 0)%Z with ci by lia.
  - cbn [app writeSchemaColumns]. rewrite IH, count_cons, append_assoc.
    now replace (ci + 1 + count a)%Z with (ci + (1 + count a))%Z by lia.
Qed.

(** The closed forms of the INSERT and UPDATE templates over a given list
    of columns. *)
Lemma writeCreateQuery_over (args : scaffoldCommandArgs)
  (cols : list column) :
  NonIDColumns args = cols ->
  writeCreateQuery args
  = "-- name: Create" ++ SingularEntity args ++ " :one" ++ nl
    ++ "INSERT INTO " ++ Table args ++ " (" ++ nl
    ++ "  "
    ++ match cols with
       | [] => ""
       | _ :: _ => String.concat ", " (map Name cols) ++ nl
       end
    ++ ") VALUES (" ++ nl
    ++ "  "
    ++ match cols with
       | [] => ""
       | _ :: _ => String.concat ", " (map (fun _ => "?") cols) ++ nl
       end
    ++ ")" ++ nl
    ++ "RETURNING *;".
Proof.
  intros <-. unfold writeCreateQuery.
  destruct (NonIDColumns args) as [|c cs]; [reflexivity|].
  change (count (c :: cs)) with (0 + count (c :: cs))%Z at 1.
  rewrite writeCreateNames_line by discriminate.
  change (count (c :: cs)) with (0 + Z.of_nat (S (List.length cs)))%Z.
  change (List.length (c :: cs)) with (S (List.length cs)).
  rewrite writeCreateMarks_line, (marks_join c cs).
  reflexivity.
Qed.

Lemma writeUpdateQuery_over (args : scaffoldCommandArgs) (idc : column)
  (cols : list column) :
  IDColumn args = Some idc ->
  NonIDColumns args = cols ->
  writeUpdateQuery args
  = Ok ("-- name: Update" ++ SingularEntity args ++ " "
        ++ (if NoReturningClause args then ":exec" else ":one") ++ nl
        ++ "UPDATE " ++ Table args ++ nl
        ++ "SET" ++ nl
        ++ match cols with
           | [] => ""
           | _ :: _ =>
             String.concat ("," ++ nl)
               (map (fun c => "  " ++ Name c ++ " = ?") cols)
             ++ nl
           end
        ++ "WHERE " ++ Name idc ++ " = ?"
        ++ (if NoReturningClause args then ";" else nl ++ "RETURNING *;")).
Proof.
  intros Hid <-. unfold writeUpdateQuery, IDColumn_Name. rewrite Hid.
  cbn [bind].
  destruct (NonIDColumns args) as [|c cs], (NoReturningClause args);
    cbn [negb]; try reflexivity;
    change (count (c :: cs)) with (0 + count (c :: cs))%Z;
    now rewrite writeUpdateSets_join by discriminate.
Qed.

Section CallColumns.

Variable To : unicode.Case -> utf8.rune -> utf8.rune.
Variable F : flags.

Lemma parseColumns_total (raws : list string) :
  Forall (fun raw => exists col : column,
            parseColumnDefinition To F raw = Ok col) raws ->
  forall sca0 : scaffoldCommandArgs,
  exists sca : scaffoldCommandArgs, parseColumns To F raws sca0 = Ok sca.
Proof.
  induction 1 as [|raw raws [col Hcol] _ IH]; intros sca0.
  - now exists sca0.
  - simpl. rewrite Hcol. cbn [bind]. apply IH.
Qed.

(** An accepted call is the loop over the columns, started from what the
    first argument alone is parsed to; so is every call with that first
    argument. *)
Lemma parseScaffoldCommandArgs_alone (arg0 : string) (raws : list string)
  (sca : scaffoldCommandArgs) :
  parseScaffoldCommandArgs To F (arg0 :: raws) = Ok sca ->
  exists sca0 : scaffoldCommandArgs,
    parseScaffoldCommandArgs To F [arg0] = Ok sca0
    /\ Columns sca0 = [] /\ NonIDColumns sca0 = [] /\ IDColumn sca0 = None
    /\ forall raws' : list string,
         parseScaffoldCommandArgs To F (arg0 :: raws')
         = parseColumns To F raws' sca0.
Proof.
  intros H.
  apply parseScaffoldCommandArgs_start in H
    as (singular & plural & Hhd & Hs & Hp & Hsc & Hpc & Hvalid
        & sn & pn & Hsn & Hpn & _).
  simpl in Hhd. subst arg0.
  exists (startArgs F plural sn pn).
  split; [now rewrite (parseScaffoldCommandArgs_run To F singular plural sn pn)|].
  do 3 (split; [reflexivity|]).
  intros raws'.
  now apply parseScaffoldCommandArgs_run.
Qed.

(** C1, as the code has it.  A call is accepted exactly when its first
    argument alone is accepted and each raw definition parses on its own,
    however many of them parse to an identifier column.  The parsed column
    list then holds, in input order, the column of each raw definition,
    identifier columns included: it has as many identifier columns as there
    are raw definitions that parse to one.  The name, the options and the
    output mode of the result are those of the call without columns. *)
Theorem parsed_columns_as_given (arg0 : string) (raws : list string) :
  ((exists sca : scaffoldCommandArgs,
       parseScaffoldCommandArgs To F (arg0 :: raws) = Ok sca)
   <-> (exists sca0 : scaffoldCommandArgs,
           parseScaffoldCommandArgs To F [arg0] = Ok sca0)
       /\ Forall (fun raw => exists col : column,
                    parseColumnDefinition To F raw = Ok col) raws)
  /\ (forall sca : scaffoldCommandArgs,
        parseScaffoldCommandArgs To F (arg0 :: raws) = Ok sca ->
        Forall2 (fun raw col => parseColumnDefinition To F raw = Ok col)
          raws (Columns sca)
        /\ List.length (filter ID (Columns sca))
           = List.length (filter (parsesToIdentifier To F) raws))
  /\ (forall sca0 sca : scaffoldCommandArgs,
        parseScaffoldCommandArgs To F [arg0] = Ok sca0 ->
        parseScaffoldCommandArgs To F (arg0 :: raws) = Ok sca ->
        Table sca = Table sca0
        /\ SingularEntity sca = SingularEntity sca0
        /\ PluralEntity sca = PluralEntity sca0
        /\ NoExistsClause sca = NoExistsClause sca0
        /\ OrderBy sca = OrderBy sca0
        /\ NoReturningClause sca = NoReturningClause sca0
        /\ Output sca = Output sca0).
Proof.
  assert (Hcols : forall sca : scaffoldCommandArgs,
             parseScaffoldCommandArgs To F (arg0 :: raws) = Ok sca ->
             Forall2 (fun raw col => parseColumnDefinition To F raw = Ok col)
               raws (Columns sca)).
  { intros sca H.
    apply parseScaffoldCommandArgs_alone in H as Halone.
    destruct Halone as (sca0 & _ & Hc & _ & _ & Hrun).
    rewrite Hrun in H.
    apply parseColumns_adds in H as (cols & Hall & Hcols & _).
    rewrite Hc in Hcols. simpl in Hcols. now rewrite Hcols. }
  split; [split|split].
  - intros [sca H]. split.
    + apply parseScaffoldCommandArgs_alone in H as (sca0 & H0 & _).
      now exists sca0.
    + apply Hcols in H. clear -H.
      induction H as [|raw col raws cols Hraw _ IH]; constructor; eauto.
  - intros [[sca0 H0] Hall].
    apply parseScaffoldCommandArgs_alone in H0 as (sca1 & _ & _ & _ & _ & Hrun).
    rewrite Hrun. now apply parseColumns_total.
  - intros sca H. pose proof (Hcols sca H) as Hall. split; [exact Hall|].
    clear -Hall.
    induction Hall as [|raw col raws cols Hraw _ IH]; [reflexivity|].
    simpl. unfold parsesToIdentifier at 1. rewrite Hraw.
    destruct (ID col); simpl; now rewrite IH.
  - intros sca0 sca H0 H.
    apply parseScaffoldCommandArgs_alone in H0 as Halone.
    destruct Halone as (sca1 & H1 & _ & _ & _ & Hrun).
    rewrite H0 in H1. apply Ok_inj in H1. subst sca1.
    rewrite Hrun in H.
    apply parseColumns_fields in H
      as (Ht & Hs & Hp & Hn & Ho & Hr & Hout & _).
    repeat split; assumption.
Qed.

(** C9.  In what the parser returns, [Columns] is the column of each raw
    definition in input order, [IDColumn] is the last of them that
    qualifies as identifier, and [NonIDColumns] is [Columns] without every
    qualifying column.  The INSERT template names, and the UPDATE template
    sets, the columns that do not qualify and no other. *)
Theorem identifier_is_last_qualifying (args : list string)
  (sca : scaffoldCommandArgs) :
  parseScaffoldCommandArgs To F args = Ok sca ->
  exists cols : list column,
    Forall2 (fun raw col => parseColumnDefinition To F raw = Ok col)
      (tl args) cols
    /\ Columns sca = cols
    /\ IDColumn sca = lastOf (filter ID cols)
    /\ (forall (before after : list column) (c : column),
          cols = (before ++ c :: after)%list ->
          ID c = true ->
          Forall (fun c' => ID c' = false) after ->
          IDColumn sca = Some c)
    /\ NonIDColumns sca = filter notID cols
    /\ (forall c : column,
          In c cols -> ID c = true -> ~ In c (NonIDColumns sca))
    /\ writeCreateQuery sca
       = "-- name: Create" ++ SingularEntity sca ++ " :one" ++ nl
         ++ "INSERT INTO " ++ Table sca ++ " (" ++ nl
         ++ "  "
         ++ match filter notID cols with
            | [] => ""
            | _ :: _ =>
              String.concat ", " (map Name (filter notID cols)) ++ nl
            end
         ++ ") VALUES (" ++ nl
         ++ "  "
         ++ match filter notID cols with
            | [] => ""
            | _ :: _ =>
              String.concat ", " (map (fun _ => "?") (filter notID cols))
              ++ nl
            end
         ++ ")" ++ nl
         ++ "RETURNING *;"
    /\ (forall idc : column,
          IDColumn sca = Some idc ->
          writeUpdateQuery sca
          = Ok ("-- name: Update" ++ SingularEntity sca ++ " "
                ++ (if NoReturningClause sca then ":exec" else ":one") ++ nl
                ++ "UPDATE " ++ Table sca ++ nl
                ++ "SET" ++ nl
                ++ match filter notID cols with
                   | [] => ""
                   | _ :: _ =>
                     String.concat ("," ++ nl)
                       (map (fun c => "  " ++ Name c ++ " = ?")
                          (filter notID cols))
                     ++ nl
                   end
                ++ "WHERE " ++ Name idc ++ " = ?"
                ++ (if NoReturningClause sca then ";"
                    else nl ++ "RETURNING *;"))).
Proof.
  intros H.
  apply parseScaffoldCommandArgs_inv in H as (arg0 & sca0 & H & _ & Hc & Hn & Hi).
  apply parseColumns_adds in H as (cols & Hall & Hcols & Hnon & Hid).
  rewrite Hc in Hcols. rewrite Hn in Hnon. rewrite Hi in Hid.
  simpl in Hcols, Hnon.
  assert (Hlast : IDColumn sca = lastOf (filter ID cols))
    by (rewrite Hid; now destruct (lastOf (filter ID cols))).
  exists cols. split; [exact Hall|]. split; [exact Hcols|].
  split; [exact Hlast|]. split; [|split; [exact Hnon|split; [|split]]].
  - intros before after c -> Hidc Hafter. rewrite Hlast.
    rewrite filter_app. simpl. rewrite Hidc, (filter_ID_none after Hafter).
    apply lastOf_snoc.
  - intros c _ Hidc Hin. rewrite Hnon in Hin.
    apply filter_In in Hin as [_ Hnot].
    unfold notID in Hnot. rewrite Hidc in Hnot. discriminate.
  - now apply writeCreateQuery_over.
  - intros idc Hidc. now apply writeUpdateQuery_over.
Qed.

(** C10.  A plain column whose type, or constraint, is the empty string is
    accepted with that empty field: [a:], [a::], [a::NOT NULL] and
    [a:text:] parse, and none is a missing-type error.  In the schema of
    every accepted call, [writeSchema] writes a column that was parsed with
    an empty type as two spaces, the name, a space and the padding of the
    name, then, if it has a constraint, the padding of a whole type, a space
    and the constraint, and the comma unless it is the last: nothing stands
    where the type would. *)
Theorem plain_empty_type_accepted (name ty cons : string) :
  plainName name = true ->
  strings.Contains ty ":" = false -> strings.Contains ty "@" = false ->
  strings.Contains cons ":" = false -> strings.Contains cons "@" = false ->
  parseColumnDefinition To F (name ++ ":")
  = Ok {| Name := name; Type_ := ""; Constraint := "";
          ID := strings.ToLower To name =? idColumnFlag F |}
  /\ parseColumnDefinition To F (name ++ "::" ++ cons)
     = Ok {| Name := name; Type_ := ""; Constraint := cons;
             ID := strings.ToLower To name =? idColumnFlag F |}
  /\ parseColumnDefinition To F (name ++ ":" ++ ty ++ ":")
     = Ok {| Name := name; Type_ := ty; Constraint := "";
             ID := strings.ToLower To name =? idColumnFlag F |}
  /\ (forall (arg0 raw : string) (before after : list string)
        (col : column) (sca : scaffoldCommandArgs),
        parseColumnDefinition To F raw = Ok col ->
        Type_ col = "" ->
        parseScaffoldCommandArgs To F (arg0 :: before ++ raw :: after)
        = Ok sca ->
        exists colsBefore colsAfter : list column,
          Forall2 (fun r c => parseColumnDefinition To F r = Ok c)
            before colsBefore
          /\ Forall2 (fun r c => parseColumnDefinition To F r = Ok c)
               after colsAfter
          /\ writeSchema sca
             = "CREATE TABLE "
               ++ (if NoExistsClause sca then "" else "IF NOT EXISTS ")
               ++ Table sca ++ " (" ++ nl
               ++ writeSchemaColumns sca 0 colsBefore
               ++ ("  " ++ Name col ++ " "
                   ++ pad (LongestName sca - len (Name col))
                   ++ (if Constraint col =? "" then ""
                       else pad (LongestType sca) ++ " " ++ Constraint col)
                   ++ match after with
                      | [] => ""
                      | _ :: _ => ","
                      end
                   ++ nl)
               ++ writeSchemaColumns sca (count colsBefore + 1) colsAfter
               ++ ");").
Proof.
  intros Hname Hty1 Hty2 Hc1 Hc2.
  destruct (plain_column_fields To F name "" "" Hname eq_refl eq_refl eq_refl
              eq_refl) as [H2 _].
  destruct (plain_column_fields To F name "" cons Hname eq_refl eq_refl Hc1
              Hc2) as [_ H3].
  destruct (plain_column_fields To F name ty "" Hname Hty1 Hty2 eq_refl
              eq_refl) as [_ H4].
  split; [exact H2|]. split; [exact H3|]. split; [exact H4|].
  clear. intros arg0 raw before after col sca Hparse Ht H.
  apply parseScaffoldCommandArgs_inv in H
    as (arg0' & sca0 & H & _ & Hc & _ & _).
  cbn [tl] in H.
  apply parseColumns_adds in H as (cols & Hall & Hcols & _).
  rewrite Hc in Hcols. simpl in Hcols.
  apply Forall2_app_inv_l in Hall as (cb & rest & Hb & Hrest & ->).
  destruct rest as [|c ca]; [inversion Hrest|].
  apply Forall2_cons_iff in Hrest as [Hr Ha].
  rewrite Hparse in Hr. apply Ok_inj in Hr. subst c.
  exists cb, ca. split; [exact Hb|]. split; [exact Ha|].
  unfold writeSchema. rewrite Hcols, writeSchemaColumns_app.
  replace (if negb (NoExistsClause sca) then "IF NOT EXISTS " else "")
    with (if NoExistsClause sca then "" else "IF NOT EXISTS ")
    by now destruct (NoExistsClause sca).
  do 5 f_equal. rewrite !append_assoc. f_equal.
  replace (0 + count cb + 1)%Z with (count cb + 1)%Z by lia.
  rewrite <- !append_assoc. f_equal. rewrite !append_assoc.
  unfold writeSchemaColumn. rewrite Ht, Hcols.
  change (len "") with 0%Z. rewrite Z.sub_0_r.
  assert (Hcomma : (if (0 + count cb <? count (cb ++ col :: ca) - 1)%Z
                    then "," else "")
                   = match after with [] => "" | _ :: _ => "," end).
  { apply Forall2_length in Ha.
    unfold count. rewrite length_app. simpl List.length.
    destruct after as [|a after]; destruct ca as [|c ca]; try discriminate.
    - replace (_ <? _)%Z with false; [reflexivity|].
      symmetry. apply Z.ltb_ge. simpl. lia.
    - replace (_ <? _)%Z with true; [reflexivity|].
      symmetry. apply Z.ltb_lt. simpl List.length. lia. }
  rewrite Hcomma.
  destruct (Constraint col =? ""); cbn [negb];
    rewrite ?append_assoc, ?append_empty_l; reflexivity.
Qed.

End CallColumns.

(* ------------------------------------------------------------------ *)
(** ** The output of the three values of [-only] *)

Lemma HasPrefix_app_l (a b p : string) :
  HasPrefix a p = true -> HasPrefix (a ++ b) p = true.
Proof.
  revert a. induction p as [|c p IH]; intros a H; [now destruct (a ++ b)|].
  destruct a as [|x a]; [discriminate|]. simpl in *.
  apply andb_true_iff in H as [Hx Ha]. rewrite Hx. now apply IH.
Qed.

(** The writers do not read the output mode. *)
Lemma writeSchema_withOutput (sca : scaffoldCommandArgs) (o : outputMode) :
  writeSchema (withOutput sca o) = writeSchema sca.
Proof.
  assert (H : forall (cols : list column) (ci : Z),
             writeSchemaColumns (withOutput sca o) ci cols
             = writeSchemaColumns sca ci cols).
  { induction cols as [|c cols IH]; intros ci; [reflexivity|].
    cbn [writeSchemaColumns]. now rewrite IH. }
  unfold writeSchema. now rewrite H.
Qed.

Lemma scaffoldCommand_schema_only (sca : scaffoldCommandArgs) :
  scaffoldCommand (withOutput sca outputSchema)
  = Ok (writeSchema sca ++ nl ++ nl).
Proof.
  rewrite (scaffoldCommand_without_queries (withOutput sca outputSchema)
             eq_refl).
  unfold preamble. cbn [Output withOutput].
  change (has_all outputSchema) with false.
  change (has outputSchema outputSchema) with true.
  cbv iota.
  now rewrite append_empty_l, append_empty_r, writeSchema_withOutput.
Qed.

Lemma preamble_all (sca : scaffoldCommandArgs) :
  preamble (withOutput sca outputAll)
  = schemaBanner ++ (writeSchema sca ++ nl ++ nl) ++ queriesBanner.
Proof.
  unfold preamble. cbn [Output withOutput].
  change (has_all outputAll) with true.
  change (has outputAll outputSchema) with true.
  cbv iota. now rewrite writeSchema_withOutput.
Qed.

Lemma preamble_queries (sca : scaffoldCommandArgs) :
  preamble (withOutput sca outputQueries) = "".
Proof.
  unfold preamble. cbn [Output withOutput].
  change (has_all outputQueries) with false.
  change (has outputQueries outputSchema) with false.
  cbv iota. reflexivity.
Qed.

Lemma scaffoldCommand_by_mode (sca : scaffoldCommandArgs) :
  exists queries : string,
    scaffoldCommand (withOutput sca outputSchema)
    = Ok (writeSchema sca ++ nl ++ nl)
    /\ scaffoldCommand (withOutput sca outputQueries) = Ok queries
    /\ scaffoldCommand (withOutput sca outputAll)
       = Ok (schemaBanner ++ writeSchema sca ++ nl ++ nl ++ queriesBanner
             ++ queries)
    /\ HasPrefix queries
         (match IDColumn sca with
          | Some _ => "-- name: Get" ++ SingularEntity sca
          | None => "-- name: List" ++ PluralEntity sca
          end) = true.
Proof.
  destruct (IDColumn sca) as [idc|] eqn:Hid.
  - destruct (scaffoldCommand_with_identifier (withOutput sca outputQueries)
                idc eq_refl Hid)
      as (get & delete & update & Hget & Hdelete & Hupdate & Hq).
    destruct (scaffoldCommand_with_identifier (withOutput sca outputAll)
                idc eq_refl Hid)
      as (get' & delete' & update' & Hget' & Hdelete' & Hupdate' & Hall).
    change (writeGetQuery sca = Ok get) in Hget.
    change (writeGetQuery sca = Ok get') in Hget'.
    change (writeDeleteQuery sca = Ok delete) in Hdelete.
    change (writeDeleteQuery sca = Ok delete') in Hdelete'.
    change (writeUpdateQuery sca = Ok update) in Hupdate.
    change (writeUpdateQuery sca = Ok update') in Hupdate'.
    rewrite Hget in Hget'. apply Ok_inj in Hget'. subst get'.
    rewrite Hdelete in Hdelete'. apply Ok_inj in Hdelete'. subst delete'.
    rewrite Hupdate in Hupdate'. apply Ok_inj in Hupdate'. subst update'.
    exists ((get ++ nl) ++ nl
            ++ (writeListQuery sca ++ nl) ++ nl
            ++ (writeCreateQuery sca ++ nl) ++ nl
            ++ (delete ++ nl) ++ nl
            ++ (update ++ nl) ++ nl).
    split; [apply scaffoldCommand_schema_only|].
    rewrite preamble_queries, append_empty_l in Hq.
    split; [exact Hq|]. split.
    + rewrite Hall, preamble_all. f_equal.
      change (writeListQuery (withOutput sca outputAll))
        with (writeListQuery sca).
      change (writeCreateQuery (withOutput sca outputAll))
        with (writeCreateQuery sca).
      now rewrite !append_assoc.
    + apply HasPrefix_app_l, HasPrefix_app_l.
      unfold writeGetQuery, IDColumn_Name in Hget. rewrite Hid in Hget.
      cbn [bind] in Hget. apply Ok_inj in Hget. subst get.
      rewrite <- append_assoc. apply HasPrefix_app.
  - exists ((writeListQuery sca ++ nl) ++ nl ++ (writeCreateQuery sca ++ nl)).
    split; [apply scaffoldCommand_schema_only|]. split.
    + rewrite (scaffoldCommand_without_identifier
                 (withOutput sca outputQueries) eq_refl Hid).
      now rewrite preamble_queries, append_empty_l.
    + split.
      * rewrite (scaffoldCommand_without_identifier
                   (withOutput sca outputAll) eq_refl Hid), preamble_all.
        f_equal.
        change (writeListQuery (withOutput sca outputAll))
          with (writeListQuery sca).
        change (writeCreateQuery (withOutput sca outputAll))
          with (writeCreateQuery sca).
        now rewrite !append_assoc.
      * apply HasPrefix_app_l, HasPrefix_app_l.
        unfold writeListQuery. rewrite <- append_assoc.
        apply HasPrefix_app.
Qed.

Section OnlyFlag.

Variable To : unicode.Case -> utf8.rune -> utf8.rune.
Variable F : flags.

(** The column parser and the loop over the columns do not read [-only]. *)
Lemma parseColumns_setOnly (only : string) (raws : list string) :
  forall sca0 : scaffoldCommandArgs,
    parseColumns To (setOnly F only) raws sca0 = parseColumns To F raws sca0.
Proof.
  induction raws as [|raw raws IH]; intros sca0; [reflexivity|].
  cbn [parseColumns].
  change (parseColumnDefinition To (setOnly F only) raw)
    with (parseColumnDefinition To F raw).
  destruct (parseColumnDefinition To F raw); cbn [bind]; auto.
Qed.

Lemma parseColumns_withOutput (o : outputMode) (raws : list string) :
  forall sca0 sca : scaffoldCommandArgs,
    parseColumns To F raws sca0 = Ok sca ->
    parseColumns To F raws (withOutput sca0 o) = Ok (withOutput sca o).
Proof.
  induction raws as [|raw raws IH]; intros sca0 sca H;
    cbn [parseColumns] in *.
  - apply Ok_inj in H. now subst.
  - destruct (parseColumnDefinition To F raw) as [col|e|]; cbn [bind] in *;
      try discriminate.
    exact (IH _ _ H).
Qed.

(** The call with another valid value of [-only] returns the same
    arguments with the output mode of that value. *)
Lemma parseScaffoldCommandArgs_setOnly (only only' : string)
  (args : list string) (sca : scaffoldCommandArgs) :
  validOnly only' = true ->
  parseScaffoldCommandArgs To (setOnly F only) args = Ok sca ->
  parseScaffoldCommandArgs To (setOnly F only') args
  = Ok (withOutput sca (outputOf only'))
  /\ Output sca = outputOf only.
Proof.
  intros Hvalid H.
  destruct args as [|arg0 raws]; [discriminate H|].
  apply parseScaffoldCommandArgs_start in H
    as (singular & plural & Hhd & Hs & Hp & Hsc & Hpc & _
        & sn & pn & Hsn & Hpn & Hloop).
  cbn [hd tl] in Hhd, Hloop. subst arg0.
  rewrite parseColumns_setOnly in Hloop. split.
  - rewrite (parseScaffoldCommandArgs_run To (setOnly F only') singular
               plural sn pn); try assumption.
    rewrite parseColumns_setOnly.
    exact (parseColumns_withOutput (outputOf only') raws _ _ Hloop).
  - apply parseColumns_fields in Hloop as (_ & _ & _ & _ & _ & _ & Hout & _).
    exact Hout.
Qed.

(** X18.  The value of [-only] selects the parts of the output of a parsed
    call.  With [schema] the whole output is the [CREATE TABLE] statement
    and a blank line.  With [queries] the output is the query templates and
    nothing before them: it starts with the label of the first template.
    Without the flag the output is the schema banner, the output of
    [-only schema], the queries banner and the output of [-only queries]. *)
Theorem only_flag_selects_output (args : list string)
  (sca : scaffoldCommandArgs) :
  parseScaffoldCommandArgs To (setOnly F "") args = Ok sca ->
  exists (scaS scaQ : scaffoldCommandArgs) (queries : string),
    parseScaffoldCommandArgs To (setOnly F "schema") args = Ok scaS
    /\ parseScaffoldCommandArgs To (setOnly F "queries") args = Ok scaQ
    /\ scaffoldCommand scaS = Ok (writeSchema sca ++ nl ++ nl)
    /\ scaffoldCommand scaQ = Ok queries
    /\ HasPrefix queries
         (match IDColumn sca with
          | Some _ => "-- name: Get" ++ SingularEntity sca
          | None => "-- name: List" ++ PluralEntity sca
          end) = true
    /\ scaffoldCommand sca
       = Ok (schemaBanner ++ writeSchema sca ++ nl ++ nl ++ queriesBanner
             ++ queries).
Proof.
  intros H.
  destruct (parseScaffoldCommandArgs_setOnly "" "schema" args sca eq_refl H)
    as [HS Hout].
  destruct (parseScaffoldCommandArgs_setOnly "" "queries" args sca eq_refl H)
    as [HQ _].
  destruct (scaffoldCommand_by_mode sca)
    as (queries & Hschema & Hqueries & Hall & Hprefix).
  exists (withOutput sca outputSchema), (withOutput sca outputQueries),
    queries.
  split; [exact HS|]. split; [exact HQ|]. split; [exact Hschema|].
  split; [exact Hqueries|]. split; [exact Hprefix|].
  rewrite <- Hall. f_equal.
  destruct sca. cbn [Output] in Hout. now subst.
Qed.

End OnlyFlag.

(* ------------------------------------------------------------------ *)
(** ** Calls with several identifier columns and with untyped columns *)

Lemma Forall2_one {A B : Type} (R : A -> B -> Prop) (x : A) (l : list B) :
  Forall2 R [x] l -> exists y : B, l = [y] /\ R x y.
Proof.
  intros H. destruct l as [|y [|z l]].
  - inversion H.
  - apply Forall2_cons_iff in H as [H _]. now exists y.
  - apply Forall2_cons_iff in H as [_ H]. inversion H.
Qed.

Lemma parsed_columns_as_given_witness :
  exists sca : scaffoldCommandArgs,
    parseScaffoldCommandArgs asciiOnly defaultFlags threeKeysCall = Ok sca
    /\ Forall2
         (fun raw col => parseColumnDefinition asciiOnly defaultFlags raw = Ok col)
         (tl threeKeysCall) (Columns sca)
    /\ List.length (filter ID (Columns sca)) = 3%nat.
Proof.
  destruct (parsed_columns_as_given asciiOnly defaultFlags "a/b"
              ["@id"; "k@text@id"; "j@int@id"]) as [Hiff [Hcols _]].
  destruct (proj2 Hiff) as [sca H].
  { split; [eexists; reflexivity|].
    repeat (apply Forall_cons; [eexists; reflexivity|]). apply Forall_nil. }
  exists sca. split; [exact H|].
  destruct (Hcols sca H) as [Hall Hcount].
  split; [exact Hall|exact Hcount].
Defined.

Lemma identifier_is_last_qualifying_witness :
  parseScaffoldCommandArgs asciiOnly defaultFlags twoKeysCall = Ok twoKeysArgs
  /\ IDColumn twoKeysArgs
     = Some {| Name := "k"; Type_ := "TEXT";
               Constraint := "NOT NULL PRIMARY KEY"; ID := true |}
  /\ NonIDColumns twoKeysArgs
     = [{| Name := "n"; Type_ := "TEXT"; Constraint := "NOT NULL";
           ID := false |}]
  /\ writeCreateQuery twoKeysArgs
     = "-- name: CreateA :one" ++ nl
       ++ "INSERT INTO b (" ++ nl
       ++ "  n" ++ nl
       ++ ") VALUES (" ++ nl
       ++ "  ?" ++ nl
       ++ ")" ++ nl
       ++ "RETURNING *;"
  /\ writeUpdateQuery twoKeysArgs
     = Ok ("-- name: UpdateA :one" ++ nl
           ++ "UPDATE b" ++ nl
           ++ "SET" ++ nl
           ++ "  n = ?" ++ nl
           ++ "WHERE k = ?" ++ nl
           ++ "RETURNING *;").
Proof.
  split; [reflexivity|].
  destruct (identifier_is_last_qualifying asciiOnly defaultFlags twoKeysCall
              twoKeysArgs eq_refl)
    as (cols & _ & Hcols & Hlast & _ & Hnon & _ & Hins & Hupd).
  subst cols.
  split; [exact Hlast|]. split; [exact Hnon|]. split; [exact Hins|].
  exact (Hupd _ eq_refl).
Defined.

Lemma plain_empty_type_accepted_witness :
  plainName "a" = true
  /\ parseColumnDefinition asciiOnly defaultFlags "a:"
     = Ok {| Name := "a"; Type_ := ""; Constraint := ""; ID := false |}
  /\ parseColumnDefinition asciiOnly defaultFlags "a::NOT NULL"
     = Ok {| Name := "a"; Type_ := ""; Constraint := "NOT NULL";
             ID := false |}
  /\ parseColumnDefinition asciiOnly defaultFlags "a:text:"
     = Ok {| Name := "a"; Type_ := "text"; Constraint := ""; ID := false |}
  /\ parseScaffoldCommandArgs asciiOnly defaultFlags untypedCall
     = Ok untypedArgs
  /\ writeSchema untypedArgs
     = "CREATE TABLE IF NOT EXISTS ts (" ++ nl
       ++ "  id INTEGER PRIMARY KEY," ++ nl
       ++ "  a          NOT NULL," ++ nl
       ++ "  b  text" ++ nl
       ++ ");".
Proof.
  destruct (plain_empty_type_accepted asciiOnly defaultFlags "a" "text"
              "NOT NULL" eq_refl eq_refl eq_refl eq_refl eq_refl)
    as (H1 & H2 & H3 & Hschema).
  split; [reflexivity|]. split; [exact H1|]. split; [exact H2|].
  split; [exact H3|]. split; [reflexivity|].
  destruct (Hschema "t/ts" "a::NOT NULL" ["id:INTEGER:PRIMARY KEY"]
              ["b:text"] _ untypedArgs H2 eq_refl eq_refl)
    as (cb & ca & Hb & Ha & Htext).
  apply Forall2_one in Hb as (c1 & -> & Hc1).
  apply Forall2_one in Ha as (c2 & -> & Hc2).
  assert (E1 : c1 = {| Name := "id"; Type_ := "INTEGER";
                       Constraint := "PRIMARY KEY"; ID := true |})
    by (apply Ok_inj; rewrite <- Hc1; reflexivity).
  assert (E2 : c2 = {| Name := "b"; Type_ := "text"; Constraint := "";
                       ID := false |})
    by (apply Ok_inj; rewrite <- Hc2; reflexivity).
  subst c1 c2. exact Htext.
Defined.

Lemma only_flag_selects_output_witness :
  parseScaffoldCommandArgs asciiOnly (setOnly defaultFlags "") authorCall
  = Ok authorArgs
  /\ exists (scaS scaQ : scaffoldCommandArgs) (queries : string),
       parseScaffoldCommandArgs asciiOnly (setOnly defaultFlags "schema")
         authorCall = Ok scaS
       /\ parseScaffoldCommandArgs asciiOnly (setOnly defaultFlags "queries")
            authorCall = Ok scaQ
       /\ scaffoldCommand scaS = Ok (writeSchema authorArgs ++ nl ++ nl)
       /\ scaffoldCommand scaQ = Ok queries
       /\ HasPrefix queries "-- name: GetAuthor" = true
       /\ scaffoldCommand authorArgs
          = Ok (schemaBanner ++ writeSchema authorArgs ++ nl ++ nl
                ++ queriesBanner ++ queries).
Proof.
  split; [reflexivity|].
  exact (only_flag_selects_output asciiOnly defaultFlags authorCall
           authorArgs eq_refl).
Defined.
